(** * Lobby WebSocket coordinator of the cambia server

    A shallow embedding of [internal/handlers/lobby_ws.go]
    ([LobbyWSHandler], [readPump], [handleLobbyMessage], [writePump]) as
    state-passing functions over an explicit world: the lobby registry, the
    heap of [*lobby.LobbyConnection] objects, the heap of WebSocket
    transports and an append-only trace of the effects the handlers perform.

    The package [internal/lobby] ([LobbyState] and its methods) is not part
    of the sources at hand; its operations are modelled from the design
    document and are marked as such.

    A handler is run on its own: what the goroutines of other connections
    do shows as the world a step starts from, over which the statements
    about single steps quantify. *)

From stdpp Require Import base option list strings gmap fin_maps.
From Stdlib Require Import Ascii.

Open Scope string_scope.
Open Scope list_scope.

(** ** Data model *)

(** [uuid.UUID] is a 16-byte array; it is kept as the number it encodes. *)
Abbreviation UUID := N.

(** Values produced by [json.Unmarshal] into [map[string]interface{}].
    Go decodes numbers to float64; no handler inspects a number, so the
    decoded number is kept as its decimal text. *)
#[local] Unset Elimination Schemes.

Inductive JSON : Type :=
| JNull
| JBool (b : bool)
| JNumber (lit : string)
| JString (s : string)
| JArray (xs : list JSON)
| JObject (kvs : list (string * JSON)).

#[local] Set Elimination Schemes.

(** [websocket.MessageType] *)
Inductive MessageType : Type := MessageText | MessageBinary.

(** [websocket.StatusCode], the three codes the handlers use. *)
Inductive StatusCode : Type :=
| StatusNormalClosure
| StatusPolicyViolation
| StatusInternalError.

(** Result of one [c.Read(ctx)] as delivered by the peer. *)
Inductive ReadResult : Type :=
| ReadErr
| ReadMsg (typ : MessageType) (msg : string).

(** Modelled from the spec: the outbound event envelopes built by the
    broadcast primitives of the absent [lobby] package ("a typed event
    envelope"; the field names are not prescribed). *)
Inductive OutMsg : Type :=
| MsgUserJoined (u : UUID)
| MsgUserLeft (u : UUID)
| MsgReadyState (u : UUID) (ready : bool)
| MsgChat (u : UUID) (msg : string)
| MsgCountdownCancelled.

(** [lobby.LobbyConnection]: the fields the handlers initialise.  [Cancel]
    is the cancel function of the connection's context; [ctxDone] is the
    state of that context. *)
Record LobbyConnection : Type := mkConn {
  UserID : UUID;
  ctxDone : bool;
  OutChan : list OutMsg
}.

(** Capacity of [OutChan]: [make(chan map[string]interface{}, 10)]. *)
Definition OutChanCap : nat := 10.

(** A WebSocket transport [*websocket.Conn]. *)
Record Transport : Type := mkTransport {
  Subprotocol : string;
  closed : option (StatusCode * string);
  written : list string
}.

(** Modelled from the spec: [lobby.LobbyState].  The source uses the fields
    [LobbyID], [Connections], [ReadyStates] and [AutoStart]; the countdown
    handle is "an optional active Countdown handle" (here: the delay of the
    running countdown).  [Connections] holds pointers into the connection
    heap. *)
Record LobbyState : Type := mkLobby {
  LobbyID : UUID;
  Connections : gmap N nat;
  ReadyStates : gmap N bool;
  AutoStart : bool;
  Countdown : option nat
}.

(** Log lines, one constructor per call site of the logger. *)
Inductive LogEntry : Type :=
| LogAcceptError
| LogInvalidToken
| LogInvalidUserID
| LogDBError
| LogNotInLobby
| LogConnected (u l : UUID)
| LogReadErr (u : UUID)
| LogInvalidJSON (u : UUID)
| LogRemoveFailed (u : UUID)
| LogUnknownAction (action : string) (u : UUID)
| LogMarshalFailed
| LogWriteFailed.

(** Calls into the [lobby] package made by the handlers. *)
Inductive LobbyCall : Type :=
| CallGetOrCreateLobbyState
| CallBroadcastJoin (u : UUID)
| CallBroadcastLeave (u : UUID)
| CallBroadcastReadyState (u : UUID) (ready : bool)
| CallBroadcastChat (u : UUID) (msg : string)
| CallAreAllReady
| CallStartCountdown (seconds : nat)
| CallCancelCountdown
| CallRemoveUser (u : UUID).

(** Observable effects, in program order. *)
Inductive Event : Type :=
| EvLog (e : LogEntry)
| EvHTTPError (code : nat) (body : string)
| EvAccept (sock : nat)
| EvClose (sock : nat) (st : StatusCode) (reason : string)
| EvSockWrite (sock : nat) (data : string)
| EvCancel (conn : nat)
| EvGoWritePump (sock conn : nat)
| EvIsUserInLobby (l u : UUID)
| EvRemoveUserFromLobby (u l : UUID)
| EvCall (l : UUID) (f : LobbyCall)
| EvLock (l : UUID)
| EvUnlock (l : UUID)
| EvSetConnection (l u : UUID) (conn : nat)
| EvDelConnection (l u : UUID)
| EvSetReady (l u : UUID) (ready : bool)
| EvDelReady (l u : UUID)
| EvSetCountdown (l : UUID) (cd : option nat)
| EvEnqueue (conn : nat) (m : OutMsg)
| EvDrop (conn : nat) (m : OutMsg).

(** The world the handlers run in. *)
Record World : Type := mkWorld {
  lobbies : gmap N LobbyState;
  conns : gmap nat LobbyConnection;
  socks : gmap nat Transport;
  trace : list Event
}.

(** ** A small state monad *)

Definition M (A : Type) : Type := World → A * World.

#[global] Instance M_ret : MRet M := λ A a w, (a, w).
#[global] Instance M_bind : MBind M :=
  λ A B f m w, let '(a, w') := m w in f a w'.

Definition exec {A} (m : M A) (w : World) : World := snd (m w).
Definition eval {A} (m : M A) (w : World) : A := fst (m w).

Definition get : M World := λ w, (w, w).
Definition modify (f : World → World) : M unit := λ w, (tt, f w).

Definition emit (e : Event) : M unit :=
  modify (λ w, mkWorld (lobbies w) (conns w) (socks w) (trace w ++ [e])).

Definition logger (e : LogEntry) : M unit := emit (EvLog e).

(** ** Primitive state accesses *)

Definition setLobbies (f : gmap N LobbyState → gmap N LobbyState) : M unit :=
  modify (λ w, mkWorld (f (lobbies w)) (conns w) (socks w) (trace w)).

Definition setConns (f : gmap nat LobbyConnection → gmap nat LobbyConnection) : M unit :=
  modify (λ w, mkWorld (lobbies w) (f (conns w)) (socks w) (trace w)).

Definition setSocks (f : gmap nat Transport → gmap nat Transport) : M unit :=
  modify (λ w, mkWorld (lobbies w) (conns w) (f (socks w)) (trace w)).

(** [ls.Connections[u] = conn] *)
Definition writeConnection (l u : UUID) (c : nat) : M unit :=
  setLobbies (alter (λ ls, mkLobby (LobbyID ls) (<[u := c]> (Connections ls))
                                   (ReadyStates ls) (AutoStart ls) (Countdown ls)) l) ;;
  emit (EvSetConnection l u c).

(** [ls.ReadyStates[u] = b] *)
Definition writeReady (l u : UUID) (b : bool) : M unit :=
  setLobbies (alter (λ ls, mkLobby (LobbyID ls) (Connections ls)
                                   (<[u := b]> (ReadyStates ls)) (AutoStart ls) (Countdown ls)) l) ;;
  emit (EvSetReady l u b).

(** [delete(ls.Connections, u)] *)
Definition deleteConnection (l u : UUID) : M unit :=
  setLobbies (alter (λ ls, mkLobby (LobbyID ls) (delete u (Connections ls))
                                   (ReadyStates ls) (AutoStart ls) (Countdown ls)) l) ;;
  emit (EvDelConnection l u).

(** [delete(ls.ReadyStates, u)] *)
Definition deleteReady (l u : UUID) : M unit :=
  setLobbies (alter (λ ls, mkLobby (LobbyID ls) (Connections ls)
                                   (delete u (ReadyStates ls)) (AutoStart ls) (Countdown ls)) l) ;;
  emit (EvDelReady l u).

(** Assignment of the countdown handle. *)
Definition writeCountdown (l : UUID) (cd : option nat) : M unit :=
  setLobbies (alter (λ ls, mkLobby (LobbyID ls) (Connections ls)
                                   (ReadyStates ls) (AutoStart ls) cd) l) ;;
  emit (EvSetCountdown l cd).

(** [conn.Cancel()]: cancels the connection's context; idempotent. *)
Definition Cancel (c : nat) : M unit :=
  setConns (alter (λ k, mkConn (UserID k) true (OutChan k)) c) ;;
  emit (EvCancel c).

(** [c.Close(status, reason)]: the first close wins. *)
Definition Close (s : nat) (st : StatusCode) (reason : string) : M unit :=
  setSocks (alter (λ t, mkTransport (Subprotocol t)
                          (match closed t with Some x => Some x | None => Some (st, reason) end)
                          (written t)) s) ;;
  emit (EvClose s st reason).

(** [http.Error(w, body, code)] *)
Definition http_Error (body : string) (code : nat) : M unit :=
  emit (EvHTTPError code body).

(** Non-blocking send [select { case conn.OutChan <- m: default: }]. *)
Definition trySend (m : OutMsg) (c : nat) : M unit :=
  w ← get ;
  match conns w !! c with
  | Some k =>
      if Nat.ltb (List.length (OutChan k)) OutChanCap
      then setConns (<[c := mkConn (UserID k) (ctxDone k) (OutChan k ++ [m])]>) ;;
           emit (EvEnqueue c m)
      else emit (EvDrop c m)
  | None => mret tt
  end.

Fixpoint forM_ {A} (f : A → M unit) (xs : list A) : M unit :=
  match xs with
  | [] => mret tt
  | x :: xs' => f x ;; forM_ f xs'
  end.

(** ** Go string helpers used by the accept path *)

(** [strings.TrimPrefix] *)
Definition strings_TrimPrefix (s pre : string) : string :=
  if String.prefix pre s
  then String.substring (String.length pre) (String.length s - String.length pre) s
  else s.

(** [strings.Split] for a non-empty separator: [skip] counts the characters
    of a separator occurrence still to be stepped over, [cur] is the piece
    being collected. *)
Fixpoint splitFrom (sep : string) (skip : nat) (cur : string) (s : string) : list string :=
  match s with
  | EmptyString => [cur]
  | String a s' =>
      match skip with
      | S k => splitFrom sep k cur s'
      | O =>
          if String.prefix sep s
          then cur :: splitFrom sep (String.length sep - 1) EmptyString s'
          else splitFrom sep 0 (cur +:+ String a EmptyString) s'
      end
  end.

Definition strings_Split (s sep : string) : list string := splitFrom sep 0 EmptyString s.

(** Type assertion [v, _ := x.(string)] on a map lookup: the zero value
    when the key is absent or the value is not a string. *)
Definition assertString (v : option JSON) : string :=
  match v with
  | Some (JString s) => s
  | _ => EmptyString
  end.

(** ** External collaborators *)

(** An upgrade request: the parts of [*http.Request] the handler reads. *)
Record Request : Type := mkRequest {
  URLPath : string;
  HeaderCookie : string
}.

(** Services outside the handlers: the JSON codec, the UUID parser, the
    token verifier, the database and the WebSocket upgrade.  A Go result
    [(v, err)] is an [option]; [IsUserInLobby] returns its boolean together
    with "err != nil"; [RemoveUserFromLobby] returns "err != nil";
    [websocket_Accept] yields the negotiated subprotocol.
    [extractCookieToken] is a helper of the handlers package that is not
    among the sources at hand, and [NewLobbyAutoStart] is the autoStart flag
    the absent lobby package gives a Lobby State it creates. *)
Record Externals : Type := mkExternals {
  json_Unmarshal : string → option (gmap string JSON);
  json_Marshal : OutMsg → option string;
  uuid_Parse : string → option N;
  AuthenticateJWT : string → option string;
  extractCookieToken : string → string → string;
  IsUserInLobby : N → N → bool * bool;
  RemoveUserFromLobby : N → N → bool;
  websocket_Accept : Request → option string;
  NewLobbyAutoStart : N → bool
}.

(** ** The lobby package *)

(** Critical section of a Lobby State's exclusive lock. *)
Definition withLock {A} (l : UUID) (body : M A) : M A :=
  emit (EvLock l) ;; a ← body ; emit (EvUnlock l) ;; mret a.

Definition lookupLobby (l : UUID) : M (option LobbyState) :=
  w ← get ; mret (lobbies w !! l).

(** The connections a broadcast goes to: every current participant, except
    [skip] when given. *)
Definition recipientsOf (skip : option N) (ls : LobbyState) : list nat :=
  snd <$> filter (λ p : N * nat, skip ≠ Some (fst p)) (map_to_list (Connections ls)).

(** Modelled from the spec: the fan-out shared by the broadcast primitives,
    "attempt a non-blocking enqueue onto every current participant's
    outbound queue; a full queue causes that one recipient's message to be
    dropped". *)
Definition broadcast (l : UUID) (skip : option N) (m : OutMsg) : M unit :=
  ols ← lookupLobby l ;
  match ols with
  | Some ls => forM_ (trySend m) (recipientsOf skip ls)
  | None => mret tt
  end.

(** Modelled from the spec: [BroadcastJoin] of the absent lobby package,
    "broadcasts a user joined event to all other current participants (not
    to the joining user)". *)
Definition BroadcastJoin (l u : UUID) : M unit :=
  emit (EvCall l (CallBroadcastJoin u)) ;;
  withLock l (broadcast l (Some u) (MsgUserJoined u)).

(** Modelled from the spec: [BroadcastLeave] of the absent lobby package,
    a "user left" event enqueued for every current participant. *)
Definition BroadcastLeave (l u : UUID) : M unit :=
  emit (EvCall l (CallBroadcastLeave u)) ;;
  withLock l (broadcast l None (MsgUserLeft u)).

(** Modelled from the spec: [BroadcastReadyState] of the absent lobby
    package, "broadcasts ready state changed to all participants including
    the sender". *)
Definition BroadcastReadyState (l u : UUID) (ready : bool) : M unit :=
  emit (EvCall l (CallBroadcastReadyState u ready)) ;;
  withLock l (broadcast l None (MsgReadyState u ready)).

(** Modelled from the spec: [BroadcastChat] of the absent lobby package,
    "all other connected participants' outbound queues receive a chat event
    attributed to the sender; the sender's own queue does not receive an
    echo". *)
Definition BroadcastChat (l u : UUID) (msg : string) : M unit :=
  emit (EvCall l (CallBroadcastChat u msg)) ;;
  withLock l (broadcast l (Some u) (MsgChat u msg)).

(** Readiness of every connected participant of a Lobby State: a missing
    ready flag reads as false (the zero value of a Go map lookup). *)
Definition allReady (ls : LobbyState) : bool :=
  forallb (λ p : N * nat, bool_decide (ReadyStates ls !! fst p = Some true))
          (map_to_list (Connections ls)).

(** Modelled from the spec: [AreAllReady] of the absent lobby package,
    "true iff every user identifier currently present in the connection
    mapping has a ready flag of true; an empty lobby's are_all_ready returns
    true". *)
Definition AreAllReady (l : UUID) : M bool :=
  emit (EvCall l CallAreAllReady) ;;
  withLock l (ols ← lookupLobby l ;
              mret (match ols with Some ls => allReady ls | None => true end)).

(** Modelled from the spec: [StartCountdown] of the absent lobby package,
    "no-op if one already running; otherwise creates a new Countdown bound
    to this Lobby State with the given delay".  The expiry of the timer is
    not part of this model. *)
Definition StartCountdown (l : UUID) (seconds : nat) : M unit :=
  emit (EvCall l (CallStartCountdown seconds)) ;;
  withLock l (ols ← lookupLobby l ;
              match ols with
              | Some ls =>
                  match Countdown ls with
                  | Some _ => mret tt
                  | None => writeCountdown l (Some seconds)
                  end
              | None => mret tt
              end).

(** Modelled from the spec: [CancelCountdown] of the absent lobby package,
    "transitions any running countdown to cancelled; safe to call when none
    is running"; cancelling a running countdown "broadcasts its
    cancellation". *)
Definition CancelCountdown (l : UUID) : M unit :=
  emit (EvCall l CallCancelCountdown) ;;
  withLock l (ols ← lookupLobby l ;
              match ols with
              | Some ls =>
                  match Countdown ls with
                  | Some _ => writeCountdown l None ;;
                              broadcast l None MsgCountdownCancelled
                  | None => mret tt
                  end
              | None => mret tt
              end).

(** Modelled from the spec: [RemoveUser] of the absent lobby package,
    "removes from both maps, cancels that user's connection handle
    (idempotent), broadcasts user left to remaining participants". *)
Definition RemoveUser (l u : UUID) : M unit :=
  emit (EvCall l (CallRemoveUser u)) ;;
  withLock l (ols ← lookupLobby l ;
              match ols with
              | Some ls =>
                  deleteConnection l u ;;
                  deleteReady l u ;;
                  match Connections ls !! u with
                  | Some c => Cancel c
                  | None => mret tt
                  end ;;
                  broadcast l None (MsgUserLeft u)
              | None => mret tt
              end).

(** Modelled from the spec: [GetOrCreateLobbyState] of the absent lobby
    package, "returns the existing Lobby State for an identifier or
    atomically creates and registers a new one".  The returned pointer is
    the registry key. *)
Definition GetOrCreateLobbyState (autoStart : N → bool) (l : UUID) : M N :=
  emit (EvCall l CallGetOrCreateLobbyState) ;;
  ols ← lookupLobby l ;
  match ols with
  | Some _ => mret l
  | None => setLobbies (<[l := mkLobby l ∅ ∅ (autoStart l) None]>) ;; mret l
  end.

(** ** The handlers of [lobby_ws.go] *)

(** [conn.UserID] through the pointer [c]. *)
Definition connUserID (c : nat) : M N :=
  w ← get ; mret (default 0%N (UserID <$> conns w !! c)).

(** Whether reads and writes on transport [s] under the context of
    connection [c] fail on their own: the context is done or the transport
    is closed. *)
Definition connDead (s c : nat) (w : World) : bool :=
  default false (ctxDone <$> conns w !! c) || bool_decide (is_Some (socks w !! s ≫= closed)).

(** [c.Read(ctx)]: fails once the context is done or the transport is
    closed; otherwise delivers what the peer sent, if anything ([None]: the
    call is still blocked). *)
Definition c_Read (s c : nat) (r : option ReadResult) : M (option ReadResult) :=
  w ← get ;
  if connDead s c w
  then mret (Some ReadErr)
  else mret r.

(** [c.Write(ctx, websocket.MessageText, data)]: [ok] is whether the network
    accepts the frame; the write fails anyway once the context is done or
    the transport is closed.  Returns "err == nil". *)
Definition c_Write (s c : nat) (data : string) (ok : bool) : M bool :=
  w ← get ;
  if connDead s c w || negb ok
  then mret false
  else setSocks (alter (λ t, mkTransport (Subprotocol t) (closed t) (written t ++ [data])) s) ;;
       emit (EvSockWrite s data) ;;
       mret true.

(** One iteration of the [select] of [writePump]: which case the runtime
    takes when both are ready, and whether the network accepts a write. *)
Record WriteStep : Type := mkWriteStep {
  pickDone : bool;
  netOK : bool
}.

Section Handlers.

Variable X : Externals.

(** [handleLobbyMessage] *)
Definition handleLobbyMessage (packet : gmap string JSON) (ls : UUID) (conn : nat) : M unit :=
  uid ← connUserID conn ;
  let action := assertString (packet !! "type") in
  if String.eqb action "ready" then
    writeReady ls uid true ;;
    BroadcastReadyState ls uid true ;;
    ols ← lookupLobby ls ;
    if default false (AutoStart <$> ols) then
      all ← AreAllReady ls ;
      if all : bool then StartCountdown ls 10 else mret tt
    else mret tt
  else if String.eqb action "unready" then
    writeReady ls uid false ;;
    BroadcastReadyState ls uid false ;;
    CancelCountdown ls
  else if String.eqb action "leave_lobby" then
    emit (EvRemoveUserFromLobby uid ls) ;;
    (if RemoveUserFromLobby X uid ls then logger (LogRemoveFailed uid) else mret tt) ;;
    BroadcastLeave ls uid ;;
    Cancel conn
  else if String.eqb action "chat" then
    let msg := assertString (packet !! "msg") in
    BroadcastChat ls uid msg
  else
    logger (LogUnknownAction action uid).

(** The loop of [readPump]; the result tells whether the loop returned
    ([false]: the task is still blocked in [c.Read]). *)
Fixpoint readLoop (reads : list ReadResult) (c : nat) (ls : UUID) (conn : nat) : M bool :=
  match reads with
  | [] =>
      r ← c_Read c conn None ;
      match r with
      | Some _ => uid ← connUserID conn ; logger (LogReadErr uid) ;; mret true
      | None => mret false
      end
  | x :: rest =>
      r ← c_Read c conn (Some x) ;
      match r with
      | Some (ReadMsg MessageText msg) =>
          match json_Unmarshal X msg with
          | Some packet => handleLobbyMessage packet ls conn ;; readLoop rest c ls conn
          | None =>
              uid ← connUserID conn ;
              logger (LogInvalidJSON uid) ;;
              readLoop rest c ls conn
          end
      | Some (ReadMsg MessageBinary _) => readLoop rest c ls conn
      | _ => uid ← connUserID conn ; logger (LogReadErr uid) ;; mret true
      end
  end.

(** The deferred function of [readPump]. *)
Definition readPump_deferred (c : nat) (ls : UUID) (conn : nat) : M unit :=
  uid ← connUserID conn ;
  RemoveUser ls uid ;;
  Cancel conn ;;
  Close c StatusNormalClosure "closing".

(** [readPump]: the deferred function runs when the loop returns. *)
Definition readPump (reads : list ReadResult) (c : nat) (ls : UUID) (conn : nat) : M bool :=
  exited ← readLoop reads c ls conn ;
  if exited : bool then readPump_deferred c ls conn ;; mret true else mret false.

(** [writePump]; the result tells whether the task returned. *)
Fixpoint writePump (sched : list WriteStep) (c : nat) (conn : nat) : M bool :=
  match sched return M bool with
  | [] => mret false
  | st :: rest =>
      w ← get ;
      match conns w !! conn with
      | None => mret false
      | Some k =>
          match OutChan k with
          | [] => mret (ctxDone k)
          | msg :: q =>
              if ctxDone k && pickDone st then mret true
              else
                setConns (<[conn := mkConn (UserID k) (ctxDone k) q]>) ;;
                match json_Marshal X msg with
                | None => logger LogMarshalFailed ;; writePump rest c conn
                | Some data =>
                    ok ← c_Write c conn data (netOK st) ;
                    if ok : bool then writePump rest c conn
                    else logger LogWriteFailed ;; mret true
                end
          end
      end
  end.

(** [websocket.Accept]: on success a new transport with the negotiated
    subprotocol. *)
Definition Accept (r : Request) : M (option nat) :=
  match websocket_Accept X r with
  | None => mret None
  | Some sp =>
      w ← get ;
      let s := fresh (dom (socks w)) in
      setSocks (<[s := mkTransport sp None []]>) ;;
      emit (EvAccept s) ;;
      mret (Some s)
  end.

(** [&lobby.LobbyConnection{UserID: userID, Cancel: cancel,
    OutChan: make(chan map[string]interface{}, 10)}] *)
Definition newLobbyConnection (userID : UUID) : M nat :=
  w ← get ;
  let c := fresh (dom (conns w)) in
  setConns (<[c := mkConn userID false []]>) ;;
  mret c.

(** Lines 90-106 of [LobbyWSHandler]: registration of an authorised user. *)
Definition registerConnection (c : nat) (lobbyUUID userID : UUID) : M (N * nat) :=
  ls ← GetOrCreateLobbyState (NewLobbyAutoStart X) lobbyUUID ;
  conn ← newLobbyConnection userID ;
  writeConnection ls userID conn ;;
  writeReady ls userID false ;;
  logger (LogConnected userID lobbyUUID) ;;
  emit (EvGoWritePump c conn) ;;
  BroadcastJoin ls userID ;;
  mret (ls, conn).

(** [LobbyWSHandler]; [reads] is what the peer sends on the connection. *)
Definition LobbyWSHandler (r : Request) (reads : list ReadResult) : M unit :=
  let pathParts := strings_Split (strings_TrimPrefix (URLPath r) "/lobby/ws/") "/" in
  if Nat.ltb (List.length pathParts) 1 then http_Error "missing lobby_id" 400
  else
    let lobbyIDStr := nth 0 pathParts EmptyString in
    match uuid_Parse X lobbyIDStr with
    | None => http_Error "invalid lobby_id" 400
    | Some lobbyUUID =>
        oc ← Accept r ;
        match oc with
        | None => logger LogAcceptError
        | Some c =>
            w ← get ;
            if negb (String.eqb (default EmptyString (Subprotocol <$> socks w !! c)) "lobby")
            then Close c StatusPolicyViolation "client must speak the lobby subprotocol"
            else
              let token := extractCookieToken X (HeaderCookie r) "auth_token" in
              match AuthenticateJWT X token with
              | None =>
                  logger LogInvalidToken ;;
                  Close c StatusPolicyViolation "invalid auth_token"
              | Some userIDStr =>
                  match uuid_Parse X userIDStr with
                  | None =>
                      logger LogInvalidUserID ;;
                      Close c StatusPolicyViolation "invalid user ID"
                  | Some userID =>
                      emit (EvIsUserInLobby lobbyUUID userID) ;;
                      let '(inLobby, dbErr) := IsUserInLobby X lobbyUUID userID in
                      if dbErr : bool then
                        logger LogDBError ;;
                        Close c StatusInternalError "db error"
                      else if negb inLobby then
                        logger LogNotInLobby ;;
                        Close c StatusPolicyViolation "user not in that lobby"
                      else
                        '(ls, conn) ← registerConnection c lobbyUUID userID ;
                        _ ← readPump reads c ls conn ;
                        mret tt
                  end
              end
        end
    end.

End Handlers.

(** ** Auxiliary notions used by the statements *)

(** What [forM_ (trySend m) cs] does to a world. *)
Record sentTo (m : OutMsg) (cs : list nat) (w w' : World) : Prop := mkSentTo {
  sent_lobbies : lobbies w' = lobbies w;
  sent_socks : socks w' = socks w;
  sent_absent : ∀ c, conns w !! c = None → conns w' !! c = None;
  sent_queue : ∀ c k, conns w !! c = Some k →
    ∃ q, conns w' !! c = Some (mkConn (UserID k) (ctxDone k) (OutChan k ++ q))
         ∧ (∀ x, x ∈ q → x = m)
         ∧ (c ∉ cs → q = [])
         ∧ (c ∈ cs → List.length (OutChan k) < OutChanCap → m ∈ q);
  sent_trace : ∃ d, trace w' = trace w ++ d
         ∧ (∀ e, e ∈ d → ∃ c, c ∈ cs ∧ (e = EvEnqueue c m ∨ e = EvDrop c m))
         ∧ (∀ c, c ∈ cs → is_Some (conns w !! c) → EvEnqueue c m ∈ d ∨ EvDrop c m ∈ d)
}.

(** [ext P w w']: every lobby, connection and transport of [w] is still
    there in [w'] (with its immutable fields), and the events added to the
    trace all satisfy [P]. *)
Record ext (P : Event → Prop) (w w' : World) : Prop := mkExt {
  ext_lobby : ∀ l ls, lobbies w !! l = Some ls →
    ∃ ls', lobbies w' !! l = Some ls' ∧ AutoStart ls' = AutoStart ls;
  ext_conn : ∀ c k, conns w !! c = Some k →
    ∃ k', conns w' !! c = Some k' ∧ UserID k' = UserID k;
  ext_sock : ∀ s t, socks w !! s = Some t →
    ∃ t', socks w' !! s = Some t' ∧ Subprotocol t' = Subprotocol t;
  ext_trace : ∃ d, trace w' = trace w ++ d ∧ Forall P d
}.

Definition keeps (P : Event → Prop) {A} (m : M A) : Prop :=
  ∀ w, ext P w (exec m w).

(** The handlers' own unregistration call: [ls.RemoveUser(...)]. *)
Definition isUnregister (e : Event) : bool :=
  match e with
  | EvCall _ (CallRemoveUser _) => true
  | _ => false
  end.

(** What a broadcast primitive ([emit] of its call, then the fan-out
    under the lock) does to a world. *)
Record announced (l : UUID) (call : LobbyCall) (m : OutMsg) (cs : list nat)
    (w w' : World) : Prop := mkAnnounced {
  ann_lobbies : lobbies w' = lobbies w;
  ann_socks : socks w' = socks w;
  ann_absent : ∀ c, conns w !! c = None → conns w' !! c = None;
  ann_queue : ∀ c k, conns w !! c = Some k →
    ∃ q, conns w' !! c = Some (mkConn (UserID k) (ctxDone k) (OutChan k ++ q))
         ∧ (∀ x, x ∈ q → x = m)
         ∧ (c ∉ cs → q = [])
         ∧ (c ∈ cs → List.length (OutChan k) < OutChanCap → m ∈ q);
  ann_trace : ∃ d, trace w' = trace w ++ [EvCall l call; EvLock l] ++ d ++ [EvUnlock l]
         ∧ (∀ e, e ∈ d → ∃ c, c ∈ cs ∧ (e = EvEnqueue c m ∨ e = EvDrop c m))
         ∧ (∀ c, c ∈ cs → is_Some (conns w !! c) → EvEnqueue c m ∈ d ∨ EvDrop c m ∈ d)
}.

(** A world with one more log line. *)
Definition logged (e : LogEntry) (w : World) : World :=
  mkWorld (lobbies w) (conns w) (socks w) (trace w ++ [EvLog e]).

(** The lobby identifier string the accept path takes from the URL. *)
Definition lobbyIDStr (r : Request) : string :=
  nth 0 (strings_Split (strings_TrimPrefix (URLPath r) "/lobby/ws/") "/") EmptyString.

(** The world after an upgrade that is refused with a close frame: a new
    transport, closed with [st], and nothing else touched. *)
Definition refused (w : World) (st : StatusCode) (reason : string) (evs : list Event) : World :=
  let s := fresh (dom (socks w)) in
  mkWorld (lobbies w) (conns w)
          (<[s := mkTransport "lobby" (Some (st, reason)) []]> (socks w))
          (trace w ++ [EvAccept s] ++ evs ++ [EvClose s st reason]).

(** The Lobby State the accept path finds or creates. *)
Definition lobbyAtAccept (X : Externals) (l : UUID) (w : World) : LobbyState :=
  default (mkLobby l ∅ ∅ (NewLobbyAutoStart X l) None) (lobbies w !! l).

(** The world in which [registerConnection] calls [BroadcastJoin]. *)
Definition beforeJoin (X : Externals) (s : nat) (l u : UUID) (w : World) : World :=
  let ls0 := lobbyAtAccept X l w in
  let conn := fresh (dom (conns w)) in
  mkWorld (<[l := mkLobby (LobbyID ls0) (<[u := conn]> (Connections ls0))
                          (<[u := false]> (ReadyStates ls0)) (AutoStart ls0) (Countdown ls0)]>
             (lobbies w))
          (<[conn := mkConn u false []]> (conns w))
          (socks w)
          (trace w ++ [EvCall l CallGetOrCreateLobbyState; EvSetConnection l u conn;
                       EvSetReady l u false; EvLog (LogConnected u l); EvGoWritePump s conn]).

(** Two worlds that differ at most in their traces. *)
Definition sameState (w1 w2 : World) : Prop :=
  lobbies w1 = lobbies w2 ∧ conns w1 = conns w2 ∧ socks w1 = socks w2.

(** The world after [writePump] received the head of [conn.OutChan]. *)
Definition dequeued (conn : nat) (k : LobbyConnection) (q : list OutMsg) (w : World) : World :=
  mkWorld (lobbies w) (<[conn := mkConn (UserID k) (ctxDone k) q]> (conns w)) (socks w) (trace w).

(** The world after a successful [c.Write] of [data]. *)
Definition wrote (c : nat) (data : string) (w : World) : World :=
  mkWorld (lobbies w) (conns w)
          (alter (λ t, mkTransport (Subprotocol t) (closed t) (written t ++ [data])) c (socks w))
          (trace w ++ [EvSockWrite c data]).

(** Releasing a lock: the first occurrence of [l] leaves the held list. *)
Fixpoint release (l : UUID) (held : list N) : list N :=
  match held with
  | [] => []
  | h :: held' => if N.eqb l h then held' else h :: release l held'
  end.

(** The lobby whose maps or countdown handle an event writes, if any. *)
Definition writesLobby (e : Event) : option N :=
  match e with
  | EvSetConnection l _ _ | EvDelConnection l _
  | EvSetReady l _ _ | EvDelReady l _
  | EvSetCountdown l _ => Some l
  | _ => None
  end.

(** Lock discipline of a trace: every write to a Lobby State's connection
    map, ready-flag map or countdown handle happens while that lobby's lock
    is held.  [held] are the locks held before the first event. *)
Fixpoint writesUnderLock (held : list N) (tr : list Event) : bool :=
  match tr with
  | [] => true
  | EvLock l :: tr' => writesUnderLock (l :: held) tr'
  | EvUnlock l :: tr' => writesUnderLock (release l held) tr'
  | e :: tr' =>
      match writesLobby e with
      | Some l => existsb (N.eqb l) held && writesUnderLock held tr'
      | None => writesUnderLock held tr'
      end
  end.

(** ** A concrete lobby *)

(** A stand-in decoder: the payloads it knows, written without quotes. *)
Definition demoUnmarshal (s : string) : option (gmap string JSON) :=
  if String.eqb s "{type:ready}" then Some {[ "type" := JString "ready" ]}
  else if String.eqb s "{type:unready}" then Some {[ "type" := JString "unready" ]}
  else if String.eqb s "{type:leave_lobby}" then Some {[ "type" := JString "leave_lobby" ]}
  else if String.eqb s "{type:chat,msg:7}" then
    Some (<[ "msg" := JNumber "7" ]> {[ "type" := JString "chat" ]})
  else if String.eqb s "{type:dance}" then Some {[ "type" := JString "dance" ]}
  else None.

(** Users [alice] (1) and [bob] (2) are members of lobby 7; [carol] (3) is
    not; the membership query for lobby 9 fails. *)
Definition demoX : Externals := {|
  json_Unmarshal := demoUnmarshal;
  json_Marshal := λ m, match m with MsgChat _ _ => None | _ => Some "event" end;
  uuid_Parse := λ s,
    if String.eqb s "lobby7" then Some 7%N
    else if String.eqb s "lobby9" then Some 9%N
    else if String.eqb s "alice" then Some 1%N
    else if String.eqb s "bob" then Some 2%N
    else if String.eqb s "carol" then Some 3%N
    else None;
  AuthenticateJWT := λ t,
    if String.eqb t "token-alice" then Some "alice"
    else if String.eqb t "token-bob" then Some "bob"
    else if String.eqb t "token-carol" then Some "carol"
    else if String.eqb t "token-odd" then Some "not-a-uuid"
    else None;
  extractCookieToken := λ cookie key, strings_TrimPrefix cookie (key +:+ "=");
  IsUserInLobby := λ l u,
    (N.eqb l 7 && (N.eqb u 1 || N.eqb u 2), N.eqb l 9);
  RemoveUserFromLobby := λ u l, N.eqb u 2;
  websocket_Accept := λ r, Some "lobby";
  NewLobbyAutoStart := λ l, true
|}.

Definition demoLobby : LobbyState :=
  mkLobby 7 {[ 1%N := 0; 2%N := 1 ]} {[ 1%N := false; 2%N := true ]} true None.

Definition alice : LobbyConnection := mkConn 1 false [].
Definition bob : LobbyConnection := mkConn 2 false [MsgUserJoined 1].

(** Lobby 7 with alice (connection 0, not ready) and bob (connection 1,
    ready), autoStart on, no countdown. *)
Definition demoWorld : World :=
  mkWorld {[ 7%N := demoLobby ]}
          {[ 0 := alice; 1 := bob ]}
          {[ 0 := mkTransport "lobby" None []; 1 := mkTransport "lobby" None [] ]}
          [].

Definition demoRequest (who : string) : Request :=
  mkRequest "/lobby/ws/lobby7" ("auth_token=" +:+ who).

Definition demoLobbyCounting : LobbyState :=
  mkLobby 7 {[ 1%N := 0; 2%N := 1 ]} {[ 1%N := true; 2%N := true ]} true (Some 10).

(** Lobby 7 with both users ready and a countdown running. *)
Definition demoCounting : World :=
  mkWorld {[ 7%N := demoLobbyCounting ]} (conns demoWorld) (socks demoWorld) [].

(** Lobby 7 after bob's context was cancelled, one event still queued. *)
Definition demoCancelled : World :=
  mkWorld (lobbies demoWorld)
          {[ 0 := alice; 1 := mkConn 2 true [MsgUserJoined 1] ]}
          (socks demoWorld) [].

(** ** Cookie parsing of [lobby.go] *)

(** [strings.Index]: the offset of the first occurrence of [sep] in [s],
    or -1. *)
Fixpoint strings_Index (s sep : string) : Z :=
  if String.prefix sep s then 0%Z
  else match s with
       | EmptyString => (-1)%Z
       | String _ s' =>
           let i := strings_Index s' sep in
           if Z.eqb i (-1) then (-1)%Z else (i + 1)%Z
       end.

(** [strings.Contains] *)
Definition strings_Contains (s sep : string) : bool :=
  negb (Z.eqb (strings_Index s sep) (-1)).

(** [extractTokenFromCookie] *)
Definition extractTokenFromCookie (cookie : string) : string :=
  let parts := strings_Split cookie "auth_token=" in
  if Nat.ltb (List.length parts) 2 then EmptyString
  else
    let token := nth 1 parts EmptyString in
    let idx := strings_Index token ";" in
    if negb (Z.eqb idx (-1)) then String.substring 0 (Z.to_nat idx) token
    else token.

(** ** The HTTP handlers of [lobby.go] *)

(** The house rules of a lobby.  The struct is declared in a package that
    is not at hand; each field is kept as the value it has once boxed into
    [interface{}], which is all [ListLobbiesHandler] does with it. *)
Record HouseRules : Type := mkHouseRules {
  DisconnectionRoundLimit : JSON;
  FreezeOnDisconnect : JSON;
  ForfeitOnDisconnect : JSON;
  MissedRoundThreshold : JSON;
  PenaltyCardCount : JSON;
  AllowDiscardAbilities : JSON;
  RulesAutoStart : JSON;
  TurnTimeoutSec : JSON
}.

(** A lobby as the handlers read it: the fields they access. *)
Record Lobby : Type := mkLobbyRow {
  ID : UUID;
  HostUserID : UUID;
  Type_ : string;
  GameMode : string;
  CircuitMode : bool;
  Ranked : bool;
  RankingMode : string;
  Rules : HouseRules
}.

(** [lobbyResp] of [ListLobbiesHandler] *)
Record lobbyResp : Type := mkLobbyResp {
  resp_id : string;
  resp_host_user_id : string;
  resp_type : string;
  resp_circuit_mode : bool;
  resp_ranked : bool;
  resp_ranking_mode : string;
  resp_house_rules : gmap string JSON
}.

(** What the handlers read of a request. *)
Record APIRequest : Type := mkAPIRequest {
  Cookie : string;
  Body : string;
  QueryLobbyID : string
}.

(** What a handler does, in program order: what it writes to the response
    and what it asks of the database and of the game server. *)
Inductive APIEffect : Type :=
| HttpError (body : string) (code : nat)
| SetContentTypeJSON
| WriteHeader (code : nat)
| WriteBody (body : string)
| EncodeLobby (l : Lobby)
| EncodeStarted (game_id lobby_id : string) (num_users : nat)
| EncodeList (resp : option (list lobbyResp))
| LogError
| DBIsUserInLobby (l u : UUID)
| DBInsertParticipant (l u : UUID) (seat : Z)
| DBGetLobby (l : UUID)
| DBDeleteLobby (l : UUID)
| DBGetAllLobbies
| NewCambiaGameFromLobby (l : Lobby).

(** The collaborators of the HTTP handlers beyond those of [Externals]:
    the decoders of the request bodies ([None]: the decoder fails), the
    database (an error is its message) and the game server (the id of the
    new game and the number of its players). *)
Record Backend : Type := mkBackend {
  NewLobbyWithDefaults : N → Lobby;
  decodeLobby : Lobby → string → option Lobby;
  decodeJoin : string → option (string * Z);
  decodeLobbyID : string → option string;
  InsertParticipant : N → N → Z → bool;
  GetLobby : N → Lobby + string;
  DeleteLobby : N → option string;
  GetAllLobbies : list Lobby + string;
  newGame : Lobby → N * nat;
  uuid_String : N → string
}.

(** [validGameTypes] *)
Definition validGameTypes : gmap string bool :=
  {[ "private" := true; "public" := true; "matchmaking" := true ]}.

(** [validGameModes] *)
Definition validGameModes : gmap string bool :=
  {[ "head_to_head" := true; "group_of_4" := true; "circuit_4p" := true;
     "circuit_7p8p" := true; "custom" := true ]}.

(** A Go map lookup [m[k]] on a [map[string]bool]. *)
Definition mapBool (m : gmap string bool) (k : string) : bool := default false (m !! k).

Section LobbyAPI.

Variable X : Externals.
Variable B : Backend.

(** [CreateLobbyHandler] *)
Definition CreateLobbyHandler (r : APIRequest) : list APIEffect :=
  let cookie := Cookie r in
  if negb (strings_Contains cookie "auth_token=") then [HttpError "missing auth_token" 401]
  else
    let token := extractCookieToken X cookie "auth_token" in
    match AuthenticateJWT X token with
    | None => [HttpError "invalid token" 403]
    | Some userIDStr =>
        match uuid_Parse X userIDStr with
        | None => [HttpError "invalid user id format in token" 400]
        | Some userID =>
            match decodeLobby B (NewLobbyWithDefaults B userID) (Body r) with
            | None => [HttpError "bad lobby request payload" 400]
            | Some lobby =>
                if negb (String.eqb (Type_ lobby) "") && negb (mapBool validGameTypes (Type_ lobby))
                then [HttpError "invalid lobby type" 400]
                else if negb (String.eqb (GameMode lobby) "")
                        && negb (mapBool validGameModes (GameMode lobby))
                then [HttpError "invalid game mode" 400]
                else [SetContentTypeJSON; EncodeLobby lobby]
            end
        end
    end.

(** [JoinLobbyHandler]; [rnd] is the next value of the random source, from
    which [rand.Intn(1000)] is taken. *)
Definition JoinLobbyHandler (rnd : nat) (r : APIRequest) : list APIEffect :=
  let cookie := Cookie r in
  if negb (strings_Contains cookie "auth_token=") then [HttpError "missing auth_token" 401]
  else
    let token := extractTokenFromCookie cookie in
    match AuthenticateJWT X token with
    | None => [HttpError "invalid token" 403]
    | Some userIDStr =>
        match uuid_Parse X userIDStr with
        | None => [HttpError "invalid user ID in token" 400]
        | Some userID =>
            match decodeJoin B (Body r) with
            | None => [HttpError "invalid join request payload" 400]
            | Some (reqLobbyID, reqSeatNumber) =>
                match uuid_Parse X reqLobbyID with
                | None => [HttpError "invalid lobby_id" 400]
                | Some lobbyUUID =>
                    DBIsUserInLobby lobbyUUID userID ::
                    let '(inLobby, err) := IsUserInLobby X lobbyUUID userID in
                    if err : bool then
                      [LogError; HttpError "database error checking membership" 500]
                    else if inLobby : bool then [HttpError "already in that lobby" 409]
                    else
                      let seat := if Z.ltb reqSeatNumber 1
                                  then (Z.of_nat (rnd mod 1000) + 1)%Z
                                  else reqSeatNumber in
                      DBInsertParticipant lobbyUUID userID seat ::
                      if InsertParticipant B lobbyUUID userID seat
                      then [HttpError "failed to insert participant" 500]
                      else [WriteHeader 200; WriteBody "Joined lobby successfully"]
                end
            end
        end
    end.

(** The handler returned by [StartLobbyGameHandler] *)
Definition StartLobbyGameHandler (r : APIRequest) : list APIEffect :=
  let cookie := Cookie r in
  if negb (strings_Contains cookie "auth_token=") then [HttpError "missing auth_token" 401]
  else
    let token := extractTokenFromCookie cookie in
    match AuthenticateJWT X token with
    | None => [HttpError "invalid token" 403]
    | Some userIDStr =>
        match uuid_Parse X userIDStr with
        | None => [HttpError "invalid user ID in token" 400]
        | Some userID =>
            match decodeLobbyID B (Body r) with
            | None => [HttpError "invalid start request" 400]
            | Some reqLobbyID =>
                match uuid_Parse X reqLobbyID with
                | None => [HttpError "invalid lobby_id" 400]
                | Some lobbyUUID =>
                    DBGetLobby lobbyUUID ::
                    match GetLobby B lobbyUUID with
                    | inr _ => [HttpError "lobby not found" 404]
                    | inl lobby =>
                        if negb (N.eqb (HostUserID lobby) userID)
                        then [HttpError "only lobby host can start the game" 403]
                        else
                          let g := newGame B lobby in
                          [NewCambiaGameFromLobby lobby; SetContentTypeJSON;
                           EncodeStarted (uuid_String B (fst g)) (uuid_String B (ID lobby)) (snd g)]
                    end
                end
            end
        end
    end.

(** One element of the response of [ListLobbiesHandler]. *)
Definition toLobbyResp (l : Lobby) : lobbyResp :=
  let rmap : gmap string JSON :=
    {[ "disconnection_threshold" := DisconnectionRoundLimit (Rules l);
       "house_rule_freeze_disconnect" := FreezeOnDisconnect (Rules l);
       "house_rule_forfeit_disconnect" := ForfeitOnDisconnect (Rules l);
       "house_rule_missed_round_threshold" := MissedRoundThreshold (Rules l);
       "penalty_card_count" := PenaltyCardCount (Rules l);
       "allow_replaced_discard_abilities" := AllowDiscardAbilities (Rules l);
       "auto_start" := RulesAutoStart (Rules l);
       "turn_timeout_sec" := TurnTimeoutSec (Rules l) ]} in
  mkLobbyResp (uuid_String B (ID l)) (uuid_String B (HostUserID l)) (Type_ l)
              (CircuitMode l) (Ranked l) (RankingMode l) rmap.

(** [resp = append(resp, x)] on a slice that may be nil ([None]). *)
Definition appendResp (resp : option (list lobbyResp)) (x : lobbyResp) : option (list lobbyResp) :=
  Some (default [] resp ++ [x]).

(** [ListLobbiesHandler] *)
Definition ListLobbiesHandler (r : APIRequest) : list APIEffect :=
  let cookie := Cookie r in
  if negb (strings_Contains cookie "auth_token=") then [HttpError "missing auth_token" 401]
  else
    let token := extractTokenFromCookie cookie in
    match AuthenticateJWT X token with
    | None => [HttpError "invalid token" 403]
    | Some _ =>
        DBGetAllLobbies ::
        match GetAllLobbies B with
        | inr err => [HttpError ("failed to list lobbies: " +:+ err) 500]
        | inl lobbies =>
            let resp := fold_left (λ resp l, appendResp resp (toLobbyResp l)) lobbies None in
            [SetContentTypeJSON; EncodeList resp]
        end
    end.

(** [GetLobbyHandler] *)
Definition GetLobbyHandler (r : APIRequest) : list APIEffect :=
  let cookie := Cookie r in
  if negb (strings_Contains cookie "auth_token=") then [HttpError "missing auth_token" 401]
  else
    let token := extractCookieToken X cookie "auth_token" in
    match AuthenticateJWT X token with
    | None => [HttpError "invalid token" 403]
    | Some _ =>
        let lobbyIDStr := QueryLobbyID r in
        if String.eqb lobbyIDStr "" then [HttpError "missing lobby_id param" 400]
        else
          match uuid_Parse X lobbyIDStr with
          | None => [HttpError "invalid lobby_id" 400]
          | Some lid =>
              DBGetLobby lid ::
              match GetLobby B lid with
              | inr err => [HttpError ("failed to get lobby: " +:+ err) 404]
              | inl lobby => [SetContentTypeJSON; EncodeLobby lobby]
              end
          end
    end.

(** [DeleteLobbyHandler] *)
Definition DeleteLobbyHandler (r : APIRequest) : list APIEffect :=
  let cookie := Cookie r in
  if negb (strings_Contains cookie "auth_token=") then [HttpError "missing auth_token" 401]
  else
    let token := extractCookieToken X cookie "auth_token" in
    match AuthenticateJWT X token with
    | None => [HttpError "invalid token" 403]
    | Some userIDStr =>
        match uuid_Parse X userIDStr with
        | None => [HttpError "invalid userID in token" 400]
        | Some userUUID =>
            match decodeLobbyID B (Body r) with
            | None => [HttpError "invalid payload" 400]
            | Some reqLobbyID =>
                match uuid_Parse X reqLobbyID with
                | None => [HttpError "invalid lobby_id" 400]
                | Some lid =>
                    DBGetLobby lid ::
                    match GetLobby B lid with
                    | inr _ => [HttpError "lobby not found" 404]
                    | inl lobby =>
                        if negb (N.eqb (HostUserID lobby) userUUID)
                        then [HttpError "only host user can delete this lobby" 403]
                        else
                          DBDeleteLobby lid ::
                          match DeleteLobby B lid with
                          | Some err => [HttpError ("failed to delete lobby: " +:+ err) 500]
                          | None => [WriteHeader 200; WriteBody "lobby deleted"]
                          end
                    end
                end
            end
        end
    end.

End LobbyAPI.

(** Effects that reach the database or the game server. *)
Definition reachesBackend (e : APIEffect) : bool :=
  match e with
  | DBIsUserInLobby _ _ | DBInsertParticipant _ _ _ | DBGetLobby _ | DBDeleteLobby _
  | DBGetAllLobbies | NewCambiaGameFromLobby _ => true
  | _ => false
  end.

(** The inserts among the effects of a handler. *)
Definition isInsert (e : APIEffect) : bool :=
  match e with DBInsertParticipant _ _ _ => true | _ => false end.

(** A concrete backend: lobby 7 is a private lobby hosted by alice (1); it
    is the only lobby. *)
Definition demoRules : HouseRules :=
  mkHouseRules (JNumber "3") (JBool false) (JBool true) (JNumber "2") (JNumber "2")
               (JBool true) (JBool true) (JNumber "30").

Definition demoRow : Lobby := mkLobbyRow 7 1 "private" "head_to_head" false false "" demoRules.

Definition demoB : Backend := {|
  NewLobbyWithDefaults := λ u, mkLobbyRow 0 u "private" "head_to_head" false false "" demoRules;
  decodeLobby := λ d body,
    if String.eqb body "{}" then Some d
    else if String.eqb body "{type:duel}" then
      Some (mkLobbyRow (ID d) (HostUserID d) "duel" (GameMode d) (CircuitMode d) (Ranked d)
                       (RankingMode d) (Rules d))
    else None;
  decodeJoin := λ body,
    if String.eqb body "{lobby_id:lobby7}" then Some ("lobby7", 0%Z)
    else if String.eqb body "{lobby_id:lobby7,seat_number:4}" then Some ("lobby7", 4%Z)
    else None;
  decodeLobbyID := λ body,
    if String.eqb body "{lobby_id:lobby7}" then Some "lobby7" else None;
  InsertParticipant := λ l u seat, false;
  GetLobby := λ l, if N.eqb l 7 then inl demoRow else inr "no rows in result set";
  DeleteLobby := λ l, None;
  GetAllLobbies := inl [demoRow];
  newGame := λ l, (42%N, 2);
  uuid_String := λ n, if N.eqb n 7 then "lobby7" else if N.eqb n 1 then "alice" else "other"
|}.

Definition demoAPIRequest (who body : string) : APIRequest :=
  mkAPIRequest ("auth_token=" +:+ who) body "lobby7".

(** ** The game socket of [handlers/ws.go] *)

(** [models.Player], the fields [ServeHTTP] sets. *)
Record Player : Type := mkPlayer {
  PlayerID : UUID;
  PlayerConn : nat;
  Connected : bool
}.

Inductive GameEvent : Type :=
| GLogf (msg : string)
| GAccept (c : nat)
| GClose (c : nat) (st : StatusCode) (reason : string)
| GLock (g : nat)
| GUnlock (g : nat)
| GSetContentTypeJSON
| GAddGame (g : nat)
| GEncode (g : nat)
| GHttpError (body : string) (code : nat).

(** The games ([*game.Game] objects, by pointer, with their [Players]),
    the transports and the effects so far. *)
Record GameWorld : Type := mkGameWorld {
  games : gmap nat (list Player);
  gsocks : gmap nat Transport;
  gtrace : list GameEvent
}.

(** The game package, which is not at hand: what [GameStore.GetGame]
    answers, the players of a game made by [game.NewGame], and the error of
    encoding a game, if any. *)
Record GameStore : Type := mkGameStore {
  GetGame : N → option nat;
  NewGamePlayers : list Player;
  encodeGameError : nat → option string
}.

(** How a handler ends. *)
Inductive Outcome : Type := Returned | Panicked.

Definition gemit (e : GameEvent) (w : GameWorld) : GameWorld :=
  mkGameWorld (games w) (gsocks w) (gtrace w ++ [e]).

(** [c.Close(status, reason)] *)
Definition gclose (c : nat) (st : StatusCode) (reason : string) (w : GameWorld) : GameWorld :=
  mkGameWorld (games w)
    (alter (λ t, mkTransport (Subprotocol t)
                   (match closed t with Some x => Some x | None => Some (st, reason) end)
                   (written t)) c (gsocks w))
    (gtrace w ++ [GClose c st reason]).

Section GameServer.

Variable X : Externals.
Variable G : GameStore.

(** [CreateGameHandler] *)
Definition CreateGameHandler (w : GameWorld) : GameWorld :=
  let g := fresh (dom (games w)) in
  let w1 := mkGameWorld (<[g := NewGamePlayers G]> (games w)) (gsocks w)
                        (gtrace w ++ [GSetContentTypeJSON; GAddGame g; GEncode g]) in
  match encodeGameError G g with
  | Some err => gemit (GHttpError err 500) w1
  | None => w1
  end.

(** [GameServer.ServeHTTP] *)
Definition ServeHTTP (r : Request) (w : GameWorld) : Outcome * GameWorld :=
  if String.eqb (URLPath r) "/game/create" then (Returned, CreateGameHandler w)
  else
    match websocket_Accept X r with
    | None => (Returned, gemit (GLogf "accept error") w)
    | Some sp =>
        let c := fresh (dom (gsocks w)) in
        let w1 := mkGameWorld (games w) (<[c := mkTransport sp None []]> (gsocks w))
                              (gtrace w ++ [GAccept c]) in
        if negb (String.eqb sp "game")
        then (Returned,
              gclose c StatusPolicyViolation "client must speak the game subprotocol" w1)
        else if Nat.ltb (String.length (URLPath r)) (String.length "/game/")
        then (Panicked, w1)
        else
          let queryGameID :=
            String.substring (String.length "/game/")
              (String.length (URLPath r) - String.length "/game/") (URLPath r) in
          if String.eqb queryGameID ""
          then (Returned,
                gclose c StatusPolicyViolation "missing game_id" (gemit (GLogf "missing game_id") w1))
          else
            match uuid_Parse X queryGameID with
            | None =>
                (Returned,
                 gclose c StatusPolicyViolation "invalid uuid game_id"
                   (gemit (GLogf "invalid game_id") w1))
            | Some gameID =>
                match GetGame G gameID with
                | None =>
                    (Returned,
                     gclose c StatusPolicyViolation "game_id not found"
                       (gemit (GLogf "game_id not found") w1))
                | Some game =>
                    let player := mkPlayer gameID c true in
                    (Returned,
                     mkGameWorld (alter (λ ps, ps ++ [player]) game (games w1)) (gsocks w1)
                                 (gtrace w1 ++ [GLock game; GUnlock game]))
                end
            end
    end.

(** Requests served one after the other; a panic ends only the request it
    occurs in. *)
Definition serveAll (rs : list Request) (w : GameWorld) : GameWorld :=
  fold_left (λ w r, snd (ServeHTTP r w)) rs w.

End GameServer.

(** A game server with one game, 42, at pointer 0, so far with one player. *)
Definition demoGameX : Externals :=
  mkExternals (json_Unmarshal demoX) (json_Marshal demoX)
              (λ s, if String.eqb s "game42" then Some 42%N else None)
              (AuthenticateJWT demoX) (extractCookieToken demoX) (IsUserInLobby demoX)
              (RemoveUserFromLobby demoX) (λ _, Some "game") (NewLobbyAutoStart demoX).

Definition demoGames : GameStore :=
  mkGameStore (λ gid, if N.eqb gid 42 then Some 0 else None) [] (λ _, None).

Definition demoGameWorld : GameWorld :=
  mkGameWorld {[ 0 := [mkPlayer 42 7 true] ]} ∅ [].

(** ** What message dispatch leaves alone *)

(** [dispatchFrame c w w']: between [w] and [w'] no transport was touched,
    no connection object appeared or disappeared, none but [c] had its
    context cancelled and none was un-cancelled, no lobby appeared or
    disappeared, and no lobby's connection map, identity or autoStart flag
    changed; ready flags were only set, never deleted. *)
Record dispatchFrame (c : nat) (w w' : World) : Prop := mkDispatchFrame {
  df_socks : socks w' = socks w;
  df_conn : ∀ c' k, conns w !! c' = Some k →
    ∃ k', conns w' !! c' = Some k' ∧ UserID k' = UserID k
          ∧ (c' ≠ c → ctxDone k' = ctxDone k)
          ∧ (ctxDone k = true → ctxDone k' = true);
  df_conn_none : ∀ c', conns w !! c' = None → conns w' !! c' = None;
  df_lobby : ∀ l ls, lobbies w !! l = Some ls →
    ∃ ls', lobbies w' !! l = Some ls'
           ∧ Connections ls' = Connections ls
           ∧ LobbyID ls' = LobbyID ls
           ∧ AutoStart ls' = AutoStart ls
           ∧ dom (ReadyStates ls) ⊆ dom (ReadyStates ls');
  df_lobby_none : ∀ l, lobbies w !! l = None → lobbies w' !! l = None
}.

Definition frames (c : nat) {A} (m : M A) : Prop :=
  ∀ w, dispatchFrame c w (exec m w).

(** ** What a run adds to the trace *)

(** [emits P m]: every event a run of [m] adds to the trace satisfies [P]. *)
Definition emits (P : Event → Prop) {A} (m : M A) : Prop :=
  ∀ w, ∃ d, trace (exec m w) = trace w ++ d ∧ Forall P d.

(** A reply written with [http.Error]. *)
Definition isHTTPError (e : Event) : bool :=
  match e with
  | EvHTTPError _ _ => true
  | _ => false
  end.

(** The call that removes a persisted membership. *)
Definition isMembershipRemoval (e : Event) : bool :=
  match e with
  | EvRemoveUserFromLobby _ _ => true
  | _ => false
  end.

(** Whether a frame is a text message that decodes to a leave_lobby
    request. *)
Definition asksToLeave (X : Externals) (x : ReadResult) : bool :=
  match x with
  | ReadMsg MessageText msg =>
      match json_Unmarshal X msg with
      | Some packet => String.eqb (assertString (packet !! "type")) "leave_lobby"
      | None => false
      end
  | _ => false
  end.

(** The world after an upgrade whose subprotocol is not the lobby one. *)
Definition wrongSubprotocol (sp : string) (w : World) : World :=
  let s := fresh (dom (socks w)) in
  mkWorld (lobbies w) (conns w)
          (<[s := mkTransport sp (Some (StatusPolicyViolation,
                                        "client must speak the lobby subprotocol")) []]> (socks w))
          (trace w ++ [EvAccept s;
                       EvClose s StatusPolicyViolation "client must speak the lobby subprotocol"]).

(** The services of [demoX] facing a peer that does not ask for an
    upgrade. *)
Definition demoPlainX : Externals :=
  mkExternals (json_Unmarshal demoX) (json_Marshal demoX) (uuid_Parse demoX)
              (AuthenticateJWT demoX) (extractCookieToken demoX) (IsUserInLobby demoX)
              (RemoveUserFromLobby demoX) (λ _, None) (NewLobbyAutoStart demoX).

(** The effects that send the reply of an HTTP handler: an error written
    with [http.Error], an encoded value or a body. *)
Definition isReply (e : APIEffect) : bool :=
  match e with
  | HttpError _ _ | WriteBody _ | EncodeLobby _ | EncodeStarted _ _ _ | EncodeList _ => true
  | _ => false
  end.

(** A run that ends with its one reply. *)
Definition repliesOnce (es : list APIEffect) : Prop :=
  ∃ pre e, es = pre ++ [e] ∧ isReply e = true ∧ List.filter isReply pre = [].

(** * Proofs *)

#[local] Set Warnings "-clear-no-such-hyp".

(** ** Reading runs of the monad *)

Lemma exec_bind {A B} (m : M A) (f : A → M B) (w : World) :
  exec (m ≫= f) w = exec (f (eval m w)) (exec m w).
Proof. unfold exec, eval, mbind, M_bind. by destruct (m w). Qed.

Lemma eval_bind {A B} (m : M A) (f : A → M B) (w : World) :
  eval (m ≫= f) w = eval (f (eval m w)) (exec m w).
Proof. unfold exec, eval, mbind, M_bind. by destruct (m w). Qed.

Lemma run_eta {A} (m : M A) (w : World) : m w = (eval m w, exec m w).
Proof. unfold exec, eval. by destruct (m w). Qed.

Ltac run :=
  repeat (rewrite ?exec_bind, ?eval_bind;
          change (exec (mret ?a) ?w) with w;
          change (eval (mret ?a) ?w) with a;
          change (exec get ?w) with w;
          change (eval get ?w) with w).

(** ** Effect of a fan-out *)

Lemma sentTo_nil m w : sentTo m [] w w.
Proof.
  split; try done.
  - intros c k Hk. exists []. rewrite app_nil_r. destruct k; simpl.
    split_and!; [done | set_solver | done | set_solver].
  - exists []. rewrite app_nil_r. split_and!; [done | set_solver | set_solver].
Qed.

Lemma sentTo_one m c w : sentTo m [c] w (exec (trySend m c) w).
Proof.
  unfold trySend. run.
  destruct (conns w !! c) as [k|] eqn:Hc.
  - destruct (Nat.ltb (List.length (OutChan k)) OutChanCap) eqn:Hlen.
    + run. unfold exec; simpl. split; simpl; try done.
      * intros c0 H0. rewrite lookup_insert_ne; [done | congruence].
      * intros c0 k0 H0. destruct (decide (c0 = c)) as [->|Hne].
        -- rewrite lookup_insert_eq. assert (k0 = k) as -> by congruence.
           exists [m]. split_and!; [done | set_solver | set_solver | set_solver].
        -- rewrite lookup_insert_ne by done. exists []. rewrite app_nil_r.
           destruct k0; simpl. split_and!; [done | set_solver | done | set_solver].
      * exists [EvEnqueue c m]. split_and!; [done | | set_solver].
        intros e He. exists c. set_solver.
    + unfold exec; simpl. split; simpl; try done.
      * intros c0 k0 H0. exists []. rewrite app_nil_r. destruct k0; simpl.
        split_and!; [done | set_solver | done | ].
        intros Hin Hlt. apply list_elem_of_singleton in Hin as ->.
        assert (k = {| UserID := UserID0; ctxDone := ctxDone0; OutChan := OutChan0 |})
          as -> by congruence.
        apply Nat.ltb_ge in Hlen. simpl in *. lia.
      * exists [EvDrop c m]. split_and!; [done | | set_solver].
        intros e He. exists c. set_solver.
  - change (exec (mret tt) w) with w. split; try done.
    + intros c0 k0 H0. exists []. rewrite app_nil_r. destruct k0; simpl.
      split_and!; [done | set_solver | done | ].
      intros Hin. apply list_elem_of_singleton in Hin as ->. congruence.
    + exists []. rewrite app_nil_r. split_and!; [done | set_solver | ].
      intros c0 Hin. apply list_elem_of_singleton in Hin as ->.
      rewrite Hc. by intros [? ?].
Qed.

Lemma sentTo_app m cs1 cs2 w w1 w2 :
  sentTo m cs1 w w1 → sentTo m cs2 w1 w2 → sentTo m (cs1 ++ cs2) w w2.
Proof.
  intros [L1 S1 A1 Q1 (d1 & T1 & E1 & R1)] [L2 S2 A2 Q2 (d2 & T2 & E2 & R2)].
  split.
  - congruence.
  - congruence.
  - auto.
  - intros c k Hk. destruct (Q1 c k Hk) as (q1 & H1 & F1 & N1 & I1).
    destruct (Q2 c _ H1) as (q2 & H2 & F2 & N2 & I2). simpl in *.
    exists (q1 ++ q2). rewrite app_assoc. split_and!.
    + done.
    + intros x [?|?]%elem_of_app; auto.
    + intros Hn. rewrite N1, N2; set_solver.
    + intros [Hin|Hin]%elem_of_app Hlt.
      * apply elem_of_app. left. auto.
      * destruct (decide (List.length (OutChan k ++ q1) < OutChanCap)) as [Hl|Hl].
        -- apply elem_of_app. right. auto.
        -- destruct q1 as [|x q1]; [rewrite app_nil_r in Hl; lia|].
           apply elem_of_app. left. rewrite (F1 x); set_solver.
  - exists (d1 ++ d2). split_and!.
    + rewrite T2, T1. by rewrite app_assoc.
    + intros e [He|He]%elem_of_app.
      * destruct (E1 e He) as (c & ? & ?). exists c. set_solver.
      * destruct (E2 e He) as (c & ? & ?). exists c. set_solver.
    + intros c [Hin|Hin]%elem_of_app [k Hk].
      * destruct (R1 c Hin) as [?|?]; [by eexists | set_solver | set_solver].
      * destruct (Q1 c k Hk) as (q1 & H1 & _).
        destruct (R2 c Hin) as [?|?]; [by eexists | set_solver | set_solver].
Qed.

Lemma sentTo_forM m cs w : sentTo m cs w (exec (forM_ (trySend m) cs) w).
Proof.
  revert w. induction cs as [|c cs IH]; intros w.
  - apply sentTo_nil.
  - simpl. rewrite exec_bind.
    change (c :: cs) with ([c] ++ cs).
    eapply sentTo_app; [apply sentTo_one | apply IH].
Qed.

(** ** Runs that keep the objects of a world alive *)

Lemma ext_refl P w : ext P w w.
Proof.
  split; eauto. exists []. by rewrite app_nil_r.
Qed.

Lemma ext_trans P w1 w2 w3 : ext P w1 w2 → ext P w2 w3 → ext P w1 w3.
Proof.
  intros [L1 C1 S1 (d1 & T1 & F1)] [L2 C2 S2 (d2 & T2 & F2)]. split.
  - intros l ls H. destruct (L1 _ _ H) as (ls1 & H1 & E1).
    destruct (L2 _ _ H1) as (ls2 & H2 & E2). exists ls2. split; congruence.
  - intros c k H. destruct (C1 _ _ H) as (k1 & H1 & E1).
    destruct (C2 _ _ H1) as (k2 & H2 & E2). exists k2. split; congruence.
  - intros s t H. destruct (S1 _ _ H) as (t1 & H1 & E1).
    destruct (S2 _ _ H1) as (t2 & H2 & E2). exists t2. split; congruence.
  - exists (d1 ++ d2). rewrite T2, T1, app_assoc. split; [done|].
    by apply Forall_app.
Qed.

Lemma keeps_ret P {A} (a : A) : keeps P (mret a : M A).
Proof. intros w. apply ext_refl. Qed.

Lemma keeps_get P : keeps P get.
Proof. intros w. apply ext_refl. Qed.

Lemma keeps_bind P {A B} (m : M A) (f : A → M B) :
  keeps P m → (∀ a, keeps P (f a)) → keeps P (m ≫= f).
Proof.
  intros Hm Hf w. rewrite exec_bind. eapply ext_trans; [apply Hm | apply Hf].
Qed.

Lemma keeps_emit (P : Event → Prop) e : P e → keeps P (emit e).
Proof.
  intros He w. unfold emit, modify, exec; simpl. split; simpl; [eauto ..|].
  exists [e]. split; [done|]. by constructor.
Qed.

Lemma keeps_lobby_alter P (f : LobbyState → LobbyState) l :
  (∀ ls, AutoStart (f ls) = AutoStart ls) → keeps P (setLobbies (alter f l)).
Proof.
  intros Hf w. unfold setLobbies, modify, exec; simpl. split; simpl; [| eauto ..|].
  - intros l' ls H. destruct (decide (l = l')) as [->|Hne].
    + exists (f ls). rewrite lookup_alter_eq, H. done.
    + exists ls. rewrite lookup_alter_ne by done. done.
  - exists []. by rewrite app_nil_r.
Qed.

Lemma keeps_conn_alter P (f : LobbyConnection → LobbyConnection) c :
  (∀ k, UserID (f k) = UserID k) → keeps P (setConns (alter f c)).
Proof.
  intros Hf w. unfold setConns, modify, exec; simpl. split; simpl; [eauto | | eauto |].
  - intros c' k H. destruct (decide (c = c')) as [->|Hne].
    + exists (f k). rewrite lookup_alter_eq, H. done.
    + exists k. rewrite lookup_alter_ne by done. done.
  - exists []. by rewrite app_nil_r.
Qed.

Lemma keeps_sock_alter P (f : Transport → Transport) s :
  (∀ t, Subprotocol (f t) = Subprotocol t) → keeps P (setSocks (alter f s)).
Proof.
  intros Hf w. unfold setSocks, modify, exec; simpl. split; simpl; [eauto | eauto | |].
  - intros s' t H. destruct (decide (s = s')) as [->|Hne].
    + exists (f t). rewrite lookup_alter_eq, H. done.
    + exists t. rewrite lookup_alter_ne by done. done.
  - exists []. by rewrite app_nil_r.
Qed.

Lemma keeps_trySend (P : Event → Prop) m c :
  P (EvEnqueue c m) → P (EvDrop c m) → keeps P (trySend m c).
Proof.
  intros He Hd w. destruct (sentTo_one m c w) as [L S A Q (d & T & E & R)].
  split.
  - intros l ls H. exists ls. by rewrite L.
  - intros c' k H. destruct (Q _ _ H) as (q & Hq & _). eexists. split; [exact Hq|done].
  - intros s t H. exists t. by rewrite S.
  - exists d. split; [done|]. apply Forall_forall. intros e Hin.
    destruct (E e Hin) as (c' & Hc' & [->| ->]);
      apply list_elem_of_singleton in Hc' as ->; done.
Qed.

Lemma keeps_forM P {A} (f : A → M unit) xs :
  (∀ x, keeps P (f x)) → keeps P (forM_ f xs).
Proof.
  intros Hf. induction xs as [|x xs IH]; simpl.
  - apply keeps_ret.
  - apply keeps_bind; [apply Hf | intros _; apply IH].
Qed.

Ltac keeps_step :=
  first
    [ apply keeps_trySend
    | apply keeps_forM; intros ?
    | apply keeps_emit
    | apply keeps_lobby_alter; intros ?; reflexivity
    | apply keeps_conn_alter; intros ?; reflexivity
    | apply keeps_sock_alter; intros ?; reflexivity
    | apply keeps_ret
    | apply keeps_get
    | apply keeps_bind; [| intros ?]
    | match goal with
      | |- keeps _ (match ?x with _ => _ end) => destruct x
      end
    | progress unfold writeReady, writeConnection, deleteConnection, deleteReady,
        writeCountdown, Cancel, Close, logger, withLock, lookupLobby, broadcast,
        connUserID, http_Error ].

Ltac keeps_go := repeat keeps_step.

Section KeepsLobby.

Variable P : Event → Prop.
Hypothesis P_other : ∀ e, isUnregister e = false → P e.

Lemma keeps_BroadcastReadyState l u b : keeps P (BroadcastReadyState l u b).
Proof. unfold BroadcastReadyState. keeps_go; by apply P_other. Qed.

Lemma keeps_BroadcastLeave l u : keeps P (BroadcastLeave l u).
Proof. unfold BroadcastLeave. keeps_go; by apply P_other. Qed.

Lemma keeps_BroadcastChat l u s : keeps P (BroadcastChat l u s).
Proof. unfold BroadcastChat. keeps_go; by apply P_other. Qed.

Lemma keeps_BroadcastJoin l u : keeps P (BroadcastJoin l u).
Proof. unfold BroadcastJoin. keeps_go; by apply P_other. Qed.

Lemma keeps_AreAllReady l : keeps P (AreAllReady l).
Proof. unfold AreAllReady. keeps_go; by apply P_other. Qed.

Lemma keeps_StartCountdown l n : keeps P (StartCountdown l n).
Proof. unfold StartCountdown. keeps_go; by apply P_other. Qed.

Lemma keeps_CancelCountdown l : keeps P (CancelCountdown l).
Proof. unfold CancelCountdown. keeps_go; by apply P_other. Qed.

Lemma keeps_handleLobbyMessage X packet l c :
  keeps P (handleLobbyMessage X packet l c).
Proof.
  unfold handleLobbyMessage.
  apply keeps_bind; [keeps_go | intros uid].
  repeat match goal with
         | |- keeps _ (if ?b then _ else _) => destruct b
         end.
  - apply keeps_bind; [keeps_go; by apply P_other | intros _].
    apply keeps_bind; [apply keeps_BroadcastReadyState | intros _].
    apply keeps_bind; [keeps_go | intros ols].
    destruct (default false (AutoStart <$> ols)); [|apply keeps_ret].
    apply keeps_bind; [apply keeps_AreAllReady | intros [|]];
      [apply keeps_StartCountdown | apply keeps_ret].
  - apply keeps_bind; [keeps_go; by apply P_other | intros _].
    apply keeps_bind; [apply keeps_BroadcastReadyState | intros _].
    apply keeps_CancelCountdown.
  - apply keeps_bind; [keeps_go; by apply P_other | intros _].
    apply keeps_bind; [keeps_go; by apply P_other | intros _].
    apply keeps_bind; [apply keeps_BroadcastLeave | intros _].
    keeps_go; by apply P_other.
  - apply keeps_BroadcastChat.
  - keeps_go; by apply P_other.
Qed.

Lemma keeps_c_Read s c r : keeps P (c_Read s c r).
Proof. unfold c_Read. keeps_go. Qed.

Lemma keeps_readLoop X reads s l c : keeps P (readLoop X reads s l c).
Proof.
  induction reads as [|x rest IH]; simpl.
  - apply keeps_bind; [apply keeps_c_Read | intros [r|]];
      keeps_go; by apply P_other.
  - apply keeps_bind; [apply keeps_c_Read | intros r].
    destruct r as [[|[|] msg]|].
    + keeps_go; by apply P_other.
    + destruct (json_Unmarshal X msg) as [packet|].
      * apply keeps_bind; [apply keeps_handleLobbyMessage | intros _; apply IH].
      * apply keeps_bind; [keeps_go | intros uid].
        apply keeps_bind; [keeps_go; by apply P_other | intros _; apply IH].
    + apply IH.
    + keeps_go; by apply P_other.
Qed.

End KeepsLobby.

(** ** The operations of the lobby package *)

Lemma elem_of_recipientsOf skip ls c :
  c ∈ recipientsOf skip ls ↔ ∃ u, Connections ls !! u = Some c ∧ skip ≠ Some u.
Proof.
  unfold recipientsOf. rewrite list_elem_of_fmap. split.
  - intros ([u c'] & -> & Hin). apply list_elem_of_filter in Hin as [Hs Hin].
    apply elem_of_map_to_list in Hin. exists u. done.
  - intros (u & Hu & Hs). exists (u, c). split; [done|].
    apply list_elem_of_filter. split; [done|]. by apply elem_of_map_to_list.
Qed.

Lemma allReady_spec ls :
  allReady ls = true ↔ ∀ u c, Connections ls !! u = Some c → ReadyStates ls !! u = Some true.
Proof.
  unfold allReady. rewrite forallb_forall. split.
  - intros H u c Hu. specialize (H (u, c)). simpl in H.
    rewrite bool_decide_eq_true in H. apply H.
    apply list_elem_of_In, elem_of_map_to_list. done.
  - intros H [u c] Hin. simpl. rewrite bool_decide_eq_true.
    apply list_elem_of_In, elem_of_map_to_list in Hin. eauto.
Qed.

Lemma announce_spec l call skip m w ls :
  lobbies w !! l = Some ls →
  announced l call m (recipientsOf skip ls) w
    (exec (emit (EvCall l call) ;; withLock l (broadcast l skip m)) w).
Proof.
  intros Hl. unfold withLock, broadcast, lookupLobby. run. simpl. rewrite Hl.
  set (w0 := exec (emit (EvLock l)) (exec (emit (EvCall l call)) w)).
  destruct (sentTo_forM m (recipientsOf skip ls) w0) as [L S A Q (d & T & E & R)].
  split; simpl.
  - by rewrite L.
  - by rewrite S.
  - intros c Hc. by apply A.
  - intros c k Hk. by apply Q.
  - exists d. split_and!; [|done|done].
    rewrite T. subst w0. simpl. by rewrite <- !app_assoc.
Qed.

Lemma BroadcastReadyState_spec l u b w ls :
  lobbies w !! l = Some ls →
  announced l (CallBroadcastReadyState u b) (MsgReadyState u b) (recipientsOf None ls)
    w (exec (BroadcastReadyState l u b) w).
Proof. apply announce_spec. Qed.

Lemma BroadcastJoin_spec l u w ls :
  lobbies w !! l = Some ls →
  announced l (CallBroadcastJoin u) (MsgUserJoined u) (recipientsOf (Some u) ls)
    w (exec (BroadcastJoin l u) w).
Proof. apply announce_spec. Qed.

Lemma BroadcastLeave_spec l u w ls :
  lobbies w !! l = Some ls →
  announced l (CallBroadcastLeave u) (MsgUserLeft u) (recipientsOf None ls)
    w (exec (BroadcastLeave l u) w).
Proof. apply announce_spec. Qed.

Lemma BroadcastChat_spec l u s w ls :
  lobbies w !! l = Some ls →
  announced l (CallBroadcastChat u s) (MsgChat u s) (recipientsOf (Some u) ls)
    w (exec (BroadcastChat l u s) w).
Proof. apply announce_spec. Qed.

Lemma AreAllReady_eval l w ls :
  lobbies w !! l = Some ls → eval (AreAllReady l) w = allReady ls.
Proof.
  intros Hl. unfold AreAllReady, withLock, lookupLobby. run. simpl. by rewrite Hl.
Qed.

Lemma AreAllReady_exec l w :
  exec (AreAllReady l) w =
  mkWorld (lobbies w) (conns w) (socks w)
          (trace w ++ [EvCall l CallAreAllReady; EvLock l; EvUnlock l]).
Proof.
  unfold AreAllReady, withLock, lookupLobby. run. unfold exec, emit, modify; simpl.
  by rewrite <- !app_assoc.
Qed.

Lemma StartCountdown_exec l n w ls :
  lobbies w !! l = Some ls →
  exec (StartCountdown l n) w =
  mkWorld
    (match Countdown ls with
     | Some _ => lobbies w
     | None => <[l := mkLobby (LobbyID ls) (Connections ls) (ReadyStates ls)
                              (AutoStart ls) (Some n)]> (lobbies w)
     end)
    (conns w) (socks w)
    (trace w ++ [EvCall l (CallStartCountdown n); EvLock l]
             ++ match Countdown ls with
                | Some _ => []
                | None => [EvSetCountdown l (Some n)]
                end ++ [EvUnlock l]).
Proof.
  intros Hl. unfold StartCountdown, withLock, lookupLobby. run. simpl. rewrite Hl.
  destruct (Countdown ls) as [n0|]; unfold writeCountdown; run;
    unfold exec, emit, modify, setLobbies; simpl; rewrite <- !app_assoc; simpl.
  - done.
  - f_equal. apply map_eq. intros l'. destruct (decide (l = l')) as [->|].
    + by rewrite lookup_alter_eq, lookup_insert_eq, Hl.
    + by rewrite lookup_alter_ne, lookup_insert_ne.
Qed.

Lemma CancelCountdown_spec l w ls :
  lobbies w !! l = Some ls →
  let w' := exec (CancelCountdown l) w in
  lobbies w' = <[l := mkLobby (LobbyID ls) (Connections ls) (ReadyStates ls)
                              (AutoStart ls) None]> (lobbies w)
  ∧ socks w' = socks w
  ∧ (∀ c, conns w !! c = None → conns w' !! c = None)
  ∧ (∀ c k, conns w !! c = Some k →
       ∃ q, conns w' !! c = Some (mkConn (UserID k) (ctxDone k) (OutChan k ++ q)))
  ∧ ∃ d, trace w' = trace w ++ [EvCall l CallCancelCountdown; EvLock l] ++ d ++ [EvUnlock l]
       ∧ (Countdown ls = None → d = [])
       ∧ (is_Some (Countdown ls) →
            ∃ d', d = EvSetCountdown l None :: d'
              ∧ ∀ c, c ∈ recipientsOf None ls → is_Some (conns w !! c) →
                  EvEnqueue c MsgCountdownCancelled ∈ d'
                  ∨ EvDrop c MsgCountdownCancelled ∈ d').
Proof.
  intros Hl w'. subst w'. unfold CancelCountdown, withLock, lookupLobby.
  run. simpl. rewrite Hl. destruct (Countdown ls) as [n|] eqn:Hcd.
  - unfold broadcast, writeCountdown, lookupLobby. run. simpl.
    rewrite lookup_alter_eq, Hl. simpl.
    set (ls' := mkLobby _ _ _ _ _).
    set (w0 := exec (emit (EvSetCountdown l None)) _).
    change (recipientsOf None ls') with (recipientsOf None ls).
    destruct (sentTo_forM MsgCountdownCancelled (recipientsOf None ls) w0)
      as [L S A Q (d & T & E & R)].
    split_and!.
    + rewrite L. subst w0. simpl. apply map_eq. intros l'.
      destruct (decide (l = l')) as [->|].
      * by rewrite lookup_alter_eq, lookup_insert_eq, Hl.
      * by rewrite lookup_alter_ne, lookup_insert_ne.
    + by rewrite S.
    + intros c Hc. by apply A.
    + intros c k Hk. destruct (Q c k Hk) as (q & Hq & _). by exists q.
    + exists (EvSetCountdown l None :: d). split_and!.
      * rewrite T. subst w0. simpl. by rewrite <- !app_assoc.
      * done.
      * intros _. exists d. split; [done|]. intros c Hc Hs. by apply R.
  - simpl. split_and!; try done.
    + apply map_eq. intros l'. destruct (decide (l = l')) as [->|].
      * rewrite lookup_insert_eq, Hl. destruct ls; simpl in *. by subst.
      * by rewrite lookup_insert_ne.
    + intros c k Hk. exists []. rewrite app_nil_r. by destruct k.
    + exists []. split_and!; [by rewrite <- !app_assoc | done | by intros [? ?]].
Qed.

(** ** Dispatch of ready and unready *)

Lemma handle_ready_unfold X packet l c w k :
  packet !! "type" = Some (JString "ready") →
  conns w !! c = Some k →
  handleLobbyMessage X packet l c w =
  (writeReady l (UserID k) true ;;
   BroadcastReadyState l (UserID k) true ;;
   ols ← lookupLobby l ;
   if default false (AutoStart <$> ols) then
     all ← AreAllReady l ;
     if all : bool then StartCountdown l 10 else mret tt
   else mret tt) w.
Proof.
  intros Ht Hc. unfold handleLobbyMessage, connUserID.
  unfold mbind at 1, M_bind at 1. unfold mbind at 1, M_bind at 1. simpl.
  rewrite Ht, Hc. simpl. done.
Qed.

(** C1.  A connected participant sends a message of type "ready": the
    dispatcher sets that participant's ready flag to true and broadcasts the
    ready-state change (every connected participant gets the event enqueued,
    or dropped when its queue is full); when the lobby's autoStart flag is
    set and every connected participant is then ready, [StartCountdown 10]
    is called and a countdown is running afterwards (of 10 seconds when none
    was running before); otherwise no countdown is started. *)
Theorem dispatch_ready X packet l c w ls k :
  packet !! "type" = Some (JString "ready") →
  lobbies w !! l = Some ls →
  conns w !! c = Some k →
  Connections ls !! UserID k = Some c →
  let u := UserID k in
  let w' := exec (handleLobbyMessage X packet l c) w in
  ∃ ls' d,
    lobbies w' !! l = Some ls'
    ∧ Connections ls' = Connections ls
    ∧ ReadyStates ls' = <[u := true]> (ReadyStates ls)
    ∧ trace w' = trace w ++ [EvSetReady l u true; EvCall l (CallBroadcastReadyState u true)] ++ d
    ∧ (∀ u' c', Connections ls !! u' = Some c' → is_Some (conns w !! c') →
         EvEnqueue c' (MsgReadyState u true) ∈ d ∨ EvDrop c' (MsgReadyState u true) ∈ d)
    ∧ (AutoStart ls = true →
       (∀ u' c', Connections ls' !! u' = Some c' → ReadyStates ls' !! u' = Some true) →
       EvCall l (CallStartCountdown 10) ∈ d
       ∧ Countdown ls' = Some (default 10 (Countdown ls)))
    ∧ (AutoStart ls = false ∨ allReady ls' = false →
       (EvCall l (CallStartCountdown 10) ∉ d) ∧ Countdown ls' = Countdown ls).
Proof.
  intros Ht Hl Hc Hconn u w'. subst w'.
  pose proof (f_equal snd (handle_ready_unfold X packet l c w k Ht Hc)) as Heq.
  change (exec (handleLobbyMessage X packet l c) w = exec
   (writeReady l u true ;;
   BroadcastReadyState l u true ;;
   ols ← lookupLobby l ;
   if default false (AutoStart <$> ols) then
     all ← AreAllReady l ;
     if all : bool then StartCountdown l 10 else mret tt
   else mret tt) w) in Heq.
  rewrite Heq. clear Heq.
  set (ls1 := mkLobby (LobbyID ls) (Connections ls) (<[u := true]> (ReadyStates ls))
                      (AutoStart ls) (Countdown ls)).
  set (w1 := exec (writeReady l u true) w).
  assert (Hl1 : lobbies w1 !! l = Some ls1).
  { subst w1. unfold writeReady. run. simpl. by rewrite lookup_alter_eq, Hl. }
  assert (Hc1 : conns w1 = conns w) by done.
  assert (Ht1 : trace w1 = trace w ++ [EvSetReady l u true]) by done.
  rewrite exec_bind. fold w1.
  destruct (BroadcastReadyState_spec l u true w1 ls1 Hl1)
    as [L2 S2 A2 Q2 (d2 & T2 & E2 & R2)].
  set (w2 := exec (BroadcastReadyState l u true) w1) in *.
  rewrite exec_bind. fold w2. rewrite exec_bind.
  change (eval (lookupLobby l) w2) with (lobbies w2 !! l).
  change (exec (lookupLobby l) w2) with w2.
  rewrite L2, Hl1. simpl.
  assert (Hrecv : ∀ u' c', Connections ls !! u' = Some c' → is_Some (conns w !! c') →
            EvEnqueue c' (MsgReadyState u true) ∈ d2 ∨ EvDrop c' (MsgReadyState u true) ∈ d2).
  { intros u' c' Hu' Hs. apply R2; [|done]. apply elem_of_recipientsOf. by exists u'. }
  assert (Hnocall : ∀ f, EvCall l f ∉ d2).
  { intros f Hin. destruct (E2 _ Hin) as (c0 & _ & [?|?]); discriminate. }
  destruct (AutoStart ls) eqn:Hauto.
  - rewrite exec_bind, (AreAllReady_eval l w2 ls1) by (by rewrite L2).
    rewrite AreAllReady_exec.
    set (w3 := mkWorld _ _ _ _).
    destruct (allReady ls1) eqn:Hall.
    + rewrite (StartCountdown_exec l 10 w3 ls1) by (by subst w3; simpl; rewrite L2).
      exists (mkLobby (LobbyID ls) (Connections ls) (<[u := true]> (ReadyStates ls))
                      (AutoStart ls) (Some (default 10 (Countdown ls)))).
      eexists. simpl. split_and!.
      * subst ls1; simpl. destruct (Countdown ls) eqn:Hcd; simpl.
        -- rewrite L2, Hl1. by rewrite Hauto.
        -- rewrite lookup_insert_eq. by rewrite Hauto.
      * done.
      * done.
      * rewrite T2, Ht1. rewrite <- !app_assoc. simpl. repeat f_equal.
      * intros u' c' Hu' Hs. destruct (Hrecv u' c' Hu' Hs); set_solver.
      * intros _ _. split; [set_solver | done].
      * intros [?|Hf]; [done|]. exfalso.
        unfold allReady in Hf, Hall. simpl in *. congruence.
    + exists ls1. eexists. simpl. split_and!.
      * by rewrite L2.
      * done.
      * done.
      * rewrite T2, Ht1. rewrite <- !app_assoc. simpl. repeat f_equal.
      * intros u' c' Hu' Hs. destruct (Hrecv u' c' Hu' Hs); set_solver.
      * intros _ Hready. apply (proj2 (allReady_spec ls1)) in Hready. congruence.
      * intros _. split; [|done]. intros Hin.
        apply elem_of_cons in Hin as [?|Hin]; [done|].
        apply elem_of_app in Hin as [Hin|Hin]; [by apply Hnocall in Hin|].
        set_solver.
  - change (exec (mret ()) w2) with w2.
    exists ls1. exists (EvLock l :: d2 ++ [EvUnlock l]). simpl. split_and!.
    + by rewrite L2.
    + done.
    + done.
    + rewrite T2, Ht1. rewrite <- !app_assoc. done.
    + intros u' c' Hu' Hs. destruct (Hrecv u' c' Hu' Hs); set_solver.
    + done.
    + intros _. split; [|done]. intros Hin.
      apply elem_of_cons in Hin as [?|Hin]; [done|].
      apply elem_of_app in Hin as [Hin|Hin]; [by apply Hnocall in Hin|].
      set_solver.
Qed.

Lemma handle_unready_unfold X packet l c w k :
  packet !! "type" = Some (JString "unready") →
  conns w !! c = Some k →
  handleLobbyMessage X packet l c w =
  (writeReady l (UserID k) false ;;
   BroadcastReadyState l (UserID k) false ;;
   CancelCountdown l) w.
Proof.
  intros Ht Hc. unfold handleLobbyMessage, connUserID.
  unfold mbind at 1, M_bind at 1. unfold mbind at 1, M_bind at 1. simpl.
  rewrite Ht, Hc. simpl. done.
Qed.

(** C2.  A connected participant sends a message of type "unready": the
    dispatcher sets that participant's ready flag to false, broadcasts the
    ready-state change and calls [CancelCountdown]; whatever the countdown
    state was before, in particular when a countdown was running, the Lobby
    State has no running countdown afterwards. *)
Theorem dispatch_unready X packet l c w ls k :
  packet !! "type" = Some (JString "unready") →
  lobbies w !! l = Some ls →
  conns w !! c = Some k →
  Connections ls !! UserID k = Some c →
  let u := UserID k in
  let w' := exec (handleLobbyMessage X packet l c) w in
  ∃ ls' d d',
    lobbies w' !! l = Some ls'
    ∧ Connections ls' = Connections ls
    ∧ ReadyStates ls' = <[u := false]> (ReadyStates ls)
    ∧ Countdown ls' = None
    ∧ trace w' = trace w ++ [EvSetReady l u false]
                         ++ [EvCall l (CallBroadcastReadyState u false); EvLock l]
                         ++ d ++ [EvUnlock l]
                         ++ [EvCall l CallCancelCountdown; EvLock l] ++ d' ++ [EvUnlock l]
    ∧ (∀ u' c', Connections ls !! u' = Some c' → is_Some (conns w !! c') →
         EvEnqueue c' (MsgReadyState u false) ∈ d ∨ EvDrop c' (MsgReadyState u false) ∈ d)
    ∧ (is_Some (Countdown ls) → EvSetCountdown l None ∈ d').
Proof.
  intros Ht Hl Hc Hconn u w'. subst w'.
  pose proof (f_equal snd (handle_unready_unfold X packet l c w k Ht Hc)) as Heq.
  change (exec (handleLobbyMessage X packet l c) w = exec
   (writeReady l u false ;;
   BroadcastReadyState l u false ;;
   CancelCountdown l) w) in Heq.
  rewrite Heq. clear Heq.
  set (ls1 := mkLobby (LobbyID ls) (Connections ls) (<[u := false]> (ReadyStates ls))
                      (AutoStart ls) (Countdown ls)).
  set (w1 := exec (writeReady l u false) w).
  assert (Hl1 : lobbies w1 !! l = Some ls1).
  { subst w1. unfold writeReady. run. simpl. by rewrite lookup_alter_eq, Hl. }
  assert (Hc1 : conns w1 = conns w) by done.
  assert (Ht1 : trace w1 = trace w ++ [EvSetReady l u false]) by done.
  rewrite exec_bind. fold w1.
  destruct (BroadcastReadyState_spec l u false w1 ls1 Hl1)
    as [L2 S2 A2 Q2 (d2 & T2 & E2 & R2)].
  set (w2 := exec (BroadcastReadyState l u false) w1) in *.
  rewrite exec_bind. fold w2.
  assert (Hl2 : lobbies w2 !! l = Some ls1) by (by rewrite L2).
  destruct (CancelCountdown_spec l w2 ls1 Hl2) as (L3 & S3 & A3 & Q3 & d3 & T3 & N3 & C3).
  exists (mkLobby (LobbyID ls) (Connections ls) (<[u := false]> (ReadyStates ls))
                  (AutoStart ls) None), d2, d3.
  split_and!.
  - rewrite L3. by rewrite lookup_insert_eq.
  - done.
  - done.
  - done.
  - rewrite T3, T2, Ht1. by rewrite <- !app_assoc.
  - intros u' c' Hu' Hs. apply R2; [|done]. apply elem_of_recipientsOf. by exists u'.
  - intros Hrun. destruct (C3 Hrun) as (d' & -> & _). set_solver.
Qed.

(** ** The read task *)

Lemma filter_isUnregister_none d :
  Forall (λ e, isUnregister e = false) d → List.filter isUnregister d = [].
Proof.
  induction 1 as [|e d He _ IH]; simpl; [done|]. by rewrite He.
Qed.

Lemma RemoveUser_spec l u w ls :
  lobbies w !! l = Some ls →
  let w' := exec (RemoveUser l u) w in
  lobbies w' !! l = Some (mkLobby (LobbyID ls) (delete u (Connections ls))
                            (delete u (ReadyStates ls)) (AutoStart ls) (Countdown ls))
  ∧ socks w' = socks w
  ∧ (∀ c k, conns w !! c = Some k →
       ∃ k', conns w' !! c = Some k' ∧ UserID k' = UserID k
             ∧ (ctxDone k = true → ctxDone k' = true)
             ∧ (Connections ls !! u = Some c → ctxDone k' = true))
  ∧ ∃ d, trace w' = trace w ++ [EvCall l (CallRemoveUser u)] ++ d
         ∧ Forall (λ e, isUnregister e = false) d.
Proof.
  intros Hl w'. subst w'. unfold RemoveUser, withLock, lookupLobby.
  run. simpl. rewrite Hl. run.
  set (w1 := exec (deleteReady l u) (exec (deleteConnection l u)
               (exec (emit (EvLock l)) (exec (emit (EvCall l (CallRemoveUser u))) w)))).
  set (ls1 := mkLobby (LobbyID ls) (delete u (Connections ls))
                      (delete u (ReadyStates ls)) (AutoStart ls) (Countdown ls)).
  assert (Hl1 : lobbies w1 !! l = Some ls1).
  { subst w1. unfold deleteReady, deleteConnection. run. simpl.
    by rewrite !lookup_alter_eq, Hl. }
  assert (Hc1 : conns w1 = conns w) by done.
  assert (Hs1 : socks w1 = socks w) by done.
  assert (Ht1 : trace w1 = trace w ++ [EvCall l (CallRemoveUser u); EvLock l;
                                       EvDelConnection l u; EvDelReady l u]).
  { subst w1. unfold deleteReady, deleteConnection. run. simpl. by rewrite <- !app_assoc. }
  set (w2 := exec (match Connections ls !! u with Some c => Cancel c | None => mret () end) w1).
  assert (Hl2 : lobbies w2 = lobbies w1) by (subst w2; by destruct (Connections ls !! u)).
  assert (Hs2 : socks w2 = socks w1) by (subst w2; by destruct (Connections ls !! u)).
  assert (Hc2 : ∀ c k, conns w !! c = Some k →
            ∃ k', conns w2 !! c = Some k' ∧ UserID k' = UserID k
                  ∧ (ctxDone k = true → ctxDone k' = true)
                  ∧ (Connections ls !! u = Some c → ctxDone k' = true)).
  { intros c k Hk. subst w2. destruct (Connections ls !! u) as [c0|] eqn:Hu.
    - unfold Cancel. run. simpl. rewrite ?Hc1. destruct (decide (c0 = c)) as [->|Hne].
      + rewrite lookup_alter_eq, Hk. simpl. eexists. split; [done|]. simpl. done.
      + rewrite lookup_alter_ne, Hk by done. exists k. split_and!; try done. congruence.
    - change (exec (mret ()) w1) with w1. rewrite ?Hc1. exists k. done. }
  assert (Ht2 : ∃ d0, trace w2 = trace w1 ++ d0 ∧ Forall (λ e, isUnregister e = false) d0).
  { subst w2. destruct (Connections ls !! u) as [c0|].
    - exists [EvCancel c0]. split; [done|]. by repeat constructor.
    - exists []. by rewrite app_nil_r. }
  destruct Ht2 as (d0 & Ht2 & F0).
  unfold broadcast, lookupLobby. run. simpl. rewrite Hl2, Hl1.
  destruct (sentTo_forM (MsgUserLeft u) (recipientsOf None ls1) w2)
    as [L S A Q (d & T & E & R)].
  split_and!.
  - by rewrite L, Hl2.
  - by rewrite S, Hs2.
  - intros c k Hk. destruct (Hc2 c k Hk) as (k2 & Hk2 & Hu2 & Hd2 & Hr2).
    destruct (Q c k2 Hk2) as (q & Hq & _). eexists. split; [exact Hq|]. simpl. done.
  - eexists. split.
    + rewrite T, Ht2, Ht1. rewrite <- !app_assoc. simpl. reflexivity.
    + repeat (apply Forall_cons; split; [done|]).
      apply Forall_app. split; [done|]. apply Forall_app. split; [|by repeat constructor].
      apply Forall_forall. intros e He. by destruct (E e He) as (? & _ & [->| ->]).
Qed.

Lemma c_Read_exec s c r w : exec (c_Read s c r) w = w.
Proof. unfold c_Read. run. by destruct (connDead s c w). Qed.

Lemma c_Read_eval s c r w :
  eval (c_Read s c r) w = if connDead s c w then Some ReadErr else r.
Proof. unfold c_Read. run. by destruct (connDead s c w). Qed.

Lemma readLoop_error_exits X reads s l c w :
  ReadErr ∈ reads → eval (readLoop X reads s l c) w = true.
Proof.
  revert w. induction reads as [|x rest IH]; intros w Hin.
  - by apply elem_of_nil in Hin.
  - simpl. rewrite eval_bind, c_Read_eval, c_Read_exec.
    destruct (connDead s c w); [by run|].
    apply elem_of_cons in Hin as [<-|Hin]; [by run|].
    destruct x as [|[|] msg]; [by run | | by apply IH].
    destruct (json_Unmarshal X msg); run; by apply IH.
Qed.

Lemma readPump_eval X reads s l c w :
  eval (readPump X reads s l c) w = eval (readLoop X reads s l c) w.
Proof.
  unfold readPump. rewrite eval_bind. destruct (eval (readLoop _ _ _ _ _) w); by run.
Qed.

Lemma readPump_exec X reads s l c w :
  exec (readPump X reads s l c) w =
  if eval (readLoop X reads s l c) w
  then exec (readPump_deferred s l c) (exec (readLoop X reads s l c) w)
  else exec (readLoop X reads s l c) w.
Proof.
  unfold readPump. rewrite exec_bind. destruct (eval (readLoop _ _ _ _ _) w); by run.
Qed.

(** C3.  A read error makes the read task return; when it returns, the
    deferred function has removed the participant from the Lobby State,
    cancelled the connection's context and closed the transport, and the
    run of the task contains exactly one [RemoveUser] call; while the task
    has not returned the run contains none. *)
Theorem readPump_unregisters_once X reads s l c w ls k t :
  lobbies w !! l = Some ls →
  conns w !! c = Some k →
  socks w !! s = Some t →
  let u := UserID k in
  let w' := exec (readPump X reads s l c) w in
  let exited := eval (readPump X reads s l c) w in
  (ReadErr ∈ reads → exited = true)
  ∧ (exited = true →
     ∃ ls' k' t' d,
       lobbies w' !! l = Some ls'
       ∧ Connections ls' !! u = None ∧ ReadyStates ls' !! u = None
       ∧ conns w' !! c = Some k' ∧ ctxDone k' = true
       ∧ socks w' !! s = Some t' ∧ is_Some (closed t')
       ∧ trace w' = trace w ++ d ++ [EvCancel c; EvClose s StatusNormalClosure "closing"]
       ∧ List.filter isUnregister d = [EvCall l (CallRemoveUser u)])
  ∧ (exited = false →
     ∃ d, trace w' = trace w ++ d ∧ List.filter isUnregister d = []).
Proof.
  intros Hl Hc Hs u w' exited. subst w' exited.
  rewrite readPump_eval, readPump_exec.
  pose proof (keeps_readLoop (λ e, isUnregister e = false) (λ e H, H) X reads s l c w)
    as [EL EC ES (d1 & T1 & F1)].
  set (w1 := exec (readLoop X reads s l c) w) in *.
  split_and!.
  - apply readLoop_error_exits.
  - intros ->.
    destruct (EL _ _ Hl) as (ls1 & Hl1 & _).
    destruct (EC _ _ Hc) as (k1 & Hc1 & Hu1).
    destruct (ES _ _ Hs) as (t1 & Hs1 & _).
    unfold readPump_deferred, connUserID. run. simpl. rewrite Hc1. simpl. rewrite Hu1. fold u.
    destruct (RemoveUser_spec l u w1 ls1 Hl1) as (L2 & S2 & C2 & d2 & T2 & F2).
    set (w2 := exec (RemoveUser l u) w1) in *.
    destruct (C2 _ _ Hc1) as (k2 & Hc2 & Hu2 & _).
    unfold Cancel, Close. run. simpl.
    eexists _, _, _, (d1 ++ [EvCall l (CallRemoveUser u)] ++ d2). split_and!.
    + exact L2.
    + simpl. apply lookup_delete_eq.
    + simpl. apply lookup_delete_eq.
    + rewrite lookup_alter_eq, Hc2. simpl. reflexivity.
    + done.
    + rewrite lookup_alter_eq, S2, Hs1. simpl. reflexivity.
    + simpl. destruct (closed t1); by eexists.
    + rewrite T2, T1. by rewrite <- !app_assoc.
    + rewrite List.filter_app. rewrite (filter_isUnregister_none d1 F1). simpl.
      by rewrite (filter_isUnregister_none d2 F2).
  - intros ->. exists d1. split; [done|]. by apply filter_isUnregister_none.
Qed.

Lemma readLoop_blocked X s l c w :
  connDead s c w = false → readLoop X [] s l c w = (false, w).
Proof.
  intros Hd. simpl. rewrite run_eta, eval_bind, exec_bind, c_Read_eval, c_Read_exec, Hd.
  done.
Qed.

Lemma readPump_blocked X s l c w :
  connDead s c w = false → readPump X [] s l c w = (false, w).
Proof.
  intros Hd. rewrite (run_eta (readPump X [] s l c)), readPump_eval, readPump_exec.
  unfold eval, exec. by rewrite (readLoop_blocked X s l c w Hd).
Qed.

Lemma readPump_cons X x rest s l c w w1 :
  readLoop X (x :: rest) s l c w = readLoop X rest s l c w1 →
  readPump X (x :: rest) s l c w = readPump X rest s l c w1.
Proof.
  intros H. rewrite (run_eta (readPump X (x :: rest) s l c)), (run_eta (readPump X rest s l c)).
  rewrite !readPump_eval, !readPump_exec. unfold eval, exec. by rewrite H.
Qed.

Lemma handle_unknown X packet l c w k :
  conns w !! c = Some k →
  let action := assertString (packet !! "type") in
  action ≠ "ready" → action ≠ "unready" → action ≠ "leave_lobby" → action ≠ "chat" →
  handleLobbyMessage X packet l c w = (tt, logged (LogUnknownAction action (UserID k)) w).
Proof.
  intros Hc action H1 H2 H3 H4. unfold handleLobbyMessage, connUserID.
  unfold mbind at 1, M_bind at 1. unfold mbind at 1, M_bind at 1. simpl.
  rewrite Hc. simpl. fold action.
  apply String.eqb_neq in H1, H2, H3, H4. by rewrite H1, H2, H3, H4.
Qed.

(** C4.  On a live connection a non-text frame is skipped, a payload
    that does not parse is logged and skipped, and a message with an
    unrecognised type is logged and ignored: in each case the loop goes on
    with the next frame in a world that differs at most by the log line, and
    a run over that single frame leaves the task running. *)
Theorem bad_frames_do_not_terminate X s l c w k rest :
  conns w !! c = Some k →
  connDead s c w = false →
  let u := UserID k in
  (∀ msg,
     readLoop X (ReadMsg MessageBinary msg :: rest) s l c w = readLoop X rest s l c w
     ∧ readPump X [ReadMsg MessageBinary msg] s l c w = (false, w))
  ∧ (∀ msg, json_Unmarshal X msg = None →
     readLoop X (ReadMsg MessageText msg :: rest) s l c w
       = readLoop X rest s l c (logged (LogInvalidJSON u) w)
     ∧ readPump X [ReadMsg MessageText msg] s l c w = (false, logged (LogInvalidJSON u) w))
  ∧ (∀ msg packet, json_Unmarshal X msg = Some packet →
     let action := assertString (packet !! "type") in
     action ≠ "ready" → action ≠ "unready" → action ≠ "leave_lobby" → action ≠ "chat" →
     readLoop X (ReadMsg MessageText msg :: rest) s l c w
       = readLoop X rest s l c (logged (LogUnknownAction action u) w)
     ∧ readPump X [ReadMsg MessageText msg] s l c w
       = (false, logged (LogUnknownAction action u) w)).
Proof.
  intros Hc Hd u.
  assert (Hbin : ∀ rest' msg,
            readLoop X (ReadMsg MessageBinary msg :: rest') s l c w = readLoop X rest' s l c w).
  { intros rest' msg. simpl. unfold mbind at 1, M_bind at 1.
    rewrite (run_eta (c_Read _ _ _)), c_Read_eval, c_Read_exec, Hd. done. }
  assert (Hbad : ∀ rest' msg, json_Unmarshal X msg = None →
            readLoop X (ReadMsg MessageText msg :: rest') s l c w
            = readLoop X rest' s l c (logged (LogInvalidJSON u) w)).
  { intros rest' msg Hj. simpl. unfold mbind at 1, M_bind at 1.
    rewrite (run_eta (c_Read _ _ _)), c_Read_eval, c_Read_exec, Hd, Hj.
    unfold connUserID. unfold mbind at 1, M_bind at 1. simpl. rewrite Hc. done. }
  assert (Hunk : ∀ rest' msg packet, json_Unmarshal X msg = Some packet →
            let action := assertString (packet !! "type") in
            action ≠ "ready" → action ≠ "unready" → action ≠ "leave_lobby" → action ≠ "chat" →
            readLoop X (ReadMsg MessageText msg :: rest') s l c w
            = readLoop X rest' s l c (logged (LogUnknownAction action u) w)).
  { intros rest' msg packet Hj action H1 H2 H3 H4. simpl. unfold mbind at 1, M_bind at 1.
    rewrite (run_eta (c_Read _ _ _)), c_Read_eval, c_Read_exec, Hd, Hj.
    unfold mbind at 1, M_bind at 1.
    by rewrite (handle_unknown X packet l c w k Hc H1 H2 H3 H4). }
  split_and!.
  - intros msg. split; [apply Hbin|].
    rewrite (readPump_cons X _ [] s l c w w (Hbin [] msg)). by apply readPump_blocked.
  - intros msg Hj. split; [by apply Hbad|].
    rewrite (readPump_cons X _ [] s l c w _ (Hbad [] msg Hj)). by apply readPump_blocked.
  - intros msg packet Hj action H1 H2 H3 H4. split; [by apply Hunk|].
    rewrite (readPump_cons X _ [] s l c w _ (Hunk [] msg packet Hj H1 H2 H3 H4)).
    by apply readPump_blocked.
Qed.

(** ** The accept path *)

Lemma splitFrom_nonempty sep skip cur s : (1 ≤ List.length (splitFrom sep skip cur s))%nat.
Proof.
  revert skip cur. induction s as [|a s IH]; intros skip cur; cbn [splitFrom].
  - simpl. lia.
  - destruct skip; [|apply IH].
    destruct (String.prefix sep (String a s)); [simpl; lia | apply IH].
Qed.

Lemma strings_Split_nonempty s sep : Nat.ltb (List.length (strings_Split s sep)) 1 = false.
Proof. apply Nat.ltb_ge, splitFrom_nonempty. Qed.

Lemma LobbyWSHandler_upgraded X r reads w l :
  uuid_Parse X (lobbyIDStr r) = Some l →
  websocket_Accept X r = Some "lobby" →
  exec (LobbyWSHandler X r reads) w =
  let s := fresh (dom (socks w)) in
  let w1 := mkWorld (lobbies w) (conns w) (<[s := mkTransport "lobby" None []]> (socks w))
                    (trace w ++ [EvAccept s]) in
  exec (match AuthenticateJWT X (extractCookieToken X (HeaderCookie r) "auth_token") with
        | None =>
            logger LogInvalidToken ;;
            Close s StatusPolicyViolation "invalid auth_token"
        | Some userIDStr =>
            match uuid_Parse X userIDStr with
            | None =>
                logger LogInvalidUserID ;;
                Close s StatusPolicyViolation "invalid user ID"
            | Some userID =>
                emit (EvIsUserInLobby l userID) ;;
                let '(inLobby, dbErr) := IsUserInLobby X l userID in
                if dbErr : bool then
                  logger LogDBError ;;
                  Close s StatusInternalError "db error"
                else if negb inLobby then
                  logger LogNotInLobby ;;
                  Close s StatusPolicyViolation "user not in that lobby"
                else
                  '(ls, conn) ← registerConnection X s l userID ;
                  _ ← readPump X reads s ls conn ;
                  mret tt
            end
        end) w1.
Proof.
  intros Hl Ha. unfold LobbyWSHandler. rewrite strings_Split_nonempty.
  fold (lobbyIDStr r). rewrite Hl. unfold Accept. rewrite Ha.
  run. simpl. run. simpl. rewrite lookup_insert_eq. simpl. done.
Qed.

Ltac refuse_tac :=
  unfold logger, Close; run; unfold exec, emit, setSocks, modify, refused; simpl;
  rewrite alter_insert_eq; simpl; rewrite <- ?app_assoc; reflexivity.

(** C6.  After the upgrade, a failed token verification closes the
    connection with a policy-violation status, a database error of the
    membership check closes it with an internal-error status, and a negative
    membership check closes it with a policy-violation status; in each case
    the lobby registry and the connection heap are what they were, so the
    user is registered nowhere. *)
Theorem refused_upgrade_never_registers X r reads w l :
  uuid_Parse X (lobbyIDStr r) = Some l →
  websocket_Accept X r = Some "lobby" →
  let token := extractCookieToken X (HeaderCookie r) "auth_token" in
  let w' := exec (LobbyWSHandler X r reads) w in
  (AuthenticateJWT X token = None →
     w' = refused w StatusPolicyViolation "invalid auth_token" [EvLog LogInvalidToken])
  ∧ (∀ uidStr, AuthenticateJWT X token = Some uidStr → uuid_Parse X uidStr = None →
     w' = refused w StatusPolicyViolation "invalid user ID" [EvLog LogInvalidUserID])
  ∧ (∀ uidStr u inLobby,
     AuthenticateJWT X token = Some uidStr → uuid_Parse X uidStr = Some u →
     IsUserInLobby X l u = (inLobby, true) →
     w' = refused w StatusInternalError "db error" [EvIsUserInLobby l u; EvLog LogDBError])
  ∧ (∀ uidStr u,
     AuthenticateJWT X token = Some uidStr → uuid_Parse X uidStr = Some u →
     IsUserInLobby X l u = (false, false) →
     w' = refused w StatusPolicyViolation "user not in that lobby"
            [EvIsUserInLobby l u; EvLog LogNotInLobby])
  ∧ (∀ st reason evs,
     lobbies (refused w st reason evs) = lobbies w
     ∧ conns (refused w st reason evs) = conns w).
Proof.
  intros Hl Ha token w'. subst w'.
  rewrite (LobbyWSHandler_upgraded X r reads w l Hl Ha). fold token. cbv zeta.
  split_and!.
  - intros ->. refuse_tac.
  - intros uidStr -> ->. refuse_tac.
  - intros uidStr u inLobby -> -> ->. refuse_tac.
  - intros uidStr u -> -> ->. simpl. refuse_tac.
  - done.
Qed.

Lemma registerConnection_run X s l u w :
  registerConnection X s l u w =
  ((l, fresh (dom (conns w))), exec (BroadcastJoin l u) (beforeJoin X s l u w)).
Proof.
  unfold registerConnection, GetOrCreateLobbyState, lookupLobby, newLobbyConnection.
  rewrite run_eta. run. simpl.
  destruct (lobbies w !! l) as [ls|] eqn:Hl; run; simpl.
  - f_equal. f_equal. unfold writeConnection, writeReady, logger. run.
    unfold exec, emit, setLobbies, setConns, modify, beforeJoin, lobbyAtAccept; simpl.
    rewrite Hl; simpl. rewrite <- !app_assoc; simpl. f_equal.
    apply map_eq. intros l'. destruct (decide (l = l')) as [->|].
    + by rewrite !lookup_alter_eq, lookup_insert_eq, Hl.
    + by rewrite !lookup_alter_ne, lookup_insert_ne.
  - f_equal. f_equal. unfold writeConnection, writeReady, logger. run.
    unfold exec, emit, setLobbies, setConns, modify, beforeJoin, lobbyAtAccept; simpl.
    rewrite Hl; simpl. rewrite <- !app_assoc; simpl. f_equal.
    apply map_eq. intros l'. destruct (decide (l = l')) as [->|].
    + by rewrite !lookup_alter_eq, !lookup_insert_eq.
    + by rewrite !lookup_alter_ne, !lookup_insert_ne.
Qed.

Lemma fresh_conn_unused (w : World) : conns w !! fresh (dom (conns w)) = None.
Proof. apply not_elem_of_dom, is_fresh. Qed.

(** C7.  Registration of an accepted connection inserts the new
    connection into the lobby's connection map, sets the user's ready flag
    to false and then broadcasts "user joined" to the other participants,
    not to the joining user; when the user was already present the map entry
    is overwritten and the prior connection is neither cancelled nor closed. *)
Theorem registration_joins X s l u w :
  let ls0 := lobbyAtAccept X l w in
  let conn := fresh (dom (conns w)) in
  let w' := exec (registerConnection X s l u) w in
  (∀ u' c', Connections ls0 !! u' = Some c' → is_Some (conns w !! c')) →
  eval (registerConnection X s l u) w = (l, conn)
  ∧ ∃ ls' d,
      lobbies w' !! l = Some ls'
      ∧ Connections ls' = <[u := conn]> (Connections ls0)
      ∧ ReadyStates ls' = <[u := false]> (ReadyStates ls0)
      ∧ conns w !! conn = None
      ∧ conns w' !! conn = Some (mkConn u false [])
      ∧ socks w' = socks w
      ∧ trace w' = trace w
          ++ [EvCall l CallGetOrCreateLobbyState; EvSetConnection l u conn;
              EvSetReady l u false; EvLog (LogConnected u l); EvGoWritePump s conn;
              EvCall l (CallBroadcastJoin u); EvLock l]
          ++ d ++ [EvUnlock l]
      ∧ (∀ e, e ∈ d → ∃ c', e = EvEnqueue c' (MsgUserJoined u) ∨ e = EvDrop c' (MsgUserJoined u))
      ∧ (∀ u' c' k', u' ≠ u → Connections ls0 !! u' = Some c' → conns w !! c' = Some k' →
           (EvEnqueue c' (MsgUserJoined u) ∈ d ∨ EvDrop c' (MsgUserJoined u) ∈ d)
           ∧ ∃ q, conns w' !! c' = Some (mkConn (UserID k') (ctxDone k') (OutChan k' ++ q))
                  ∧ (List.length (OutChan k') < OutChanCap → MsgUserJoined u ∈ q))
      ∧ (∀ m, EvEnqueue conn m ∉ d)
      ∧ (∀ c0 k0, Connections ls0 !! u = Some c0 → conns w !! c0 = Some k0 →
           c0 ≠ conn
           ∧ Connections ls' !! u = Some conn
           ∧ ∃ q, conns w' !! c0 = Some (mkConn (UserID k0) (ctxDone k0) (OutChan k0 ++ q))).
Proof.
  intros ls0 conn w' Hclosed. subst w'. unfold eval, exec.
  rewrite registerConnection_run. simpl. split; [done|].
  set (w1 := beforeJoin X s l u w).
  set (ls1 := mkLobby (LobbyID ls0) (<[u := conn]> (Connections ls0))
                      (<[u := false]> (ReadyStates ls0)) (AutoStart ls0) (Countdown ls0)).
  assert (Hl1 : lobbies w1 !! l = Some ls1) by (subst w1; simpl; apply lookup_insert_eq).
  assert (Hfresh : conns w !! conn = None) by apply fresh_conn_unused.
  assert (Hold : ∀ c k, conns w !! c = Some k → conns w1 !! c = Some k).
  { intros c k Hk. subst w1. simpl. rewrite lookup_insert_ne; [done|].
    intros <-. fold conn in Hk. congruence. }
  destruct (BroadcastJoin_spec l u w1 ls1 Hl1) as [L S A Q (d & T & E & R)].
  assert (Hnot : conn ∉ recipientsOf (Some u) ls1).
  { intros (u' & Hu' & Hne)%elem_of_recipientsOf. simpl in Hu'.
    rewrite lookup_insert_ne in Hu' by congruence.
    destruct (Hclosed u' conn Hu') as [k Hk]. congruence. }
  exists ls1, d. split_and!.
  - by rewrite L.
  - done.
  - done.
  - done.
  - destruct (Q conn (mkConn u false [])) as (q & Hq & _ & Hn & _).
    { subst w1. simpl. apply lookup_insert_eq. }
    rewrite Hq, (Hn Hnot). done.
  - by rewrite S.
  - rewrite T. subst w1. simpl. by rewrite <- !app_assoc.
  - intros e He. destruct (E e He) as (c' & _ & Hc'). by exists c'.
  - intros u' c' k' Hne Hu' Hk'.
    assert (Hin : c' ∈ recipientsOf (Some u) ls1).
    { apply elem_of_recipientsOf. exists u'. simpl.
      rewrite lookup_insert_ne by done. split; [done | congruence]. }
    split.
    + apply R; [done|]. exists k'. by apply Hold.
    + destruct (Q c' k' (Hold _ _ Hk')) as (q & Hq & _ & _ & Hm).
      exists q. split; [done|]. intros Hlt. by apply Hm.
  - intros m Hin. destruct (E _ Hin) as (c' & Hc' & [Heq|Heq]); [|done].
    injection Heq as -> _. done.
  - intros c0 k0 Hu0 Hk0. split_and!.
    + intros ->. congruence.
    + simpl. apply lookup_insert_eq.
    + destruct (Q c0 k0 (Hold _ _ Hk0)) as (q & Hq & _). by exists q.
Qed.

(** ** Dispatch of leave_lobby and chat *)

Lemma sameState_trySend m c w1 w2 :
  sameState w1 w2 → sameState (exec (trySend m c) w1) (exec (trySend m c) w2).
Proof.
  intros (HL & HC & HS). unfold trySend. run. rewrite HC.
  destruct (conns w2 !! c) as [k|]; [|done].
  destruct (Nat.ltb _ _); unfold sameState; simpl; by rewrite ?HL, ?HC, ?HS.
Qed.

Lemma sameState_forM m cs w1 w2 :
  sameState w1 w2 →
  sameState (exec (forM_ (trySend m) cs) w1) (exec (forM_ (trySend m) cs) w2).
Proof.
  revert w1 w2. induction cs as [|c cs IH]; intros w1 w2 H; simpl; [done|].
  rewrite !exec_bind. by apply IH, sameState_trySend.
Qed.

Lemma sameState_BroadcastLeave l u w1 w2 :
  sameState w1 w2 →
  sameState (exec (BroadcastLeave l u) w1) (exec (BroadcastLeave l u) w2).
Proof.
  intros H. unfold BroadcastLeave, withLock, broadcast, lookupLobby. run. simpl.
  destruct H as (HL & HC & HS). rewrite HL.
  destruct (lobbies w2 !! l) as [ls|]; [|done].
  pose proof (sameState_forM (MsgUserLeft u) (recipientsOf None ls)
                (exec (emit (EvLock l)) (exec (emit (EvCall l (CallBroadcastLeave u))) w1))
                (exec (emit (EvLock l)) (exec (emit (EvCall l (CallBroadcastLeave u))) w2)))
    as (HL' & HC' & HS'); [done|].
  unfold sameState. simpl. by rewrite HL', HC', HS'.
Qed.

Lemma exec_congr {A} (m1 m2 : M A) (w : World) : m1 w = m2 w → exec m1 w = exec m2 w.
Proof. unfold exec. by intros ->. Qed.

Lemma handle_leave_unfold X packet l c w k :
  packet !! "type" = Some (JString "leave_lobby") →
  conns w !! c = Some k →
  handleLobbyMessage X packet l c w =
  (emit (EvRemoveUserFromLobby (UserID k) l) ;;
   (if RemoveUserFromLobby X (UserID k) l then logger (LogRemoveFailed (UserID k)) else mret tt) ;;
   BroadcastLeave l (UserID k) ;;
   Cancel c) w.
Proof.
  intros Ht Hc. unfold handleLobbyMessage, connUserID.
  unfold mbind at 1, M_bind at 1. unfold mbind at 1, M_bind at 1. simpl.
  rewrite Ht, Hc. simpl. done.
Qed.

(** C8.  A connected participant sends "leave_lobby": the persisted
    membership removal is invoked; when it fails the failure is logged, and
    in both cases the "user left" broadcast and the cancellation of the
    connection follow; the resulting lobby, connection and transport state
    does not depend on the outcome of the persistence call. *)
Theorem dispatch_leave_lobby X packet l c w ls k :
  packet !! "type" = Some (JString "leave_lobby") →
  lobbies w !! l = Some ls →
  conns w !! c = Some k →
  Connections ls !! UserID k = Some c →
  let u := UserID k in
  let w' := exec (handleLobbyMessage X packet l c) w in
  (∃ d k',
     trace w' = trace w
       ++ [EvRemoveUserFromLobby u l]
       ++ (if RemoveUserFromLobby X u l then [EvLog (LogRemoveFailed u)] else [])
       ++ [EvCall l (CallBroadcastLeave u); EvLock l] ++ d ++ [EvUnlock l; EvCancel c]
     ∧ (∀ u' c', Connections ls !! u' = Some c' → is_Some (conns w !! c') →
          EvEnqueue c' (MsgUserLeft u) ∈ d ∨ EvDrop c' (MsgUserLeft u) ∈ d)
     ∧ conns w' !! c = Some k' ∧ ctxDone k' = true)
  ∧ (∀ X', sameState w' (exec (handleLobbyMessage X' packet l c) w)).
Proof.
  intros Ht Hl Hc Hconn u w'. subst w'.
  assert (Hrun : ∀ Y, exec (handleLobbyMessage Y packet l c) w =
            exec (Cancel c) (exec (BroadcastLeave l u)
              (exec (if RemoveUserFromLobby Y u l then logger (LogRemoveFailed u) else mret tt)
                 (exec (emit (EvRemoveUserFromLobby u l)) w)))).
  { intros Y. rewrite (exec_congr _ _ _ (handle_leave_unfold Y packet l c w k Ht Hc)).
    by run. }
  split.
  - rewrite Hrun.
    set (w1 := exec (if RemoveUserFromLobby X u l then logger (LogRemoveFailed u) else mret tt)
                 (exec (emit (EvRemoveUserFromLobby u l)) w)).
    assert (Hl1 : lobbies w1 = lobbies w) by (subst w1; by destruct (RemoveUserFromLobby X u l)).
    assert (Hc1 : conns w1 = conns w) by (subst w1; by destruct (RemoveUserFromLobby X u l)).
    assert (Ht1 : trace w1 = trace w ++ [EvRemoveUserFromLobby u l]
                    ++ (if RemoveUserFromLobby X u l then [EvLog (LogRemoveFailed u)] else [])).
    { subst w1. destruct (RemoveUserFromLobby X u l); simpl; by rewrite <- ?app_assoc, ?app_nil_r. }
    destruct (BroadcastLeave_spec l u w1 ls) as [L S A Q (d & T & E & R)]; [by rewrite Hl1|].
    destruct (Q c k) as (q & Hq & _); [by rewrite Hc1|].
    exists d. eexists. split_and!.
    + unfold Cancel. run. simpl. rewrite T, Ht1. by rewrite <- !app_assoc.
    + intros u' c' Hu' Hs. apply R; [|by rewrite Hc1].
      apply elem_of_recipientsOf. by exists u'.
    + unfold Cancel. run. simpl. rewrite lookup_alter_eq, Hq. simpl. reflexivity.
    + done.
  - intros X'. rewrite !Hrun.
    assert (Hs : sameState
              (exec (if RemoveUserFromLobby X u l then logger (LogRemoveFailed u) else mret tt)
                 (exec (emit (EvRemoveUserFromLobby u l)) w))
              (exec (if RemoveUserFromLobby X' u l then logger (LogRemoveFailed u) else mret tt)
                 (exec (emit (EvRemoveUserFromLobby u l)) w))).
    { by destruct (RemoveUserFromLobby X u l), (RemoveUserFromLobby X' u l). }
    apply (sameState_BroadcastLeave l u) in Hs. destruct Hs as (HL & HC & HS).
    unfold Cancel. run. unfold sameState. simpl. by rewrite HL, HC, HS.
Qed.

Lemma assertString_not_string (v : option JSON) :
  (∀ s, v ≠ Some (JString s)) → assertString v = EmptyString.
Proof.
  intros H. destruct v as [[]|]; simpl; try done. by destruct (H s).
Qed.

Lemma handle_chat_unfold X packet l c w k :
  packet !! "type" = Some (JString "chat") →
  conns w !! c = Some k →
  handleLobbyMessage X packet l c w
  = (BroadcastChat l (UserID k) (assertString (packet !! "msg"))) w.
Proof.
  intros Ht Hc. unfold handleLobbyMessage, connUserID.
  unfold mbind at 1, M_bind at 1. unfold mbind at 1, M_bind at 1. simpl.
  rewrite Ht, Hc. simpl. done.
Qed.

(** C10.  A "chat" message whose "msg" field is absent or not a string is
    neither rejected nor ignored: the dispatcher calls [BroadcastChat] for
    the sender with the empty string, and every other participant gets that
    chat event enqueued (or dropped when its queue is full). *)
Theorem dispatch_chat_without_text X packet l c w ls k :
  packet !! "type" = Some (JString "chat") →
  (∀ s, packet !! "msg" ≠ Some (JString s)) →
  lobbies w !! l = Some ls →
  conns w !! c = Some k →
  let u := UserID k in
  let w' := exec (handleLobbyMessage X packet l c) w in
  handleLobbyMessage X packet l c w = BroadcastChat l u EmptyString w
  ∧ lobbies w' = lobbies w
  ∧ ∃ d,
      trace w' = trace w ++ [EvCall l (CallBroadcastChat u EmptyString); EvLock l]
                         ++ d ++ [EvUnlock l]
      ∧ (∀ e, e ∈ d → ∃ c', e = EvEnqueue c' (MsgChat u EmptyString)
                            ∨ e = EvDrop c' (MsgChat u EmptyString))
      ∧ (∀ u' c' k', u' ≠ u → Connections ls !! u' = Some c' → conns w !! c' = Some k' →
           (EvEnqueue c' (MsgChat u EmptyString) ∈ d ∨ EvDrop c' (MsgChat u EmptyString) ∈ d)
           ∧ ∃ q, conns w' !! c' = Some (mkConn (UserID k') (ctxDone k') (OutChan k' ++ q))
                  ∧ (List.length (OutChan k') < OutChanCap → MsgChat u EmptyString ∈ q)).
Proof.
  intros Ht Hm Hl Hc u w'. subst w'.
  assert (Heq : handleLobbyMessage X packet l c w = BroadcastChat l u EmptyString w).
  { rewrite (handle_chat_unfold X packet l c w k Ht Hc).
    by rewrite (assertString_not_string _ Hm). }
  split; [exact Heq|]. rewrite (exec_congr _ _ _ Heq).
  destruct (BroadcastChat_spec l u EmptyString w ls Hl) as [L S A Q (d & T & E & R)].
  split; [done|]. exists d. split_and!.
  - done.
  - intros e He. destruct (E e He) as (c' & _ & Hc'). by exists c'.
  - intros u' c' k' Hne Hu' Hk'.
    assert (Hin : c' ∈ recipientsOf (Some u) ls).
    { apply elem_of_recipientsOf. exists u'. split; [done | congruence]. }
    split.
    + apply R; [done | by exists k'].
    + destruct (Q c' k' Hk') as (q & Hq & _ & _ & Hq'). exists q. split; [done|].
      intros Hlt. by apply Hq'.
Qed.

(** ** The write task *)

Lemma c_Write_run s c data ok w :
  c_Write s c data ok w =
  if connDead s c w || negb ok then (false, w) else (true, wrote s data w).
Proof.
  unfold c_Write. unfold mbind at 1, M_bind at 1. simpl.
  by destruct (connDead s c w || negb ok).
Qed.

Lemma connDead_dequeued s c k q w :
  conns w !! c = Some k → connDead s c (dequeued c k q w) = connDead s c w.
Proof.
  intros Hc. unfold connDead, dequeued. simpl. by rewrite lookup_insert_eq, Hc.
Qed.

Lemma writePump_done X st rest s c w k :
  conns w !! c = Some k →
  ctxDone k = true → OutChan k = [] ∨ pickDone st = true →
  writePump X (st :: rest) s c w = (true, w).
Proof.
  intros Hc Hdone Hsel. simpl. unfold mbind at 1, M_bind at 1. simpl. rewrite Hc.
  destruct (OutChan k) as [|msg q]; [by rewrite Hdone|].
  destruct Hsel as [?| ->]; [done|]. by rewrite Hdone.
Qed.

Lemma writePump_recv X st rest s c w k msg q data :
  conns w !! c = Some k →
  OutChan k = msg :: q →
  ctxDone k && pickDone st = false →
  json_Marshal X msg = Some data →
  writePump X (st :: rest) s c w =
  if connDead s c w || negb (netOK st)
  then (true, logged LogWriteFailed (dequeued c k q w))
  else writePump X rest s c (wrote s data (dequeued c k q w)).
Proof.
  intros Hc Hq Hsel Hm.
  assert (Hstep : writePump X (st :: rest) s c w =
            (ok ← c_Write s c data (netOK st) ;
             if ok : bool then writePump X rest s c
             else logger LogWriteFailed ;; mret true) (dequeued c k q w)).
  { simpl. unfold mbind at 1, M_bind at 1. simpl. rewrite Hc, Hq, Hsel.
    unfold mbind at 1, M_bind at 1. simpl. by rewrite Hm. }
  rewrite Hstep. unfold mbind at 1, M_bind at 1. rewrite c_Write_run.
  rewrite (connDead_dequeued s c k q w Hc). by destruct (_ || _).
Qed.

(** C9.  When the [select] of the write task takes the cancellation
    case the task returns and the outbound queue is left as it is; a
    dequeued item is serialised and written to the transport, after which
    the loop goes on; a failed write makes the task return.  (An item that
    cannot be serialised is logged and skipped.)  With a cancelled context
    the task returns within the iteration. *)
Theorem writePump_select X st rest s c w k :
  conns w !! c = Some k →
  (ctxDone k = true → OutChan k = [] ∨ pickDone st = true →
     writePump X (st :: rest) s c w = (true, w))
  ∧ (∀ msg q data,
       OutChan k = msg :: q →
       ctxDone k && pickDone st = false →
       json_Marshal X msg = Some data →
       (connDead s c w = false → netOK st = true →
          writePump X (st :: rest) s c w
          = writePump X rest s c (wrote s data (dequeued c k q w)))
       ∧ (connDead s c w = true ∨ netOK st = false →
          writePump X (st :: rest) s c w
          = (true, logged LogWriteFailed (dequeued c k q w))))
  ∧ (∀ msg q,
       OutChan k = msg :: q →
       ctxDone k && pickDone st = false →
       json_Marshal X msg = None →
       writePump X (st :: rest) s c w
       = writePump X rest s c (logged LogMarshalFailed (dequeued c k q w)))
  ∧ (ctxDone k = true →
     (∀ msg q, OutChan k = msg :: q → is_Some (json_Marshal X msg)) →
     eval (writePump X (st :: rest) s c) w = true
     ∧ socks (exec (writePump X (st :: rest) s c) w) = socks w).
Proof.
  intros Hc. split_and!.
  - by apply writePump_done.
  - intros msg q data Hq Hsel Hm.
    rewrite (writePump_recv X st rest s c w k msg q data Hc Hq Hsel Hm). split.
    + intros Hd Hn. by rewrite Hd, Hn.
    + intros [Hd | Hn]; [by rewrite Hd|]. by rewrite Hn, orb_true_r.
  - intros msg q Hq Hsel Hm. simpl. unfold mbind at 1, M_bind at 1. simpl.
    rewrite Hc, Hq, Hsel. unfold mbind at 1, M_bind at 1. simpl. by rewrite Hm.
  - intros Hcancel Hmarshal. unfold eval, exec.
    destruct (OutChan k) as [|msg q] eqn:Hq.
    { rewrite (writePump_done X st rest s c w k Hc Hcancel); auto. }
    destruct (pickDone st) eqn:Hp.
    { rewrite (writePump_done X st rest s c w k Hc Hcancel); auto. }
    destruct (Hmarshal msg q eq_refl) as [data Hdata].
    rewrite (writePump_recv X st rest s c w k msg q data Hc Hq); [|by rewrite Hcancel, Hp|done].
    assert (Hd : connDead s c w = true).
    { unfold connDead. rewrite Hc. simpl. by rewrite Hcancel. }
    by rewrite Hd.
Qed.

(** ** Lock discipline *)

Lemma handle_readiness_unfold X p l c w (b : bool) :
  let uid := eval (connUserID c) w in
  ∃ rest : M unit,
    keeps (λ _, True) rest
    ∧ exec (handleLobbyMessage X (<["type" := JString (if b then "ready" else "unready")]> p) l c) w
      = exec rest (exec (writeReady l uid b) w).
Proof.
  intros uid. destruct b.
  - exists (BroadcastReadyState l uid true ;;
            ols ← lookupLobby l ;
            if default false (AutoStart <$> ols) then
              all ← AreAllReady l ;
              if all : bool then StartCountdown l 10 else mret tt
            else mret tt).
    split.
    + apply keeps_bind; [by apply keeps_BroadcastReadyState | intros _].
      apply keeps_bind; [keeps_go | intros ols].
      destruct (default false (AutoStart <$> ols)); [|apply keeps_ret].
      apply keeps_bind; [by apply keeps_AreAllReady | intros [|]];
        [by apply keeps_StartCountdown | apply keeps_ret].
    + unfold handleLobbyMessage. rewrite exec_bind.
      change (exec (connUserID c) w) with w. fold uid.
      rewrite lookup_insert_eq. simpl. by rewrite exec_bind.
  - exists (BroadcastReadyState l uid false ;; CancelCountdown l).
    split.
    + apply keeps_bind; [by apply keeps_BroadcastReadyState | intros _].
      by apply keeps_CancelCountdown.
    + unfold handleLobbyMessage. rewrite exec_bind.
      change (exec (connUserID c) w) with w. fold uid.
      rewrite lookup_insert_eq. simpl. by rewrite exec_bind.
Qed.

(** C5, evaluated on the code.  The accept path and the dispatch of
    "ready" and "unready" write the Lobby State's maps while no lock is
    held: the trace they produce breaks the lock discipline. *)
Theorem handlers_write_maps_without_lock :
  (∀ X s l u w,
     ∃ d, trace (exec (registerConnection X s l u) w) = trace w ++ d
          ∧ writesUnderLock [] d = false)
  ∧ (∀ X p l c w (b : bool),
     ∃ d, trace (exec (handleLobbyMessage X
                         (<["type" := JString (if b then "ready" else "unready")]> p) l c) w)
          = trace w ++ d
          ∧ writesUnderLock [] d = false).
Proof.
  split.
  - intros X s l u w. unfold exec at 1. rewrite registerConnection_run. simpl.
    destruct (keeps_BroadcastJoin (λ _, True) (λ _ _, I) l u (beforeJoin X s l u w))
      as [_ _ _ (d & T & _)].
    eexists. split.
    + rewrite T. simpl. rewrite <- app_assoc. reflexivity.
    + reflexivity.
  - intros X p l c w b.
    destruct (handle_readiness_unfold X p l c w b) as (rest & Hk & ->).
    destruct (Hk (exec (writeReady l (eval (connUserID c) w) b) w)) as [_ _ _ (d & T & _)].
    eexists. split.
    + rewrite T. unfold writeReady. run. simpl. rewrite <- app_assoc. reflexivity.
    + reflexivity.
Qed.

(** The operations of the Lobby State itself keep the discipline. *)
Lemma StartCountdown_writes_under_lock l n w ls :
  lobbies w !! l = Some ls →
  ∃ d, trace (exec (StartCountdown l n) w) = trace w ++ d
       ∧ writesUnderLock [] d = true.
Proof.
  intros Hl. rewrite (StartCountdown_exec l n w ls Hl). simpl. eexists. split; [done|].
  destruct (Countdown ls); simpl; by rewrite ?N.eqb_refl.
Qed.

(** ** The theorems at the concrete lobby *)

Lemma dispatch_ready_witness :
  ({[ "type" := JString "ready" ]} : gmap string JSON) !! "type" = Some (JString "ready")
  ∧ lobbies demoWorld !! 7%N = Some demoLobby
  ∧ conns demoWorld !! 0 = Some alice
  ∧ Connections demoLobby !! UserID alice = Some 0
  ∧ ∃ ls', lobbies (exec (handleLobbyMessage demoX {[ "type" := JString "ready" ]} 7%N 0)
                      demoWorld) !! 7%N = Some ls'
           ∧ ReadyStates ls' !! 1%N = Some true
           ∧ Countdown ls' = Some 10.
Proof.
  assert (H1 : ({[ "type" := JString "ready" ]} : gmap string JSON) !! "type"
               = Some (JString "ready")) by reflexivity.
  assert (H2 : lobbies demoWorld !! 7%N = Some demoLobby) by reflexivity.
  assert (H3 : conns demoWorld !! 0 = Some alice) by reflexivity.
  assert (H4 : Connections demoLobby !! UserID alice = Some 0) by reflexivity.
  split_and!; try assumption.
  destruct (dispatch_ready demoX _ _ _ _ _ _ H1 H2 H3 H4)
    as (ls' & d & Hl & Hc & Hr & _ & _ & Hstart & _).
  exists ls'. split; [exact Hl|]. split.
  - rewrite Hr. reflexivity.
  - refine (proj2 (Hstart eq_refl _)). intros u' c'. rewrite Hc, Hr.
    simpl. intros Hu'.
    destruct (decide (u' = 1%N)) as [->|]; [reflexivity|].
    destruct (decide (u' = 2%N)) as [->|]; [reflexivity|].
    exfalso. rewrite lookup_insert_ne, lookup_singleton_ne in Hu' by done. done.
Defined.

Lemma dispatch_unready_witness :
  ({[ "type" := JString "unready" ]} : gmap string JSON) !! "type" = Some (JString "unready")
  ∧ lobbies demoCounting !! 7%N = Some demoLobbyCounting
  ∧ conns demoCounting !! 1 = Some bob
  ∧ Connections demoLobbyCounting !! UserID bob = Some 1
  ∧ ∃ ls', lobbies (exec (handleLobbyMessage demoX {[ "type" := JString "unready" ]} 7%N 1)
                      demoCounting) !! 7%N = Some ls'
           ∧ ReadyStates ls' !! 2%N = Some false
           ∧ Countdown ls' = None.
Proof.
  assert (H1 : ({[ "type" := JString "unready" ]} : gmap string JSON) !! "type"
               = Some (JString "unready")) by reflexivity.
  assert (H2 : lobbies demoCounting !! 7%N = Some demoLobbyCounting) by reflexivity.
  assert (H3 : conns demoCounting !! 1 = Some bob) by reflexivity.
  assert (H4 : Connections demoLobbyCounting !! UserID bob = Some 1) by reflexivity.
  split_and!; try assumption.
  destruct (dispatch_unready demoX _ _ _ _ _ _ H1 H2 H3 H4)
    as (ls' & d & d' & Hl & _ & Hr & Hcd & _).
  exists ls'. split; [exact Hl|]. split; [|exact Hcd].
  rewrite Hr. reflexivity.
Defined.

Lemma readPump_unregisters_once_witness :
  lobbies demoWorld !! 7%N = Some demoLobby
  ∧ conns demoWorld !! 0 = Some alice
  ∧ socks demoWorld !! 0 = Some (mkTransport "lobby" None [])
  ∧ eval (readPump demoX [ReadMsg MessageText "{type:ready}"; ReadErr] 0 7%N 0) demoWorld = true
  ∧ ∃ d, trace (exec (readPump demoX [ReadMsg MessageText "{type:ready}"; ReadErr] 0 7%N 0)
                  demoWorld)
         = d ++ [EvCancel 0; EvClose 0 StatusNormalClosure "closing"]
         ∧ List.filter isUnregister d = [EvCall 7%N (CallRemoveUser 1%N)].
Proof.
  assert (H1 : lobbies demoWorld !! 7%N = Some demoLobby) by reflexivity.
  assert (H2 : conns demoWorld !! 0 = Some alice) by reflexivity.
  assert (H3 : socks demoWorld !! 0 = Some (mkTransport "lobby" None [])) by reflexivity.
  destruct (readPump_unregisters_once demoX
              [ReadMsg MessageText "{type:ready}"; ReadErr] 0 7%N 0 _ _ _ _ H1 H2 H3)
    as (Herr & Hexit & _).
  assert (H4 : eval (readPump demoX [ReadMsg MessageText "{type:ready}"; ReadErr] 0 7%N 0)
                 demoWorld = true).
  { apply Herr. apply list_elem_of_further, list_elem_of_here. }
  split_and!; try assumption.
  destruct (Hexit H4) as (ls' & k' & t' & d & _ & _ & _ & _ & _ & _ & _ & Ht & Hf).
  exists d. split; [exact Ht | exact Hf].
Defined.

Lemma bad_frames_do_not_terminate_witness :
  conns demoWorld !! 0 = Some alice
  ∧ connDead 0 0 demoWorld = false
  ∧ readPump demoX [ReadMsg MessageBinary "zz"] 0 7%N 0 demoWorld = (false, demoWorld)
  ∧ readPump demoX [ReadMsg MessageText "not json"] 0 7%N 0 demoWorld
    = (false, logged (LogInvalidJSON 1) demoWorld)
  ∧ readPump demoX [ReadMsg MessageText "{type:dance}"] 0 7%N 0 demoWorld
    = (false, logged (LogUnknownAction "dance" 1) demoWorld).
Proof.
  assert (H1 : conns demoWorld !! 0 = Some alice) by reflexivity.
  assert (H2 : connDead 0 0 demoWorld = false) by reflexivity.
  destruct (bad_frames_do_not_terminate demoX 0 7%N 0 demoWorld alice [] H1 H2)
    as (Hbin & Hbad & Hunk).
  split_and!; try assumption.
  - exact (proj2 (Hbin "zz")).
  - refine (proj2 (Hbad "not json" _)). reflexivity.
  - assert (Hj : json_Unmarshal demoX "{type:dance}" = Some {[ "type" := JString "dance" ]})
      by reflexivity.
    assert (Ha : assertString (({[ "type" := JString "dance" ]} : gmap string JSON) !! "type")
                 = "dance") by reflexivity.
    pose proof (Hunk "{type:dance}" _ Hj) as Hu. cbv zeta in Hu. rewrite Ha in Hu.
    apply Hu; discriminate.
Defined.

Lemma refused_upgrade_never_registers_witness :
  uuid_Parse demoX (lobbyIDStr (demoRequest "forged")) = Some 7%N
  ∧ websocket_Accept demoX (demoRequest "forged") = Some "lobby"
  ∧ exec (LobbyWSHandler demoX (demoRequest "forged") []) demoWorld
    = refused demoWorld StatusPolicyViolation "invalid auth_token" [EvLog LogInvalidToken]
  ∧ exec (LobbyWSHandler demoX (demoRequest "token-carol") []) demoWorld
    = refused demoWorld StatusPolicyViolation "user not in that lobby"
        [EvIsUserInLobby 7 3; EvLog LogNotInLobby]
  ∧ exec (LobbyWSHandler demoX (mkRequest "/lobby/ws/lobby9" "auth_token=token-alice") [])
         demoWorld
    = refused demoWorld StatusInternalError "db error" [EvIsUserInLobby 9 1; EvLog LogDBError]
  ∧ lobbies (refused demoWorld StatusPolicyViolation "invalid auth_token" [EvLog LogInvalidToken])
    = lobbies demoWorld.
Proof.
  assert (H1 : uuid_Parse demoX (lobbyIDStr (demoRequest "forged")) = Some 7%N) by reflexivity.
  assert (H2 : websocket_Accept demoX (demoRequest "forged") = Some "lobby") by reflexivity.
  split_and!; try assumption.
  - refine (proj1 (refused_upgrade_never_registers demoX _ [] demoWorld 7%N H1 H2) _).
    reflexivity.
  - assert (H3 : uuid_Parse demoX (lobbyIDStr (demoRequest "token-carol")) = Some 7%N)
      by reflexivity.
    destruct (refused_upgrade_never_registers demoX (demoRequest "token-carol") [] demoWorld
                7%N H3 H2) as (_ & _ & _ & Hout & _).
    apply (Hout "carol" 3%N); reflexivity.
  - assert (H3 : uuid_Parse demoX
                   (lobbyIDStr (mkRequest "/lobby/ws/lobby9" "auth_token=token-alice"))
                 = Some 9%N) by reflexivity.
    destruct (refused_upgrade_never_registers demoX
                (mkRequest "/lobby/ws/lobby9" "auth_token=token-alice") [] demoWorld
                9%N H3 H2) as (_ & _ & Hdb & _).
    apply (Hdb "alice" 1%N false); reflexivity.
  - reflexivity.
Defined.

Lemma registration_joins_witness :
  (∀ u' c', Connections (lobbyAtAccept demoX 7 demoWorld) !! u' = Some c' →
            is_Some (conns demoWorld !! c'))
  ∧ eval (registerConnection demoX 2 7%N 1%N) demoWorld = (7%N, 2)
  ∧ ∃ ls' k0,
      lobbies (exec (registerConnection demoX 2 7%N 1%N) demoWorld) !! 7%N = Some ls'
      ∧ Connections ls' !! 1%N = Some 2
      ∧ conns (exec (registerConnection demoX 2 7%N 1%N) demoWorld) !! 0 = Some k0
      ∧ ctxDone k0 = false.
Proof.
  assert (H1 : ∀ u' c', Connections (lobbyAtAccept demoX 7 demoWorld) !! u' = Some c' →
                        is_Some (conns demoWorld !! c')).
  { intros u' c'. change (Connections (lobbyAtAccept demoX 7 demoWorld))
      with ({[ 1%N := 0; 2%N := 1 ]} : gmap N nat).
    intros Hu'.
    destruct (decide (u' = 1%N)) as [->|];
      [injection Hu' as <-; by eexists|].
    destruct (decide (u' = 2%N)) as [->|];
      [injection Hu' as <-; by eexists|].
    rewrite lookup_insert_ne, lookup_singleton_ne in Hu' by done. done. }
  destruct (registration_joins demoX 2 7%N 1%N demoWorld H1)
    as (He & ls' & d & Hl & Hc & _ & _ & _ & _ & _ & _ & _ & _ & Hover).
  split_and!; [exact H1 | exact He |].
  destruct (Hover 0 alice) as (_ & Hnew & q & Hq); [reflexivity | reflexivity |].
  exists ls'. eexists. split_and!; [exact Hl | exact Hnew | exact Hq | reflexivity].
Defined.

Lemma dispatch_leave_lobby_witness :
  ({[ "type" := JString "leave_lobby" ]} : gmap string JSON) !! "type"
    = Some (JString "leave_lobby")
  ∧ lobbies demoWorld !! 7%N = Some demoLobby
  ∧ conns demoWorld !! 1 = Some bob
  ∧ Connections demoLobby !! UserID bob = Some 1
  ∧ RemoveUserFromLobby demoX 2 7 = true
  ∧ ∃ d k',
      trace (exec (handleLobbyMessage demoX {[ "type" := JString "leave_lobby" ]} 7%N 1)
               demoWorld)
      = [EvRemoveUserFromLobby 2 7; EvLog (LogRemoveFailed 2);
         EvCall 7 (CallBroadcastLeave 2); EvLock 7] ++ d ++ [EvUnlock 7; EvCancel 1]
      ∧ conns (exec (handleLobbyMessage demoX {[ "type" := JString "leave_lobby" ]} 7%N 1)
                 demoWorld) !! 1 = Some k'
      ∧ ctxDone k' = true.
Proof.
  assert (H1 : ({[ "type" := JString "leave_lobby" ]} : gmap string JSON) !! "type"
               = Some (JString "leave_lobby")) by reflexivity.
  assert (H2 : lobbies demoWorld !! 7%N = Some demoLobby) by reflexivity.
  assert (H3 : conns demoWorld !! 1 = Some bob) by reflexivity.
  assert (H4 : Connections demoLobby !! UserID bob = Some 1) by reflexivity.
  split_and!; try assumption; [reflexivity|].
  destruct (dispatch_leave_lobby demoX _ _ _ _ _ _ H1 H2 H3 H4)
    as ((d & k' & Ht & _ & Hk & Hdone) & _).
  exists d, k'. split_and!; [exact Ht | exact Hk | exact Hdone].
Defined.

Lemma writePump_select_witness :
  conns demoWorld !! 1 = Some bob
  ∧ conns demoCancelled !! 1 = Some (mkConn 2 true [MsgUserJoined 1])
  ∧ writePump demoX [mkWriteStep true true] 1 1 demoCancelled = (true, demoCancelled)
  ∧ writePump demoX [mkWriteStep false true] 1 1 demoWorld
    = (false, wrote 1 "event" (dequeued 1 bob [] demoWorld))
  ∧ writePump demoX [mkWriteStep false false] 1 1 demoWorld
    = (true, logged LogWriteFailed (dequeued 1 bob [] demoWorld)).
Proof.
  assert (H1 : conns demoWorld !! 1 = Some bob) by reflexivity.
  assert (H2 : conns demoCancelled !! 1 = Some (mkConn 2 true [MsgUserJoined 1]))
    by reflexivity.
  split_and!; try assumption.
  - refine (proj1 (writePump_select demoX (mkWriteStep true true) [] 1 1 demoCancelled _ H2)
              eq_refl _). by right.
  - destruct (writePump_select demoX (mkWriteStep false true) [] 1 1 demoWorld _ H1)
      as (_ & Hrecv & _).
    destruct (Hrecv (MsgUserJoined 1) [] "event" eq_refl eq_refl eq_refl) as (Hok & _).
    rewrite Hok; reflexivity.
  - destruct (writePump_select demoX (mkWriteStep false false) [] 1 1 demoWorld _ H1)
      as (_ & Hrecv & _).
    destruct (Hrecv (MsgUserJoined 1) [] "event" eq_refl eq_refl eq_refl) as (_ & Hfail).
    apply Hfail. by right.
Defined.

Lemma dispatch_chat_without_text_witness :
  (<[ "msg" := JNumber "7" ]> {[ "type" := JString "chat" ]} : gmap string JSON) !! "type"
    = Some (JString "chat")
  ∧ (∀ s, (<[ "msg" := JNumber "7" ]> {[ "type" := JString "chat" ]} : gmap string JSON)
            !! "msg" ≠ Some (JString s))
  ∧ lobbies demoWorld !! 7%N = Some demoLobby
  ∧ conns demoWorld !! 1 = Some bob
  ∧ handleLobbyMessage demoX (<[ "msg" := JNumber "7" ]> {[ "type" := JString "chat" ]}) 7%N 1
      demoWorld
    = BroadcastChat 7 2 EmptyString demoWorld.
Proof.
  assert (H1 : (<[ "msg" := JNumber "7" ]> {[ "type" := JString "chat" ]} : gmap string JSON)
                 !! "type" = Some (JString "chat")) by reflexivity.
  assert (H2 : ∀ s, (<[ "msg" := JNumber "7" ]> {[ "type" := JString "chat" ]}
                       : gmap string JSON) !! "msg" ≠ Some (JString s)).
  { intros s. rewrite lookup_insert_eq. discriminate. }
  assert (H3 : lobbies demoWorld !! 7%N = Some demoLobby) by reflexivity.
  assert (H4 : conns demoWorld !! 1 = Some bob) by reflexivity.
  split_and!; try assumption.
  exact (proj1 (dispatch_chat_without_text demoX _ _ _ _ _ _ H1 H2 H3 H4)).
Defined.

(** ** Go strings *)

Lemma str_app_cons (a : ascii) (s t : string) : String a s +:+ t = String a (s +:+ t).
Proof. reflexivity. Qed.

Lemma str_app_nil_r (s : string) : s +:+ "" = s.
Proof. induction s as [|a s IH]; [done|]. by rewrite str_app_cons, IH. Qed.

Lemma str_app_assoc (s t u : string) : (s +:+ t) +:+ u = s +:+ (t +:+ u).
Proof. induction s as [|a s IH]; [done|]. by rewrite !str_app_cons, IH. Qed.

Lemma str_length_app (s t : string) :
  String.length (s +:+ t) = String.length s + String.length t.
Proof.
  induction s as [|a s IH]; [done|]. rewrite str_app_cons. cbn [String.length]. by rewrite IH.
Qed.

Lemma prefix_app (sep post : string) : String.prefix sep (sep +:+ post) = true.
Proof.
  induction sep as [|a sep IH]; [by destruct post|].
  rewrite str_app_cons. cbn [String.prefix].
  destruct (Ascii.ascii_dec a a); [exact IH | done].
Qed.

Lemma prefix_split (sep s : string) :
  String.prefix sep s = true → ∃ post, s = sep +:+ post.
Proof.
  revert s. induction sep as [|a sep IH]; intros s H.
  - by exists s.
  - destruct s as [|b s]; cbn in H; [done|].
    destruct (Ascii.ascii_dec a b) as [->|]; [|done].
    destruct (IH s H) as [post ->]. by exists post.
Qed.

Lemma strings_Index_unfold (s sep : string) :
  strings_Index s sep =
  if String.prefix sep s then 0%Z
  else match s with
       | EmptyString => (-1)%Z
       | String _ s' =>
           if Z.eqb (strings_Index s' sep) (-1) then (-1)%Z
           else (strings_Index s' sep + 1)%Z
       end.
Proof. by destruct s. Qed.

Lemma strings_Index_range (s sep : string) :
  strings_Index s sep = (-1)%Z
  ∨ (0 ≤ strings_Index s sep ≤ Z.of_nat (String.length s))%Z.
Proof.
  induction s as [|a s IH]; rewrite strings_Index_unfold.
  - destruct (String.prefix sep ""); cbn; lia.
  - destruct (String.prefix sep (String a s)); [cbn; lia|].
    destruct (Z.eqb_spec (strings_Index s sep) (-1)); [by left|].
    right. cbn [String.length]. lia.
Qed.

(** An occurrence found by [strings.Index] splits the string there. *)
Lemma strings_Index_found (s sep : string) :
  strings_Index s sep ≠ (-1)%Z →
  ∃ pre post, s = pre +:+ sep +:+ post
              ∧ strings_Index s sep = Z.of_nat (String.length pre).
Proof.
  induction s as [|a s IH]; rewrite strings_Index_unfold.
  - destruct (String.prefix sep "") eqn:Hp; [|done]. intros _.
    destruct (prefix_split _ _ Hp) as [post Hs]. by exists "", post.
  - destruct (String.prefix sep (String a s)) eqn:Hp.
    + intros _. destruct (prefix_split _ _ Hp) as [post Hs]. by exists "", post.
    + destruct (Z.eqb_spec (strings_Index s sep) (-1)) as [|Hne]; [done|]. intros _.
      destruct (IH Hne) as (pre & post & -> & Hi).
      exists (String a pre), post. split; [done|]. rewrite Hi. cbn [String.length]. lia.
Qed.

Lemma splitFrom_skip (sep x y cur : string) :
  splitFrom sep (String.length x) cur (x +:+ y) = splitFrom sep 0 cur y.
Proof. induction x as [|a x IH]; [done | exact IH]. Qed.

(** [strings.Split] cuts at the first occurrence, as Go's loop over
    [strings.Index] does. *)
Lemma splitFrom_first (sep pre post cur : string) :
  sep ≠ "" →
  strings_Index (pre +:+ sep +:+ post) sep = Z.of_nat (String.length pre) →
  splitFrom sep 0 cur (pre +:+ sep +:+ post) = (cur +:+ pre) :: splitFrom sep 0 "" post.
Proof.
  intros Hsep. revert cur. induction pre as [|a pre IH]; intros cur Hi.
  - rewrite str_app_nil_r. destruct sep as [|c sep]; [done|].
    change ("" +:+ String c sep +:+ post) with (String c (sep +:+ post)).
    cbn [splitFrom].
    change (String c (sep +:+ post)) with (String c sep +:+ post).
    rewrite prefix_app.
    change (String.length (String c sep) - 1) with (String.length sep - 0).
    rewrite Nat.sub_0_r. by rewrite splitFrom_skip.
  - change (String a pre +:+ sep +:+ post) with (String a (pre +:+ sep +:+ post)) in *.
    rewrite strings_Index_unfold in Hi. cbn [String.length] in Hi.
    destruct (String.prefix sep (String a (pre +:+ sep +:+ post))) eqn:Hp; [lia|].
    destruct (Z.eqb_spec (strings_Index (pre +:+ sep +:+ post) sep) (-1)); [lia|].
    cbn [splitFrom]. rewrite Hp. rewrite IH by lia.
    by rewrite str_app_assoc.
Qed.

Lemma splitFrom_none (sep s cur : string) :
  strings_Index s sep = (-1)%Z → splitFrom sep 0 cur s = [cur +:+ s].
Proof.
  revert cur. induction s as [|a s IH]; intros cur Hi.
  - by rewrite str_app_nil_r.
  - rewrite strings_Index_unfold in Hi.
    destruct (String.prefix sep (String a s)) eqn:Hp; [done|].
    destruct (Z.eqb_spec (strings_Index s sep) (-1)) as [Hn|];
      [|destruct (strings_Index_range s sep); lia].
    cbn [splitFrom]. rewrite Hp, IH by done. by rewrite str_app_assoc.
Qed.

(** ** [extractTokenFromCookie] *)

Lemma strings_Contains_false (s sep : string) :
  strings_Contains s sep = false ↔ strings_Index s sep = (-1)%Z.
Proof.
  unfold strings_Contains. destruct (Z.eqb_spec (strings_Index s sep) (-1)); naive_solver.
Qed.

Lemma prefix_semicolon (a : ascii) (s : string) :
  String.prefix ";" (String a s) = bool_decide (a = ";"%char).
Proof.
  cbn [String.prefix]. destruct (Ascii.ascii_dec ";" a) as [<-|Hne].
  - by destruct s.
  - rewrite bool_decide_eq_false_2; [done | congruence].
Qed.

Lemma substring_0_cons (n : nat) (a : ascii) (s : string) :
  String.substring 0 (S n) (String a s) = String a (String.substring 0 n s).
Proof. reflexivity. Qed.

Lemma substring_0_0 (s : string) : String.substring 0 0 s = "".
Proof. by destruct s. Qed.

(** Cutting at the first semicolon leaves none. *)
Lemma cut_has_no_semicolon (t : string) :
  strings_Index t ";" ≠ (-1)%Z →
  strings_Index (String.substring 0 (Z.to_nat (strings_Index t ";")) t) ";" = (-1)%Z.
Proof.
  induction t as [|a t IH]; [done|].
  rewrite (strings_Index_unfold (String a t)), prefix_semicolon.
  case_bool_decide as Ha.
  - intros _. by rewrite substring_0_0.
  - destruct (Z.eqb_spec (strings_Index t ";") (-1)) as [|Hne]; [done|]. intros _.
    destruct (strings_Index_range t ";") as [|Hr]; [done|].
    replace (Z.to_nat (strings_Index t ";" + 1)) with (S (Z.to_nat (strings_Index t ";")))
      by lia.
    rewrite substring_0_cons, strings_Index_unfold, prefix_semicolon.
    rewrite bool_decide_eq_false_2 by done. by rewrite (IH Hne).
Qed.

(** X1.  The token extractTokenFromCookie returns never contains a semicolon,
    whatever the cookie header: the segment after the first 'auth_token=' is
    cut at its first semicolon. *)
Theorem extractTokenFromCookie_no_semicolon (cookie : string) :
  strings_Contains (extractTokenFromCookie cookie) ";" = false.
Proof.
  apply strings_Contains_false. unfold extractTokenFromCookie.
  destruct (Nat.ltb _ 2); [done|].
  set (token := nth 1 _ _).
  destruct (Z.eqb_spec (strings_Index token ";") (-1)) as [Heq|Hne]; cbn [negb].
  - exact Heq.
  - by apply cut_has_no_semicolon.
Qed.

(** X2.  For a cookie header in which 'auth_token=' does not occur,
    extractTokenFromCookie returns the empty string. *)
Theorem extractTokenFromCookie_missing (cookie : string) :
  strings_Contains cookie "auth_token=" = false →
  extractTokenFromCookie cookie = "".
Proof.
  intros H%strings_Contains_false. unfold extractTokenFromCookie, strings_Split.
  by rewrite (splitFrom_none _ _ _ H).
Qed.

Lemma extractTokenFromCookie_missing_witness :
  strings_Contains "theme=dark; lang=en" "auth_token=" = false
  ∧ extractTokenFromCookie "theme=dark; lang=en" = "".
Proof.
  split; [reflexivity|]. apply extractTokenFromCookie_missing. reflexivity.
Defined.

Lemma strings_Index_semicolon_app (tok r : string) :
  strings_Index tok ";" = (-1)%Z →
  strings_Index (tok +:+ ";" +:+ r) ";" = Z.of_nat (String.length tok).
Proof.
  induction tok as [|a tok IH]; intros H.
  - by destruct r.
  - rewrite strings_Index_unfold, prefix_semicolon in H.
    rewrite str_app_cons, strings_Index_unfold, prefix_semicolon.
    case_bool_decide; [done|].
    destruct (Z.eqb_spec (strings_Index tok ";") (-1)) as [Hn|];
      [|destruct (strings_Index_range tok ";"); lia].
    rewrite (IH Hn). cbn [String.length].
    destruct (Z.eqb_spec (Z.of_nat (String.length tok)) (-1)); lia.
Qed.

Lemma substring_0_app (tok x : string) :
  String.substring 0 (String.length tok) (tok +:+ x) = tok.
Proof.
  induction tok as [|a tok IH]; [apply substring_0_0|].
  rewrite str_app_cons. cbn [String.length]. by rewrite substring_0_cons, IH.
Qed.

Lemma str_app_eq_split (a b c d : string) :
  a +:+ b = c +:+ d → (String.length a ≤ String.length c)%nat →
  ∃ x, c = a +:+ x ∧ b = x +:+ d.
Proof.
  revert c. induction a as [|ch a IH]; intros c Heq Hlen.
  - by exists c.
  - destruct c as [|ch' c]; [cbn in Hlen; lia|].
    rewrite !str_app_cons in Heq. injection Heq as -> Heq.
    destruct (IH c Heq) as (x & -> & ->); [cbn in Hlen; lia|]. by exists x.
Qed.

(** X3.  Round trip of extractTokenFromCookie: for a header pre ++
    'auth_token=' ++ tok ++ rest in which this is the first occurrence of
    'auth_token=', where tok holds no semicolon, no further 'auth_token='
    starts inside tok, and rest is empty or starts with a semicolon, the
    function returns tok. The match is on the substring, so a cookie whose
    name only ends in auth_token (my_auth_token=...) is taken as well. *)
Theorem extractTokenFromCookie_roundtrip (pre tok rest : string) :
  strings_Index (pre +:+ "auth_token=" +:+ tok +:+ rest) "auth_token="
    = Z.of_nat (String.length pre) →
  (strings_Index (tok +:+ rest) "auth_token=" = (-1)%Z
   ∨ (Z.of_nat (String.length tok) ≤ strings_Index (tok +:+ rest) "auth_token=")%Z) →
  strings_Contains tok ";" = false →
  (rest = "" ∨ ∃ r, rest = ";" +:+ r) →
  extractTokenFromCookie (pre +:+ "auth_token=" +:+ tok +:+ rest) = tok.
Proof.
  intros Hfirst Hnext Htok%strings_Contains_false Hrest.
  assert (Hcut : ∀ x, (x = "" ∨ ∃ r, x = ";" +:+ r) →
            (if negb (Z.eqb (strings_Index (tok +:+ x) ";") (-1))
             then String.substring 0 (Z.to_nat (strings_Index (tok +:+ x) ";")) (tok +:+ x)
             else tok +:+ x) = tok).
  { intros x [->|[r ->]].
    - rewrite str_app_nil_r, Htok. done.
    - rewrite (strings_Index_semicolon_app tok r Htok).
      destruct (Z.eqb_spec (Z.of_nat (String.length tok)) (-1)); [lia|]. cbn [negb].
      rewrite Nat2Z.id. apply substring_0_app. }
  unfold extractTokenFromCookie, strings_Split.
  rewrite (splitFrom_first "auth_token=" pre (tok +:+ rest) "") by done.
  destruct (Z.eqb_spec (strings_Index (tok +:+ rest) "auth_token=") (-1)) as [Hn|Hn].
  - rewrite (splitFrom_none _ _ _ Hn). cbn [List.length Nat.ltb Nat.leb nth].
    change ("" +:+ tok +:+ rest) with (tok +:+ rest). by apply Hcut.
  - destruct (strings_Index_found _ _ Hn) as (pre2 & post2 & Heq & Hi).
    destruct Hnext as [|Hge]; [done|].
    destruct (str_app_eq_split tok rest pre2 ("auth_token=" +:+ post2) Heq) as (x & -> & Hx);
      [lia|].
    rewrite Heq in Hi |- *.
    rewrite (splitFrom_first "auth_token=" (tok +:+ x) post2 "" ltac:(done) Hi).
    pose proof (splitFrom_nonempty "auth_token=" 0 "" post2) as Hlen.
    destruct (splitFrom "auth_token=" 0 "" post2) as [|p ps]; [cbn in Hlen; lia|].
    cbn [List.length Nat.ltb Nat.leb nth].
    change ("" +:+ tok +:+ x) with (tok +:+ x). apply Hcut.
    destruct Hrest as [->|[r ->]].
    + destruct x; discriminate.
    + destruct x as [|ch x]; [discriminate|]. right.
      rewrite str_app_cons in Hx. injection Hx as <- _. by exists x.
Qed.

Lemma extractTokenFromCookie_roundtrip_witness :
  strings_Index ("theme=dark; my_" +:+ "auth_token=" +:+ "abc.def" +:+ "; lang=en") "auth_token="
    = Z.of_nat (String.length "theme=dark; my_")
  ∧ strings_Index ("abc.def" +:+ "; lang=en") "auth_token=" = (-1)%Z
  ∧ strings_Contains "abc.def" ";" = false
  ∧ extractTokenFromCookie "theme=dark; my_auth_token=abc.def; lang=en" = "abc.def".
Proof.
  split_and!; [reflexivity ..|].
  apply (extractTokenFromCookie_roundtrip "theme=dark; my_" "abc.def" "; lang=en").
  - reflexivity.
  - left. reflexivity.
  - reflexivity.
  - right. by exists " lang=en".
Defined.

(** The model on a few headers. *)
Example extract_examples :
  extractTokenFromCookie "theme=dark; auth_token=abc.def; lang=en" = "abc.def"
  ∧ extractTokenFromCookie "auth_token=abc" = "abc"
  ∧ extractTokenFromCookie "theme=dark" = ""
  ∧ extractTokenFromCookie "my_auth_token=evil; auth_token=good" = "evil"
  ∧ strings_Index "chicken" "ken" = 4%Z
  ∧ strings_Index "chicken" "dmr" = (-1)%Z
  ∧ strings_Index "" "" = 0%Z
  ∧ strings_Split "a,b,c" "," = ["a"; "b"; "c"].
Proof. repeat split; reflexivity. Qed.

(** ** The HTTP handlers of [lobby.go] *)

Ltac api_cases :=
  repeat match goal with
         | H : _ ∈ (if ?b then _ else _) |- _ => destruct b eqn:?
         | H : _ ∈ (match ?x with _ => _ end) |- _ => destruct x eqn:?
         | H : _ ∈ (let '(_, _) := ?x in _) |- _ => destruct x eqn:?
         | H : _ ∈ _ :: _ |- _ => apply elem_of_cons in H as [H|H]
         | H : _ ∈ [] |- _ => by apply elem_of_nil in H
         | H : _ = _ |- _ => progress simplify_eq
         end.

Lemma validGameTypes_spec (t : string) :
  mapBool validGameTypes t = true ↔ t ∈ ["private"; "public"; "matchmaking"].
Proof.
  unfold mapBool, validGameTypes. split.
  - intros H.
    destruct (decide (t = "private")) as [->|]; [set_solver|].
    destruct (decide (t = "public")) as [->|]; [set_solver|].
    destruct (decide (t = "matchmaking")) as [->|]; [set_solver|].
    rewrite !lookup_insert_ne, lookup_singleton_ne in H by done. done.
  - intros H. repeat (apply elem_of_cons in H as [->|H]; [reflexivity|]).
    by apply elem_of_nil in H.
Qed.

Lemma validGameModes_spec (t : string) :
  mapBool validGameModes t = true
  ↔ t ∈ ["head_to_head"; "group_of_4"; "circuit_4p"; "circuit_7p8p"; "custom"].
Proof.
  unfold mapBool, validGameModes. split.
  - intros H.
    destruct (decide (t = "head_to_head")) as [->|]; [set_solver|].
    destruct (decide (t = "group_of_4")) as [->|]; [set_solver|].
    destruct (decide (t = "circuit_4p")) as [->|]; [set_solver|].
    destruct (decide (t = "circuit_7p8p")) as [->|]; [set_solver|].
    destruct (decide (t = "custom")) as [->|]; [set_solver|].
    rewrite !lookup_insert_ne, lookup_singleton_ne in H by done. done.
  - intros H. repeat (apply elem_of_cons in H as [->|H]; [reflexivity|]).
    by apply elem_of_nil in H.
Qed.

Lemma empty_or_listed (m : gmap string bool) (t : string) :
  negb (String.eqb t "") && negb (mapBool m t) = false → t = "" ∨ mapBool m t = true.
Proof.
  destruct (String.eqb_spec t ""); [by left|]. destruct (mapBool m t); [by right | done].
Qed.

(** X4.  A lobby that CreateLobbyHandler encodes in its reply is the request
    body decoded over the defaults for the authenticated user; its type is
    empty or one of private, public, matchmaking and its game mode is empty or
    one of the five valid modes. The handler never reaches the database: it
    stores nothing. *)
Theorem CreateLobbyHandler_validates X B (r : APIRequest) :
  (∀ lobby, EncodeLobby lobby ∈ CreateLobbyHandler X B r →
     Type_ lobby ∈ [""; "private"; "public"; "matchmaking"]
     ∧ GameMode lobby ∈ [""; "head_to_head"; "group_of_4"; "circuit_4p"; "circuit_7p8p"; "custom"]
     ∧ ∃ uidStr u,
         AuthenticateJWT X (extractCookieToken X (Cookie r) "auth_token") = Some uidStr
         ∧ uuid_Parse X uidStr = Some u
         ∧ decodeLobby B (NewLobbyWithDefaults B u) (Body r) = Some lobby)
  ∧ (∀ e, e ∈ CreateLobbyHandler X B r → reachesBackend e = false).
Proof.
  split.
  - intros lobby H. unfold CreateLobbyHandler in H. api_cases.
    repeat match goal with
           | H : negb (?t =? "") && negb (mapBool ?m ?t) = false |- _ =>
               apply empty_or_listed in H
           end.
    split_and!.
    + match goal with H : Type_ _ = "" ∨ _ |- _ => destruct H as [->|Hv] end; [set_solver|].
      apply validGameTypes_spec in Hv. set_solver.
    + match goal with H : GameMode _ = "" ∨ _ |- _ => destruct H as [->|Hv] end; [set_solver|].
      apply validGameModes_spec in Hv. set_solver.
    + eauto.
  - intros e H. unfold CreateLobbyHandler in H. api_cases; done.
Qed.

(** X5.  JoinLobbyHandler inserts at most one participant per request. An
    insert is for the authenticated user and the parsed lobby, and only after
    the membership check answered, without error, that the user is not yet a
    member. The seat inserted is at least 1: the requested seat when that is
    at least 1, otherwise a random seat between 1 and 1000. The 200 reply is
    sent only after an insert that succeeded. *)
Theorem JoinLobbyHandler_inserts X B (rnd : nat) (r : APIRequest) :
  (∀ l u seat, DBInsertParticipant l u seat ∈ JoinLobbyHandler X B rnd r →
     (1 ≤ seat)%Z
     ∧ ∃ uidStr lidStr reqSeat,
         AuthenticateJWT X (extractTokenFromCookie (Cookie r)) = Some uidStr
         ∧ uuid_Parse X uidStr = Some u
         ∧ decodeJoin B (Body r) = Some (lidStr, reqSeat)
         ∧ uuid_Parse X lidStr = Some l
         ∧ IsUserInLobby X l u = (false, false)
         ∧ ((1 ≤ reqSeat)%Z → seat = reqSeat)
         ∧ ((reqSeat < 1)%Z → (seat ≤ 1000)%Z))
  ∧ (WriteHeader 200 ∈ JoinLobbyHandler X B rnd r →
     ∃ l u seat, DBInsertParticipant l u seat ∈ JoinLobbyHandler X B rnd r
                 ∧ InsertParticipant B l u seat = false)
  ∧ (List.length (List.filter isInsert (JoinLobbyHandler X B rnd r)) ≤ 1)%nat.
Proof.
  split_and!.
  - intros l u seat H. unfold JoinLobbyHandler in H. api_cases.
    all: match goal with H : decodeJoin _ _ = Some (_, ?q) |- _ =>
           pose proof (Nat.mod_upper_bound rnd 1000 ltac:(done));
           split; [destruct (Z.ltb_spec q 1); lia|];
           do 3 eexists; split_and!; try done;
           intros; destruct (Z.ltb_spec q 1); lia
         end.
  - intros H. unfold JoinLobbyHandler in H |- *. api_cases.
    do 3 eexists. split; [|eassumption].
    apply list_elem_of_further, list_elem_of_here.
  - unfold JoinLobbyHandler.
    repeat match goal with
           | |- context [if ?b then _ else _] => destruct b
           | |- context [match ?x with _ => _ end] => destruct x
           end; simpl; lia.
Qed.

(** X6.  StartLobbyGameHandler creates a game, and DeleteLobbyHandler deletes
    a lobby, only when the authenticated user is the host of the lobby read
    from the database for the requested id. *)
Theorem only_host_starts_or_deletes X B (r : APIRequest) :
  (∀ lobby, NewCambiaGameFromLobby lobby ∈ StartLobbyGameHandler X B r →
     ∃ uidStr u lidStr l,
       AuthenticateJWT X (extractTokenFromCookie (Cookie r)) = Some uidStr
       ∧ uuid_Parse X uidStr = Some u
       ∧ decodeLobbyID B (Body r) = Some lidStr
       ∧ uuid_Parse X lidStr = Some l
       ∧ GetLobby B l = inl lobby
       ∧ HostUserID lobby = u)
  ∧ (∀ l, DBDeleteLobby l ∈ DeleteLobbyHandler X B r →
     ∃ uidStr u lidStr lobby,
       AuthenticateJWT X (extractCookieToken X (Cookie r) "auth_token") = Some uidStr
       ∧ uuid_Parse X uidStr = Some u
       ∧ decodeLobbyID B (Body r) = Some lidStr
       ∧ uuid_Parse X lidStr = Some l
       ∧ GetLobby B l = inl lobby
       ∧ HostUserID lobby = u).
Proof.
  split.
  - intros lobby H. unfold StartLobbyGameHandler in H. api_cases.
    do 4 eexists. split_and!; try done.
    match goal with H : negb (N.eqb _ _) = false |- _ =>
      apply negb_false_iff, N.eqb_eq in H; exact H end.
  - intros l H. unfold DeleteLobbyHandler in H. api_cases.
    all: do 4 eexists; split_and!; try done;
      match goal with H : negb (N.eqb _ _) = false |- _ =>
        apply negb_false_iff, N.eqb_eq in H; exact H end.
Qed.

Lemma fold_appendResp B (ls : list Lobby) (acc : option (list lobbyResp)) :
  fold_left (λ resp l, appendResp resp (toLobbyResp B l)) ls acc
  = match ls with
    | [] => acc
    | _ => Some (default [] acc ++ (toLobbyResp B <$> ls))
    end.
Proof.
  revert acc. induction ls as [|l ls IH]; intros acc; [done|].
  cbn [fold_left]. rewrite IH. unfold appendResp. destruct ls as [|l' ls]; [done|].
  simpl. by rewrite <- app_assoc.
Qed.

(** X7.  When ListLobbiesHandler encodes a list, the list is the lobbies of
    the database mapped in order to their response records, and the nil slice
    (encoded as JSON null, not as an empty array) when there are none; the run
    is then exactly: query, content type, encode. *)
Theorem ListLobbiesHandler_encodes X B (r : APIRequest) (resp : option (list lobbyResp)) :
  EncodeList resp ∈ ListLobbiesHandler X B r →
  ∃ lobbies,
    GetAllLobbies B = inl lobbies
    ∧ resp = match lobbies with
             | [] => None
             | _ => Some (toLobbyResp B <$> lobbies)
             end
    ∧ ListLobbiesHandler X B r = [DBGetAllLobbies; SetContentTypeJSON; EncodeList resp].
Proof.
  intros H. unfold ListLobbiesHandler in H |- *. api_cases.
  match goal with H : GetAllLobbies B = inl ?ls |- _ => exists ls end.
  rewrite fold_appendResp. split_and!; [done | | done].
  by match goal with |- context [match ?ls with _ => _ end] => destruct ls end.
Qed.

(** X8.  None of the six lobby endpoints reaches the database or the game
    server for a request whose cookie lacks 'auth_token=' or whose token does
    not verify. *)
Theorem unauthenticated_requests_stop X B (rnd : nat) (r : APIRequest) (e : APIEffect) :
  reachesBackend e = true →
  (e ∈ CreateLobbyHandler X B r ∨ e ∈ GetLobbyHandler X B r ∨ e ∈ DeleteLobbyHandler X B r →
     strings_Contains (Cookie r) "auth_token=" = true
     ∧ is_Some (AuthenticateJWT X (extractCookieToken X (Cookie r) "auth_token")))
  ∧ (e ∈ JoinLobbyHandler X B rnd r ∨ e ∈ StartLobbyGameHandler X B r
     ∨ e ∈ ListLobbiesHandler X B r →
     strings_Contains (Cookie r) "auth_token=" = true
     ∧ is_Some (AuthenticateJWT X (extractTokenFromCookie (Cookie r)))).
Proof.
  intros He. split.
  - intros [H|[H|H]];
      unfold CreateLobbyHandler, GetLobbyHandler, DeleteLobbyHandler in H; api_cases;
      try done;
      (split; [match goal with
               | H : negb (strings_Contains _ _) = false |- _ => by apply negb_false_iff in H
               end
              | by eexists]).
  - intros [H|[H|H]];
      unfold JoinLobbyHandler, StartLobbyGameHandler, ListLobbiesHandler in H; api_cases;
      try done;
      (split; [match goal with
               | H : negb (strings_Contains _ _) = false |- _ => by apply negb_false_iff in H
               end
              | by eexists]).
Qed.

Lemma CreateLobbyHandler_validates_witness :
  EncodeLobby (mkLobbyRow 0 1 "private" "head_to_head" false false "" demoRules)
    ∈ CreateLobbyHandler demoX demoB (demoAPIRequest "token-alice" "{}")
  ∧ CreateLobbyHandler demoX demoB (demoAPIRequest "token-alice" "{type:duel}")
    = [HttpError "invalid lobby type" 400]
  ∧ Type_ (mkLobbyRow 0 1 "private" "head_to_head" false false "" demoRules)
    ∈ [""; "private"; "public"; "matchmaking"].
Proof.
  assert (H : EncodeLobby (mkLobbyRow 0 1 "private" "head_to_head" false false "" demoRules)
              ∈ CreateLobbyHandler demoX demoB (demoAPIRequest "token-alice" "{}")).
  { apply list_elem_of_further, list_elem_of_here. }
  split_and!; [exact H | reflexivity |].
  exact (proj1 (proj1 (CreateLobbyHandler_validates demoX demoB _) _ H)).
Defined.

Lemma JoinLobbyHandler_inserts_witness :
  DBInsertParticipant 7 3 (Z.of_nat (1234 mod 1000) + 1)
    ∈ JoinLobbyHandler demoX demoB 1234 (demoAPIRequest "token-carol" "{lobby_id:lobby7}")
  ∧ WriteHeader 200
    ∈ JoinLobbyHandler demoX demoB 1234 (demoAPIRequest "token-carol" "{lobby_id:lobby7}")
  ∧ (1 ≤ Z.of_nat (1234 mod 1000) + 1)%Z
  ∧ JoinLobbyHandler demoX demoB 1234 (demoAPIRequest "token-alice" "{lobby_id:lobby7}")
    = [DBIsUserInLobby 7 1; HttpError "already in that lobby" 409].
Proof.
  assert (H : DBInsertParticipant 7 3 (Z.of_nat (1234 mod 1000) + 1)
              ∈ JoinLobbyHandler demoX demoB 1234
                  (demoAPIRequest "token-carol" "{lobby_id:lobby7}")).
  { apply list_elem_of_further, list_elem_of_here. }
  split_and!; [exact H | | | reflexivity].
  - do 2 apply list_elem_of_further. apply list_elem_of_here.
  - exact (proj1 (proj1 (JoinLobbyHandler_inserts demoX demoB 1234 _) _ _ _ H)).
Defined.

Lemma only_host_starts_or_deletes_witness :
  NewCambiaGameFromLobby demoRow
    ∈ StartLobbyGameHandler demoX demoB (demoAPIRequest "token-alice" "{lobby_id:lobby7}")
  ∧ DBDeleteLobby 7
    ∈ DeleteLobbyHandler demoX demoB (demoAPIRequest "token-alice" "{lobby_id:lobby7}")
  ∧ HostUserID demoRow = 1%N
  ∧ StartLobbyGameHandler demoX demoB (demoAPIRequest "token-bob" "{lobby_id:lobby7}")
    = [DBGetLobby 7; HttpError "only lobby host can start the game" 403]
  ∧ DeleteLobbyHandler demoX demoB (demoAPIRequest "token-bob" "{lobby_id:lobby7}")
    = [DBGetLobby 7; HttpError "only host user can delete this lobby" 403].
Proof.
  assert (H : NewCambiaGameFromLobby demoRow
              ∈ StartLobbyGameHandler demoX demoB
                  (demoAPIRequest "token-alice" "{lobby_id:lobby7}")).
  { apply list_elem_of_further, list_elem_of_here. }
  split_and!; [exact H | | | reflexivity | reflexivity].
  - apply list_elem_of_further, list_elem_of_here.
  - destruct (proj1 (only_host_starts_or_deletes demoX demoB _) _ H)
      as (uidStr & u & lidStr & l & Ha & Hu & _ & _ & _ & Hhost).
    rewrite Hhost. vm_compute in Ha. injection Ha as <-. vm_compute in Hu. by injection Hu.
Defined.

Lemma ListLobbiesHandler_encodes_witness :
  EncodeList (Some [toLobbyResp demoB demoRow])
    ∈ ListLobbiesHandler demoX demoB (demoAPIRequest "token-bob" "")
  ∧ ListLobbiesHandler demoX demoB (demoAPIRequest "token-bob" "")
    = [DBGetAllLobbies; SetContentTypeJSON; EncodeList (Some [toLobbyResp demoB demoRow])].
Proof.
  assert (H : EncodeList (Some [toLobbyResp demoB demoRow])
              ∈ ListLobbiesHandler demoX demoB (demoAPIRequest "token-bob" "")).
  { do 2 apply list_elem_of_further. apply list_elem_of_here. }
  split; [exact H|].
  destruct (ListLobbiesHandler_encodes demoX demoB _ _ H) as (ls & _ & _ & Heq). exact Heq.
Defined.

Lemma unauthenticated_requests_stop_witness :
  reachesBackend (DBGetLobby 7) = true
  ∧ DBGetLobby 7 ∈ GetLobbyHandler demoX demoB (demoAPIRequest "token-bob" "")
  ∧ strings_Contains (Cookie (demoAPIRequest "token-bob" "")) "auth_token=" = true
  ∧ GetLobbyHandler demoX demoB (mkAPIRequest "theme=dark" "" "lobby7")
    = [HttpError "missing auth_token" 401]
  ∧ GetLobbyHandler demoX demoB (demoAPIRequest "forged" "")
    = [HttpError "invalid token" 403].
Proof.
  assert (H : DBGetLobby 7 ∈ GetLobbyHandler demoX demoB (demoAPIRequest "token-bob" ""))
    by apply list_elem_of_here.
  split_and!; [reflexivity | exact H | | reflexivity | reflexivity].
  refine (proj1 (proj1 (unauthenticated_requests_stop demoX demoB 0 _ (DBGetLobby 7) eq_refl) _)).
  right. left. exact H.
Defined.

(** ** The game socket *)

Lemma substring_drop (pre s : string) :
  String.substring (String.length pre) (String.length (pre +:+ s) - String.length pre) (pre +:+ s)
  = s.
Proof.
  rewrite str_length_app. replace (String.length pre + String.length s - String.length pre)
    with (String.length s) by lia.
  induction pre as [|a pre IH].
  - cbn [String.length]. change ("" +:+ s) with s.
    induction s as [|b s IHs]; [done|]. cbn [String.length]. by rewrite substring_0_cons, IHs.
  - exact IH.
Qed.

(** X10.  GameServer.ServeHTTP slices r.URL.Path[len('/game/'):] without
    checking the length: for a path shorter than six bytes, once the upgrade
    with the game subprotocol is accepted, the handler panics, and the
    transport it accepted is left open. *)
Theorem ServeHTTP_short_path_panics X G (r : Request) (w : GameWorld) :
  URLPath r ≠ "/game/create" →
  websocket_Accept X r = Some "game" →
  String.length (URLPath r) < 6 →
  let c := fresh (dom (gsocks w)) in
  ServeHTTP X G r w
  = (Panicked, mkGameWorld (games w) (<[c := mkTransport "game" None []]> (gsocks w))
                           (gtrace w ++ [GAccept c])).
Proof.
  intros Hp Ha Hlen c. unfold ServeHTTP.
  apply String.eqb_neq in Hp. rewrite Hp, Ha. cbn [String.eqb negb].
  change (Ascii.eqb _ _ && _) with true. cbn [negb].
  apply Nat.ltb_lt in Hlen. change (String.length "/game/") with 6. by rewrite Hlen.
Qed.

Lemma ServeHTTP_short_path_panics_witness :
  URLPath (mkRequest "/game" "") ≠ "/game/create"
  ∧ websocket_Accept demoGameX (mkRequest "/game" "") = Some "game"
  ∧ String.length (URLPath (mkRequest "/game" "")) < 6
  ∧ fst (ServeHTTP demoGameX demoGames (mkRequest "/game" "") demoGameWorld) = Panicked.
Proof.
  assert (H1 : URLPath (mkRequest "/game" "") ≠ "/game/create") by discriminate.
  assert (H2 : websocket_Accept demoGameX (mkRequest "/game" "") = Some "game") by reflexivity.
  assert (H3 : String.length (URLPath (mkRequest "/game" "")) < 6) by (cbn; lia).
  split_and!; try assumption.
  by rewrite (ServeHTTP_short_path_panics demoGameX demoGames _ demoGameWorld H1 H2 H3).
Defined.

(** X11.  An accepted upgrade with the game subprotocol, for a path whose part
    after the first six bytes parses to the id of a known game, appends one
    connected player to the end of that game's players under the game's lock
    and returns with the transport open. The player carries the game's id as
    its own, and the six leading bytes of the path are not compared with
    '/game/'. *)
Theorem ServeHTTP_joins X G (r : Request) (pre idStr : string) (gid : UUID) (g : nat)
    (w : GameWorld) :
  URLPath r = pre +:+ idStr →
  String.length pre = 6 →
  URLPath r ≠ "/game/create" →
  idStr ≠ "" →
  websocket_Accept X r = Some "game" →
  uuid_Parse X idStr = Some gid →
  GetGame G gid = Some g →
  let c := fresh (dom (gsocks w)) in
  ServeHTTP X G r w
  = (Returned,
     mkGameWorld (alter (λ ps, ps ++ [mkPlayer gid c true]) g (games w))
                 (<[c := mkTransport "game" None []]> (gsocks w))
                 (gtrace w ++ [GAccept c; GLock g; GUnlock g])).
Proof.
  intros Hpath Hpre Hne Hid Ha Hu Hg c. unfold ServeHTTP.
  apply String.eqb_neq in Hne, Hid. rewrite Hne, Ha.
  change (negb (String.eqb "game" "game")) with false. cbv iota.
  assert (Hlen : Nat.ltb (String.length (URLPath r)) (String.length "/game/") = false).
  { apply Nat.ltb_ge. rewrite Hpath, str_length_app, Hpre. cbn. lia. }
  rewrite Hlen. change (String.length "/game/") with 6. rewrite <- Hpre.
  rewrite Hpath, substring_drop. rewrite Hid, Hu, Hg. simpl. by rewrite <- app_assoc.
Qed.

(** What one request does to the players of the games there are. *)
Lemma ServeHTTP_step X G (r : Request) (w : GameWorld) (g : nat) (ps : list Player) :
  games w !! g = Some ps →
  ∃ added, games (snd (ServeHTTP X G r w)) !! g = Some (ps ++ added)
           ∧ Forall (λ p, GetGame G (PlayerID p) = Some g ∧ Connected p = true) added.
Proof.
  intros Hg. unfold ServeHTTP, CreateGameHandler.
  assert (Hsame : ∃ added, games w !! g = Some (ps ++ added)
            ∧ Forall (λ p, GetGame G (PlayerID p) = Some g ∧ Connected p = true) added).
  { exists []. by rewrite app_nil_r. }
  repeat match goal with
         | |- context [if ?b then _ else _] => destruct b
         | |- context [match ?x with _ => _ end] => destruct x eqn:?
         end; simpl; try exact Hsame.
  - exists []. rewrite app_nil_r. split; [|done].
    rewrite lookup_insert_ne; [done|]. intros <-.
    apply (is_fresh (dom (games w))). by apply elem_of_dom_2 in Hg.
  - exists []. rewrite app_nil_r. split; [|done].
    rewrite lookup_insert_ne; [done|]. intros <-.
    apply (is_fresh (dom (games w))). by apply elem_of_dom_2 in Hg.
  - match goal with H : GetGame G ?gid = Some ?g' |- _ =>
      destruct (decide (g' = g)) as [->|Hne] end.
    + eexists [_]. rewrite lookup_alter_eq, Hg. split; [done|].
      by repeat constructor.
    + exists []. rewrite app_nil_r, lookup_alter_ne by done. done.
Qed.

(** X12.  Whatever requests the game server serves one after the other (game
    creation, failed and refused upgrades and panicking requests included),
    the players of an existing game are only ever added to, at the end, and
    every added player is connected and carries the id of the game it was
    added to. *)
Theorem serveAll_only_appends X G (rs : list Request) (w : GameWorld) (g : nat)
    (ps : list Player) :
  games w !! g = Some ps →
  ∃ added, games (serveAll X G rs w) !! g = Some (ps ++ added)
           ∧ Forall (λ p, GetGame G (PlayerID p) = Some g ∧ Connected p = true) added.
Proof.
  revert w ps. induction rs as [|r rs IH]; intros w ps Hg.
  - exists []. by rewrite app_nil_r.
  - unfold serveAll. cbn [fold_left].
    destruct (ServeHTTP_step X G r w g ps Hg) as (a1 & H1 & F1).
    destruct (IH _ _ H1) as (a2 & H2 & F2).
    exists (a1 ++ a2). rewrite app_assoc. split; [exact H2|]. by apply Forall_app.
Qed.

(** X13.  An accepted upgrade on the game socket ends in exactly one of three
    ways: the handler panics on a short path with the transport open and no
    game changed; or it closes the transport with the policy-violation status
    and leaves every game as it was; or, the subprotocol being game, it adds
    the player to a known game and leaves the transport open. *)
Theorem ServeHTTP_accepted_outcomes X G (r : Request) (w : GameWorld) (sp : string) :
  URLPath r ≠ "/game/create" →
  websocket_Accept X r = Some sp →
  let c := fresh (dom (gsocks w)) in
  let o := fst (ServeHTTP X G r w) in
  let w' := snd (ServeHTTP X G r w) in
  (o = Panicked ∧ String.length (URLPath r) < 6 ∧ games w' = games w
   ∧ gsocks w' !! c = Some (mkTransport sp None []))
  ∨ (o = Returned ∧ games w' = games w
     ∧ ∃ reason, gsocks w' !! c
                 = Some (mkTransport sp (Some (StatusPolicyViolation, reason)) []))
  ∨ (o = Returned ∧ sp = "game"
     ∧ gsocks w' !! c = Some (mkTransport sp None [])
     ∧ ∃ gid g, GetGame G gid = Some g
                ∧ games w' = alter (λ ps, ps ++ [mkPlayer gid c true]) g (games w)).
Proof.
  intros Hp Ha c o w'. subst o w'. unfold ServeHTTP.
  apply String.eqb_neq in Hp. rewrite Hp, Ha.
  destruct (String.eqb_spec sp "game") as [->|Hsp]; cbn [negb].
  - destruct (Nat.ltb_spec (String.length (URLPath r)) (String.length "/game/")) as [Hlt|Hge].
    + left. simpl. rewrite lookup_insert_eq. done.
    + destruct (String.eqb _ "").
      { right. left. simpl. rewrite lookup_alter_eq, lookup_insert_eq. simpl. eauto. }
      destruct (uuid_Parse X _) as [gid|].
      2: { right. left. simpl. rewrite lookup_alter_eq, lookup_insert_eq. simpl. eauto. }
      destruct (GetGame G gid) as [g|] eqn:Hg.
      2: { right. left. simpl. rewrite lookup_alter_eq, lookup_insert_eq. simpl. eauto. }
      right. right. simpl. rewrite lookup_insert_eq. eauto 10.
  - right. left. simpl. rewrite lookup_alter_eq, lookup_insert_eq. simpl. eauto.
Qed.

Lemma ServeHTTP_accepted_outcomes_witness :
  URLPath (mkRequest "/game/nonsense" "") ≠ "/game/create"
  ∧ websocket_Accept demoGameX (mkRequest "/game/nonsense" "") = Some "game"
  ∧ games (snd (ServeHTTP demoGameX demoGames (mkRequest "/game/nonsense" "") demoGameWorld))
    = games demoGameWorld
  ∧ gsocks (snd (ServeHTTP demoGameX demoGames (mkRequest "/game/nonsense" "") demoGameWorld))
      !! 0
    = Some (mkTransport "game" (Some (StatusPolicyViolation, "invalid uuid game_id")) []).
Proof.
  assert (H1 : URLPath (mkRequest "/game/nonsense" "") ≠ "/game/create") by discriminate.
  assert (H2 : websocket_Accept demoGameX (mkRequest "/game/nonsense" "") = Some "game")
    by reflexivity.
  split_and!; try assumption.
  - destruct (ServeHTTP_accepted_outcomes demoGameX demoGames _ demoGameWorld _ H1 H2)
      as [(Ho & _)|[(_ & Hg & _)|(_ & _ & Hs & _)]].
    + discriminate Ho.
    + exact Hg.
    + vm_compute in Hs. discriminate Hs.
  - reflexivity.
Defined.

Lemma ServeHTTP_joins_witness :
  URLPath (mkRequest "/xyzw/game42" "") = "/xyzw/" +:+ "game42"
  ∧ String.length "/xyzw/" = 6
  ∧ URLPath (mkRequest "/xyzw/game42" "") ≠ "/game/create"
  ∧ "game42" ≠ ""
  ∧ websocket_Accept demoGameX (mkRequest "/xyzw/game42" "") = Some "game"
  ∧ uuid_Parse demoGameX "game42" = Some 42%N
  ∧ GetGame demoGames 42 = Some 0
  ∧ games (snd (ServeHTTP demoGameX demoGames (mkRequest "/xyzw/game42" "") demoGameWorld)) !! 0
    = Some [mkPlayer 42 7 true; mkPlayer 42 0 true].
Proof.
  assert (H1 : URLPath (mkRequest "/xyzw/game42" "") = "/xyzw/" +:+ "game42") by reflexivity.
  assert (H2 : String.length "/xyzw/" = 6) by reflexivity.
  assert (H3 : URLPath (mkRequest "/xyzw/game42" "") ≠ "/game/create") by discriminate.
  assert (H4 : "game42" ≠ "") by discriminate.
  assert (H5 : websocket_Accept demoGameX (mkRequest "/xyzw/game42" "") = Some "game")
    by reflexivity.
  assert (H6 : uuid_Parse demoGameX "game42" = Some 42%N) by reflexivity.
  assert (H7 : GetGame demoGames 42 = Some 0) by reflexivity.
  split_and!; try assumption.
  by rewrite (ServeHTTP_joins demoGameX demoGames _ _ _ _ _ demoGameWorld H1 H2 H3 H4 H5 H6 H7).
Defined.

Lemma serveAll_only_appends_witness :
  games demoGameWorld !! 0 = Some [mkPlayer 42 7 true]
  ∧ games (serveAll demoGameX demoGames
             [mkRequest "/game/game42" ""; mkRequest "/game" ""; mkRequest "/game/create" "";
              mkRequest "/game/game42" ""] demoGameWorld) !! 0
    = Some ([mkPlayer 42 7 true] ++ [mkPlayer 42 0 true; mkPlayer 42 2 true]).
Proof.
  assert (H : games demoGameWorld !! 0 = Some [mkPlayer 42 7 true]) by reflexivity.
  split; [exact H|].
  destruct (serveAll_only_appends demoGameX demoGames
              [mkRequest "/game/game42" ""; mkRequest "/game" ""; mkRequest "/game/create" "";
               mkRequest "/game/game42" ""] demoGameWorld 0 _ H) as (added & Hadd & _).
  rewrite Hadd. vm_compute in Hadd. injection Hadd as <-. reflexivity.
Defined.

(** ** What message dispatch leaves alone *)

Lemma dispatchFrame_same c w w' :
  lobbies w' = lobbies w → conns w' = conns w → socks w' = socks w →
  dispatchFrame c w w'.
Proof.
  intros L C S. split; rewrite ?L, ?C, ?S; eauto.
  intros l ls H. exists ls. by split_and!.
Qed.

Lemma dispatchFrame_refl c w : dispatchFrame c w w.
Proof. by apply dispatchFrame_same. Qed.

Lemma dispatchFrame_trans c w1 w2 w3 :
  dispatchFrame c w1 w2 → dispatchFrame c w2 w3 → dispatchFrame c w1 w3.
Proof.
  intros [S1 C1 N1 L1 M1] [S2 C2 N2 L2 M2]. split.
  - congruence.
  - intros c' k H. destruct (C1 _ _ H) as (k1 & H1 & U1 & D1 & T1).
    destruct (C2 _ _ H1) as (k2 & H2 & U2 & D2 & T2).
    exists k2. split_and!; [done | congruence | | auto].
    intros Hne. rewrite D2, D1; done.
  - auto.
  - intros l ls H. destruct (L1 _ _ H) as (ls1 & H1 & A1 & B1 & E1 & F1).
    destruct (L2 _ _ H1) as (ls2 & H2 & A2 & B2 & E2 & F2).
    exists ls2. split_and!; [done | congruence | congruence | congruence | set_solver].
  - auto.
Qed.

Lemma frames_ret c {A} (a : A) : frames c (mret a : M A).
Proof. intros w. apply dispatchFrame_refl. Qed.

Lemma frames_get c : frames c get.
Proof. intros w. apply dispatchFrame_refl. Qed.

Lemma frames_bind c {A B} (m : M A) (f : A → M B) :
  frames c m → (∀ a, frames c (f a)) → frames c (m ≫= f).
Proof.
  intros Hm Hf w. rewrite exec_bind. eapply dispatchFrame_trans; [apply Hm | apply Hf].
Qed.

Lemma frames_emit c e : frames c (emit e).
Proof. intros w. by apply dispatchFrame_same. Qed.

Lemma frames_lobby_alter c (f : LobbyState → LobbyState) l :
  (∀ ls, Connections (f ls) = Connections ls ∧ LobbyID (f ls) = LobbyID ls
         ∧ AutoStart (f ls) = AutoStart ls
         ∧ dom (ReadyStates ls) ⊆ dom (ReadyStates (f ls))) →
  frames c (setLobbies (alter f l)).
Proof.
  intros Hf w. unfold setLobbies, modify, exec; simpl. split; simpl; eauto.
  - intros l' ls H. destruct (decide (l = l')) as [->|Hne].
    + exists (f ls). rewrite lookup_alter_eq, H. split; [done|]. apply Hf.
    + exists ls. rewrite lookup_alter_ne by done. by split_and!.
  - intros l' H. destruct (decide (l = l')) as [->|Hne].
    + by rewrite lookup_alter_eq, H.
    + by rewrite lookup_alter_ne.
Qed.

Lemma frames_cancel_self c : frames c (Cancel c).
Proof.
  intros w. unfold Cancel, setConns, emit, modify. rewrite exec_bind.
  unfold exec; simpl. split; simpl; eauto.
  - intros c' k H. destruct (decide (c = c')) as [->|Hne].
    + eexists. rewrite lookup_alter_eq, H. simpl. split_and!; done.
    + exists k. rewrite lookup_alter_ne by done. split_and!; done.
  - intros c' H. destruct (decide (c = c')) as [->|Hne].
    + by rewrite lookup_alter_eq, H.
    + by rewrite lookup_alter_ne.
  - intros l ls H. exists ls. by split_and!.
Qed.

Lemma frames_trySend c m c' : frames c (trySend m c').
Proof.
  intros w. destruct (sentTo_one m c' w) as [L S A Q _]. split.
  - done.
  - intros c0 k H. destruct (Q _ _ H) as (q & Hq & _). eexists. split; [exact Hq|]. done.
  - done.
  - intros l ls H. exists ls. rewrite L. by split_and!.
  - intros l H. by rewrite L.
Qed.

Lemma frames_forM c {A} (f : A → M unit) xs :
  (∀ x, frames c (f x)) → frames c (forM_ f xs).
Proof.
  intros Hf. induction xs as [|x xs IH]; simpl.
  - apply frames_ret.
  - apply frames_bind; [apply Hf | intros _; apply IH].
Qed.

Ltac frames_step :=
  first
    [ apply frames_trySend
    | apply frames_cancel_self
    | apply frames_forM; intros ?
    | apply frames_emit
    | apply frames_lobby_alter; intros ?; simpl; split_and!; [done .. | set_solver]
    | apply frames_ret
    | apply frames_get
    | apply frames_bind; [| intros ?]
    | match goal with
      | |- frames _ (match ?x with _ => _ end) => destruct x
      end
    | progress unfold writeReady, writeCountdown, logger, withLock, lookupLobby, broadcast,
        connUserID, BroadcastReadyState, BroadcastLeave, BroadcastChat, AreAllReady,
        StartCountdown, CancelCountdown ].

Ltac frames_go := repeat frames_step.

Lemma frames_handleLobbyMessage X (packet : gmap string JSON) (l : UUID) (c : nat) :
  frames c (handleLobbyMessage X packet l c).
Proof.
  unfold handleLobbyMessage.
  apply frames_bind; [frames_go | intros uid].
  repeat match goal with
         | |- frames _ (if ?b then _ else _) => destruct b
         end; frames_go.
Qed.

Lemma c_Read_frames c s r : frames c (c_Read s c r).
Proof. unfold c_Read. frames_go. Qed.

Lemma frames_readLoop X reads s l c : frames c (readLoop X reads s l c).
Proof.
  induction reads as [|x rest IH]; simpl.
  - apply frames_bind; [apply c_Read_frames | intros [r|]]; frames_go.
  - apply frames_bind; [apply c_Read_frames | intros r].
    destruct r as [[|[|] msg]|]; [frames_go | | apply IH | frames_go].
    destruct (json_Unmarshal X msg) as [packet|].
    + apply frames_bind; [apply frames_handleLobbyMessage | intros _; apply IH].
    + apply frames_bind; [frames_go | intros uid].
      apply frames_bind; [frames_go | intros _; apply IH].
Qed.


(** ** How the read task ends *)

Lemma readPump_congr X r1 r2 s l c w1 w2 :
  readLoop X r1 s l c w1 = readLoop X r2 s l c w2 →
  readPump X r1 s l c w1 = readPump X r2 s l c w2.
Proof.
  intros H. rewrite (run_eta (readPump X r1 s l c)), (run_eta (readPump X r2 s l c)).
  rewrite !readPump_eval, !readPump_exec. unfold eval, exec. by rewrite H.
Qed.

Lemma bind_run {A B} (m : M A) (f : A → M B) (w : World) :
  (m ≫= f) w = f (eval m w) (exec m w).
Proof. unfold mbind, M_bind, eval, exec. by destruct (m w). Qed.

Lemma readLoop_dead X reads s l c w :
  connDead s c w = true → readLoop X reads s l c w = readLoop X [] s l c w.
Proof.
  intros Hd. destruct reads as [|x rest]; [done|]. simpl.
  rewrite !(bind_run (c_Read _ _ _)), !c_Read_eval, !c_Read_exec, Hd. done.
Qed.

Lemma readLoop_first_error X pre rest s l c w :
  readLoop X (pre ++ ReadErr :: rest) s l c w = readLoop X (pre ++ [ReadErr]) s l c w.
Proof.
  revert w. induction pre as [|x pre IH]; intros w; simpl.
  - rewrite !(bind_run (c_Read _ _ _)), !c_Read_eval, !c_Read_exec.
    by destruct (connDead s c w).
  - rewrite !(bind_run (c_Read _ _ _)), !c_Read_eval, !c_Read_exec.
    destruct (connDead s c w); [done|].
    destruct x as [|[|] msg]; [done | | apply IH].
    destruct (json_Unmarshal X msg) as [packet|].
    + rewrite !(bind_run (handleLobbyMessage _ _ _ _)). apply IH.
    + rewrite !(bind_run (connUserID _)), !(bind_run (logger _)). apply IH.
Qed.

(** X15.  readPump returns at the first failed read: the frames that follow it
    are never read, so a run over pre ++ ReadErr :: rest is the run over pre
    ++ [ReadErr], and the task has returned. *)
Theorem readPump_stops_at_first_error X (pre rest : list ReadResult) (s : nat) (l : UUID)
    (c : nat) (w : World) :
  readPump X (pre ++ ReadErr :: rest) s l c w = readPump X (pre ++ [ReadErr]) s l c w
  ∧ eval (readPump X (pre ++ ReadErr :: rest) s l c) w = true.
Proof.
  split.
  - apply readPump_congr, readLoop_first_error.
  - rewrite readPump_eval. apply readLoop_error_exits. set_solver.
Qed.


Lemma RemoveUser_others l u w ls c0 k0 :
  lobbies w !! l = Some ls →
  conns w !! c0 = Some k0 →
  Connections ls !! u ≠ Some c0 →
  ∃ k', conns (exec (RemoveUser l u) w) !! c0 = Some k'
        ∧ UserID k' = UserID k0 ∧ ctxDone k' = ctxDone k0.
Proof.
  intros Hl Hc Hne. unfold RemoveUser, withLock, lookupLobby.
  run. simpl. rewrite Hl. run.
  set (w1 := exec (deleteReady l u) (exec (deleteConnection l u)
               (exec (emit (EvLock l)) (exec (emit (EvCall l (CallRemoveUser u))) w)))).
  assert (Hc1 : conns w1 = conns w) by done.
  set (w2 := exec (match Connections ls !! u with Some c => Cancel c | None => mret () end) w1).
  assert (Hc2 : conns w2 !! c0 = Some k0).
  { subst w2. destruct (Connections ls !! u) as [c1|] eqn:Hu.
    - unfold Cancel. run. simpl. rewrite lookup_alter_ne by congruence. by rewrite ?Hc1.
    - change (exec (mret ()) w1) with w1. by rewrite Hc1. }
  unfold broadcast, lookupLobby. run. simpl.
  match goal with
  | |- context [exec (match ?o with Some ls => forM_ (trySend ?m) (?f ls) | None => _ end) w2] =>
      destruct o as [ls2|]
  end.
  - destruct (sentTo_forM (MsgUserLeft u) (recipientsOf None ls2) w2) as [_ _ _ Q _].
    destruct (Q c0 k0 Hc2) as (q & Hq & _). eexists. split; [exact Hq|]. done.
  - exists k0. done.
Qed.




(** ** Order of the frames the write task sends *)

Lemma writePump_skip X st rest s c w k msg q :
  conns w !! c = Some k →
  OutChan k = msg :: q →
  ctxDone k && pickDone st = false →
  json_Marshal X msg = None →
  writePump X (st :: rest) s c w
  = writePump X rest s c (logged LogMarshalFailed (dequeued c k q w)).
Proof.
  intros Hc Hq Hsel Hm. simpl. unfold mbind at 1, M_bind at 1. simpl.
  rewrite Hc, Hq, Hsel. unfold mbind at 1, M_bind at 1. simpl. by rewrite Hm.
Qed.

Lemma writePump_idle X st rest s c w k :
  conns w !! c = Some k →
  OutChan k = [] ∨ ctxDone k && pickDone st = true →
  writePump X (st :: rest) s c w = (ctxDone k, w).
Proof.
  intros Hc Hsel. simpl. unfold mbind at 1, M_bind at 1. simpl. rewrite Hc.
  destruct (OutChan k) as [|msg q]; [done|].
  destruct Hsel as [?|Hsel]; [done|]. rewrite Hsel.
  by apply andb_true_iff in Hsel as [-> _].
Qed.

(** X18.  Whatever the choices of its select and the fate of its writes,
    writePump takes the events off the outbound queue from the front and sends
    them in queue order: the transport has then carried what it had carried
    before followed by the serialised form of a prefix of the queue (events
    that fail to serialise left out), and the queue holds the rest. At most
    the last event taken is lost, when its write failed, and then the task has
    returned. The task changes no lobby, closes no transport and cancels no
    context. *)
Theorem writePump_sends_in_queue_order X (sched : list WriteStep) (s c : nat) (w : World)
    (k : LobbyConnection) (t : Transport) :
  conns w !! c = Some k →
  socks w !! s = Some t →
  let w' := exec (writePump X sched s c) w in
  ∃ (n m : nat) k' t',
    (n ≤ List.length (OutChan k))%nat
    ∧ (m = n ∨ (S m = n ∧ eval (writePump X sched s c) w = true))
    ∧ conns w' !! c = Some k'
    ∧ OutChan k' = drop n (OutChan k)
    ∧ UserID k' = UserID k ∧ ctxDone k' = ctxDone k
    ∧ socks w' !! s = Some t'
    ∧ written t' = written t ++ omap (json_Marshal X) (take m (OutChan k))
    ∧ closed t' = closed t
    ∧ lobbies w' = lobbies w.
Proof.
  revert w k t. induction sched as [|st rest IH]; intros w k t Hc Hs; cbv zeta.
  { exists 0, 0, k, t. simpl. rewrite app_nil_r. split_and!; auto with lia. }
  destruct (OutChan k) as [|msg q] eqn:Hq.
  { exists 0, 0, k, t. unfold exec.
    rewrite (writePump_idle X st rest s c w k Hc) by auto. simpl.
    rewrite app_nil_r. split_and!; auto with lia. }
  destruct (ctxDone k && pickDone st) eqn:Hsel.
  { exists 0, 0, k, t. unfold exec.
    rewrite (writePump_idle X st rest s c w k Hc) by auto. simpl.
    rewrite app_nil_r. split_and!; auto with lia. }
  set (k1 := mkConn (UserID k) (ctxDone k) q).
  assert (Hc1 : ∀ w0, conns w0 = conns w → conns (dequeued c k q w0) !! c = Some k1).
  { intros w0 _. simpl. apply lookup_insert_eq. }
  destruct (json_Marshal X msg) as [data|] eqn:Hm.
  - unfold eval, exec.
    rewrite (writePump_recv X st rest s c w k msg q data Hc Hq Hsel Hm).
    destruct (connDead s c w || negb (netOK st)).
    + exists 1, 0, k1, t. simpl. rewrite lookup_insert_eq, app_nil_r.
      split_and!; auto with lia.
    + destruct (IH (wrote s data (dequeued c k q w)) k1
                  (mkTransport (Subprotocol t) (closed t) (written t ++ [data])))
        as (n & m & k' & t' & Hn & Hnm & Hk' & Hq' & Hu' & Hd' & Ht' & Hw' & Hcl' & Hl').
      { simpl. apply lookup_insert_eq. }
      { simpl. by rewrite lookup_alter_eq, Hs. }
      exists (S n), (S m), k', t'. simpl in *. rewrite Hm. simpl.
      split_and!; try done; [lia | | by rewrite Hw', <- app_assoc].
      destruct Hnm as [->|[<- Hev]]; [by left | right; done].
  - unfold eval, exec.
    rewrite (writePump_skip X st rest s c w k msg q Hc Hq Hsel Hm).
    destruct (IH (logged LogMarshalFailed (dequeued c k q w)) k1 t)
      as (n & m & k' & t' & Hn & Hnm & Hk' & Hq' & Hu' & Hd' & Ht' & Hw' & Hcl' & Hl').
    { simpl. apply lookup_insert_eq. }
    { done. }
    exists (S n), (S m), k', t'. simpl in *. rewrite Hm.
    split_and!; try done; [lia |].
    destruct Hnm as [->|[<- Hev]]; [by left | right; done].
Qed.

Lemma writePump_sends_in_queue_order_witness :
  conns demoWorld !! 1 = Some bob
  ∧ socks demoWorld !! 1 = Some (mkTransport "lobby" None [])
  ∧ ∃ (n m : nat) k' t',
      (m = n ∨ S m = n)
      ∧ conns (exec (writePump demoX [mkWriteStep false true; mkWriteStep false false] 1 1)
                 demoWorld) !! 1 = Some k'
      ∧ OutChan k' = drop n [MsgUserJoined 1]
      ∧ socks (exec (writePump demoX [mkWriteStep false true; mkWriteStep false false] 1 1)
                 demoWorld) !! 1 = Some t'
      ∧ written t' = omap (json_Marshal demoX) (take m [MsgUserJoined 1]).
Proof.
  assert (H1 : conns demoWorld !! 1 = Some bob) by reflexivity.
  assert (H2 : socks demoWorld !! 1 = Some (mkTransport "lobby" None [])) by reflexivity.
  split_and!; try assumption.
  destruct (writePump_sends_in_queue_order demoX
              [mkWriteStep false true; mkWriteStep false false] 1 1 demoWorld _ _ H1 H2)
    as (n & m & k' & t' & _ & Hnm & Hk & Hq & _ & _ & Ht & Hw & _).
  exists n, m, k', t'. split_and!; [| exact Hk | exact Hq | exact Ht | exact Hw].
  destruct Hnm as [?|[? _]]; [by left | by right].
Defined.

(** ** What a run adds to the trace *)

Lemma emits_ret P {A} (a : A) : emits P (mret a : M A).
Proof. intros w. exists []. by rewrite app_nil_r. Qed.

Lemma emits_get P : emits P get.
Proof. intros w. exists []. by rewrite app_nil_r. Qed.

Lemma emits_bind P {A B} (m : M A) (f : A → M B) :
  emits P m → (∀ a, emits P (f a)) → emits P (m ≫= f).
Proof.
  intros Hm Hf w. rewrite exec_bind.
  destruct (Hm w) as (d1 & T1 & F1). destruct (Hf (eval m w) (exec m w)) as (d2 & T2 & F2).
  exists (d1 ++ d2). rewrite T2, T1, app_assoc. split; [done|]. by apply Forall_app.
Qed.

Lemma emits_emit (P : Event → Prop) e : P e → emits P (emit e).
Proof. intros He w. exists [e]. split; [done|]. by constructor. Qed.

Lemma emits_setLobbies P f : emits P (setLobbies f).
Proof. intros w. exists []. by rewrite app_nil_r. Qed.

Lemma emits_setConns P f : emits P (setConns f).
Proof. intros w. exists []. by rewrite app_nil_r. Qed.

Lemma emits_setSocks P f : emits P (setSocks f).
Proof. intros w. exists []. by rewrite app_nil_r. Qed.

Lemma emits_forM P {A} (f : A → M unit) xs :
  (∀ x, emits P (f x)) → emits P (forM_ f xs).
Proof.
  intros Hf. induction xs as [|x xs IH]; simpl.
  - apply emits_ret.
  - apply emits_bind; [apply Hf | intros _; apply IH].
Qed.

Ltac emits_step :=
  first
    [ apply emits_emit
    | apply emits_setLobbies
    | apply emits_setConns
    | apply emits_setSocks
    | apply emits_forM; intros ?
    | apply emits_ret
    | apply emits_get
    | apply emits_bind; [| intros ?]
    | match goal with
      | |- emits _ (match ?x with _ => _ end) => destruct x
      end
    | progress unfold trySend, writeReady, writeConnection, deleteConnection, deleteReady,
        writeCountdown, Cancel, Close, logger, withLock, lookupLobby, broadcast,
        connUserID, BroadcastReadyState, BroadcastLeave, BroadcastChat, BroadcastJoin,
        AreAllReady, StartCountdown, CancelCountdown, RemoveUser, GetOrCreateLobbyState,
        c_Read, Accept, newLobbyConnection, registerConnection, readPump_deferred ].

Ltac emits_go := repeat emits_step.

Section EmitsSession.

Variable P : Event → Prop.
Hypothesis P_most : ∀ e, isHTTPError e = false → isMembershipRemoval e = false → P e.

Lemma emits_handleLobbyMessage X packet l c :
  (String.eqb (assertString (packet !! "type")) "leave_lobby" = true →
   ∀ u l', P (EvRemoveUserFromLobby u l')) →
  emits P (handleLobbyMessage X packet l c).
Proof.
  intros Hleave. unfold handleLobbyMessage.
  apply emits_bind; [emits_go | intros uid].
  destruct (String.eqb _ "ready"); [emits_go; by apply P_most|].
  destruct (String.eqb _ "unready"); [emits_go; by apply P_most|].
  destruct (String.eqb _ "leave_lobby").
  - apply emits_bind; [apply emits_emit; by apply Hleave | intros _].
    emits_go; by apply P_most.
  - destruct (String.eqb _ "chat"); emits_go; by apply P_most.
Qed.

Lemma emits_readLoop X reads s l c :
  (∀ x, x ∈ reads → asksToLeave X x = true → ∀ u l', P (EvRemoveUserFromLobby u l')) →
  emits P (readLoop X reads s l c).
Proof.
  assert (Hexit : emits P (uid ← connUserID c ; logger (LogReadErr uid) ;; mret true)).
  { emits_go. by apply P_most. }
  induction reads as [|x rest IH]; intros Hleave; simpl.
  - apply emits_bind; [emits_go | intros [r|]]; [apply Hexit | apply emits_ret].
  - assert (IH' : emits P (readLoop X rest s l c)).
    { apply IH. intros y Hy. apply Hleave. by apply list_elem_of_further. }
    intros w. rewrite exec_bind, c_Read_eval, c_Read_exec.
    destruct (connDead s c w); [apply Hexit|].
    destruct x as [|[|] msg]; [apply Hexit | | apply IH'].
    pose proof (Hleave _ (list_elem_of_here _ _)) as Hx. simpl in Hx.
    destruct (json_Unmarshal X msg) as [packet|].
    + apply emits_bind; [|done]. by apply emits_handleLobbyMessage.
    + apply emits_bind; [emits_go | intros uid].
      apply emits_bind; [emits_go; by apply P_most | done].
Qed.

Lemma emits_readPump X reads s l c :
  (∀ x, x ∈ reads → asksToLeave X x = true → ∀ u l', P (EvRemoveUserFromLobby u l')) →
  emits P (readPump X reads s l c).
Proof.
  intros Hleave. unfold readPump.
  apply emits_bind; [by apply emits_readLoop | intros [|]]; emits_go; by apply P_most.
Qed.

Lemma emits_upgraded X r reads l :
  uuid_Parse X (lobbyIDStr r) = Some l →
  (∀ x, x ∈ reads → asksToLeave X x = true → ∀ u l', P (EvRemoveUserFromLobby u l')) →
  emits P (LobbyWSHandler X r reads).
Proof.
  intros Hl Hleave. unfold LobbyWSHandler. rewrite strings_Split_nonempty.
  fold (lobbyIDStr r). rewrite Hl.
  apply emits_bind; [emits_go; by apply P_most | intros [sock|]];
    [| emits_go; by apply P_most].
  apply emits_bind; [emits_go | intros w0].
  destruct (negb _); [emits_go; by apply P_most|].
  destruct (AuthenticateJWT X _) as [uidStr|]; [| emits_go; by apply P_most].
  destruct (uuid_Parse X uidStr) as [u|]; [| emits_go; by apply P_most].
  apply emits_bind; [emits_go; by apply P_most | intros _].
  destruct (IsUserInLobby X l u) as [[|] [|]]; simpl; try (emits_go; by apply P_most).
  apply emits_bind; [emits_go; by apply P_most | intros [ls conn]].
  apply emits_bind; [by apply emits_readPump | intros _; apply emits_ret].
Qed.

End EmitsSession.

(** ** The accept path before a session exists *)


(** X20.  The persisted membership is removed only on request: in a run of
    LobbyWSHandler whose frames contain no text message that decodes to a
    leave_lobby request, database.RemoveUserFromLobby is never called, however
    the session ends; a disconnect only unregisters the connection in memory. *)
Theorem membership_removed_only_on_leave X (r : Request) (reads : list ReadResult) (w : World) :
  (∀ x, x ∈ reads → asksToLeave X x = false) →
  ∃ d, trace (exec (LobbyWSHandler X r reads) w) = trace w ++ d
       ∧ Forall (λ e, isMembershipRemoval e = false) d.
Proof.
  intros Hreads.
  destruct (uuid_Parse X (lobbyIDStr r)) as [l|] eqn:Hl.
  - apply (emits_upgraded (λ e, isMembershipRemoval e = false) (λ e _ H, H) X r reads l Hl).
    intros x Hx Ha. rewrite (Hreads x Hx) in Ha. discriminate.
  - exists [EvHTTPError 400 "invalid lobby_id"]. split; [|by repeat constructor].
    unfold LobbyWSHandler. rewrite strings_Split_nonempty. fold (lobbyIDStr r).
    by rewrite Hl.
Qed.


Lemma membership_removed_only_on_leave_witness :
  (∀ x, x ∈ [ReadMsg MessageText "{type:ready}"; ReadErr] → asksToLeave demoX x = false)
  ∧ ∃ d, trace (exec (LobbyWSHandler demoX (demoRequest "token-alice")
                        [ReadMsg MessageText "{type:ready}"; ReadErr]) demoWorld) = d
         ∧ Forall (λ e, isMembershipRemoval e = false) d.
Proof.
  assert (H1 : ∀ x, x ∈ [ReadMsg MessageText "{type:ready}"; ReadErr] →
                    asksToLeave demoX x = false).
  { intros x Hx. apply elem_of_cons in Hx as [->|Hx]; [reflexivity|].
    apply list_elem_of_singleton in Hx as ->. reflexivity. }
  split; [exact H1|].
  exact (membership_removed_only_on_leave demoX (demoRequest "token-alice") _ demoWorld H1).
Defined.


(** ** One reply per request *)

Ltac one_reply :=
  repeat match goal with
         | |- context [if ?b then _ else _] => destruct b
         | |- context [match ?x with _ => _ end] => destruct x
         end;
  first [ by eexists [], _
        | by eexists [_], _
        | by eexists [_; _], _
        | by eexists [_; _; _], _ ].

(** X9.  Every request to one of the six lobby endpoints is answered exactly
    once, and the answer is the last thing the handler does: no handler goes
    on after an error reply, none returns without a reply, and none touches
    the database or the game server after it has replied. *)
Theorem every_request_gets_one_reply X B (rnd : nat) (r : APIRequest) :
  repliesOnce (CreateLobbyHandler X B r)
  ∧ repliesOnce (JoinLobbyHandler X B rnd r)
  ∧ repliesOnce (StartLobbyGameHandler X B r)
  ∧ repliesOnce (ListLobbiesHandler X B r)
  ∧ repliesOnce (GetLobbyHandler X B r)
  ∧ repliesOnce (DeleteLobbyHandler X B r).
Proof.
  unfold repliesOnce. split_and!.
  - unfold CreateLobbyHandler. one_reply.
  - unfold JoinLobbyHandler. one_reply.
  - unfold StartLobbyGameHandler. one_reply.
  - unfold ListLobbiesHandler. one_reply.
  - unfold GetLobbyHandler. one_reply.
  - unfold DeleteLobbyHandler. one_reply.
Qed.
